(** * starlink-sim: topology, routing, route installation and statistics

    A shallow embedding of [src/starlink-sim.cc] and the properties its
    specification states about it.

    Conventions of the embedding.
    - [uint32_t] node ids index vectors, so they are [nat]; where the source
      does 32-bit arithmetic on them the wrap-around is written with [Z].
      [uint16_t], [uint64_t] and [int] values are [Z] with explicit wrapping.
    - [std::vector] is [list] with stdpp's lookup [!!] and insert [<[_:=_]>];
      an access out of range is undefined behaviour in the source and is
      [None] here, so a result [Some _] also says that no such access
      happened.
    - [std::map] is stdpp's [gmap].
    - [double] is an interface, class [Double], with the operations the
      routing code uses.  Its instance [float_double] is IEEE-754 binary64
      (the kernel's primitive floats), which is what the program runs on.
      Statements that need the algebra of an ordered numeric type (a total
      order, monotone addition) take it as the class [DoubleLaws]; exact
      arithmetic satisfies it (instance [xrat_laws]).  The statistics
      formulas are embedded on binary64 directly.
    - A [while] loop whose termination is part of what is proved takes a
      fuel argument; running out of fuel is [None].
    - Text parsing ([std::stoul], [std::stod], [std::getline] on a
      [stringstream]) and the simulation engine (ns-3) are outside the
      source file; what they return is a parameter or a record field.  The
      packets that the engine reports to the trace callbacks are a list of
      events, and the text it prints for an address is a parameter. *)

From Stdlib Require Import ZArith QArith Floats Lia Lqa Ascii String.
From stdpp Require Import base option list gmap strings sorting pretty.
Local Open Scope Z_scope.
Local Open Scope nat_scope.

(* ===================================================================== *)
(** * Part I: the program                                                 *)
(* ===================================================================== *)

(** ** Machine integers *)

(** Conversion of a value to [uint16_t], [uint32_t], [uint64_t]. *)
Definition wrap16 (z : Z) : Z := (z mod 2 ^ 16)%Z.
Definition wrap32 (z : Z) : Z := (z mod 2 ^ 32)%Z.
Definition wrap64 (z : Z) : Z := (z mod 2 ^ 64)%Z.

(** [uint32_t] to [int] (two's complement), as in [result.prev[v] = u] and
    [int at = dst]. *)
Definition to_int (u : nat) : Z :=
  let z := wrap32 (Z.of_nat u) in
  if (z <? 2 ^ 31)%Z then z else (z - 2 ^ 32)%Z.

(** An [int] used as a vector index is converted to [size_t]; a negative
    one becomes an index past the end of any vector. *)
Definition to_index (at_ : Z) : option nat :=
  if (at_ <? 0)%Z then None else Some (Z.to_nat at_).

(** ** The type [double] *)

Class Double (D : Type) := {
  d_zero : D;                 (* the literal 0 *)
  d_one : D;                  (* the literal 1.0 *)
  d_inf : D;                  (* std::numeric_limits<double>::infinity() *)
  d_add : D -> D -> D;        (* a + b *)
  d_ltb : D -> D -> bool;     (* a < b *)
  d_leb : D -> D -> bool;     (* a <= b *)
  d_eqb : D -> D -> bool;     (* a == b *)
}.

(** [a > b] on doubles is [b < a]. *)
Definition d_gtb {D} `{Double D} (a b : D) : bool := d_ltb b a.

(** IEEE-754 binary64. *)
#[export] Instance float_double : Double float := {
  d_zero := PrimFloat.zero;
  d_one := PrimFloat.one;
  d_inf := PrimFloat.infinity;
  d_add := PrimFloat.add;
  d_ltb := PrimFloat.ltb;
  d_leb := PrimFloat.leb;
  d_eqb := PrimFloat.eqb;
}.

(** Exact arithmetic: the rationals with a point at infinity. *)
Inductive xrat : Type :=
| Fin (q : Q)
| Inf.

Definition xrat_add (a b : xrat) : xrat :=
  match a, b with
  | Fin p, Fin q => Fin (p + q)
  | _, _ => Inf
  end.

Definition xrat_ltb (a b : xrat) : bool :=
  match a, b with
  | Fin p, Fin q => negb (Qle_bool q p)
  | Fin _, Inf => true
  | Inf, _ => false
  end.

Definition xrat_leb (a b : xrat) : bool := negb (xrat_ltb b a).

Definition xrat_eqb (a b : xrat) : bool :=
  negb (xrat_ltb a b) && negb (xrat_ltb b a).

#[export] Instance xrat_double : Double xrat := {
  d_zero := Fin 0;
  d_one := Fin 1;
  d_inf := Inf;
  d_add := xrat_add;
  d_ltb := xrat_ltb;
  d_leb := xrat_leb;
  d_eqb := xrat_eqb;
}.

(** The algebra of an ordered numeric type that the routing proofs use:
    [<] is a strict weak order, [<=] and [==] are derived from it, adding
    the same weight keeps the order, and [infinity] is the top. *)
Class DoubleLaws (D : Type) `{Double D} : Prop := {
  d_lt_irrefl : forall a : D, d_ltb a a = false;
  d_lt_trans : forall a b c : D,
    d_ltb a b = true -> d_ltb b c = true -> d_ltb a c = true;
  d_nlt_trans : forall a b c : D,
    d_ltb b a = false -> d_ltb c b = false -> d_ltb c a = false;
  d_leb_ltb : forall a b : D, d_leb a b = negb (d_ltb b a);
  d_eqb_ltb : forall a b : D,
    d_eqb a b = negb (d_ltb a b) && negb (d_ltb b a);
  d_add_mono : forall a b w : D,
    d_ltb b a = false -> d_ltb (d_add b w) (d_add a w) = false;
  d_add_incr : forall a w : D,
    d_ltb d_zero w = true -> d_ltb (d_add a w) a = false;
  d_inf_top : forall a : D, d_ltb d_inf a = false;
  d_zero_lt_inf : d_ltb (d_zero : D) d_inf = true;
  d_zero_lt_one : d_ltb (d_zero : D) d_one = true;
}.

(** Integer to [double], rounded to nearest even as the hardware does. *)
Definition double_of_Z (z : Z) : float :=
  SF2Prim (binary_normalize prec emax z 0 false).

(** ** Data structures *)

Record LinkParam (D : Type) : Type := mkLinkParam {
  srcId : nat;
  dstId : nat;
  srcName : string;
  dstName : string;
  delayMs : D;
  dataRateBps : Z;            (* uint64_t *)
  packetLossRate : D;
  distanceKm : D;
}.
Arguments mkLinkParam {D}.
Arguments srcId {D}.
Arguments dstId {D}.
Arguments srcName {D}.
Arguments dstName {D}.
Arguments delayMs {D}.
Arguments dataRateBps {D}.
Arguments packetLossRate {D}.
Arguments distanceKm {D}.

Record TrafficDemand (D : Type) : Type := mkTrafficDemand {
  demandId : Z;               (* uint32_t *)
  srcNode : string;
  dstNode : string;
  dm_srcId : nat;
  dm_dstId : nat;
  dataRateMbps : D;
  startTimeSec : D;
  durationSec : D;
}.
Arguments mkTrafficDemand {D}.
Arguments demandId {D}.
Arguments srcNode {D}.
Arguments dstNode {D}.
Arguments dm_srcId {D}.
Arguments dm_dstId {D}.
Arguments dataRateMbps {D}.
Arguments startTimeSec {D}.
Arguments durationSec {D}.

Record LinkStats : Type := mkLinkStats {
  ls_srcName : string;
  ls_dstName : string;
  txPackets : Z;              (* uint64_t *)
  rxPackets : Z;              (* uint64_t *)
}.

(** The globals that [LoadLinks] fills. *)
Record Topology (D : Type) : Type := mkTopology {
  g_links : list (LinkParam D);
  g_nodeIdToName : gmap nat string;
  g_numNodes : nat;
  g_adjList : list (list (nat * D));
}.
Arguments mkTopology {D}.
Arguments g_links {D}.
Arguments g_nodeIdToName {D}.
Arguments g_numNodes {D}.
Arguments g_adjList {D}.

Definition empty_topology {D : Type} : Topology D :=
  mkTopology [] ∅ 0 [].

(** ** [Trim] *)

Definition is_space (c : ascii) : bool :=
  (* one of " \t\r\n" *)
  let n := nat_of_ascii c in
  (n =? 32) || (n =? 9) || (n =? 13) || (n =? 10).

(** [s.find_first_not_of(" \t\r\n")]; [None] is [npos]. *)
Fixpoint find_first_not_space (s : string) : option nat :=
  match s with
  | EmptyString => None
  | String c s' =>
      if is_space c then S <$> find_first_not_space s' else Some 0
  end.

(** [s.find_last_not_of(" \t\r\n")]. *)
Fixpoint find_last_not_space (s : string) : option nat :=
  match s with
  | EmptyString => None
  | String c s' =>
      match find_last_not_space s' with
      | Some i => Some (S i)
      | None => if is_space c then None else Some 0
      end
  end.

Definition Trim (s : string) : string :=
  match find_first_not_space s with
  | None => EmptyString
  | Some start =>
      match find_last_not_space s with
      | None => EmptyString     (* not reached: [start] exists *)
      | Some end_ => String.substring start (end_ - start + 1) s
      end
  end.

(** [Trim(line).empty()] *)
Definition blank_line (line : string) : bool :=
  match Trim line with EmptyString => true | _ => false end.

(** ** [LoadLinks] and [LoadDemands] *)

Section Loading.
Context {D : Type} `{Double D}.

(** The conversions of one row's fields (lines 165-172 and 199-206):
    [None] when one of them throws. *)
Variable parse_link : string -> option (LinkParam D).
Variable parse_demand : string -> option (TrafficDemand D).

(** Lines 173-174. *)
Definition coerce_link (p : LinkParam D) : LinkParam D :=
  let delay := if d_leb (delayMs p) d_zero then d_one else delayMs p in
  let rate := if (dataRateBps p <? 1000)%Z then 1000000%Z else dataRateBps p in
  mkLinkParam (srcId p) (dstId p) (srcName p) (dstName p)
              delay rate (packetLossRate p) (distanceKm p).

(** Lines 175-178, for a row that parsed. *)
Definition store_link (p : LinkParam D) (t : Topology D) : Topology D :=
  let m := Z.to_nat (wrap32 (Z.of_nat (Nat.max (srcId p) (dstId p)) + 1)) in
  mkTopology (g_links t ++ [p])
             (<[dstId p := dstName p]> (<[srcId p := srcName p]> (g_nodeIdToName t)))
             (if g_numNodes t <? m then m else g_numNodes t)
             (g_adjList t).

(** One turn of the [while] loop of [LoadLinks]. *)
Definition load_link_row (t : Topology D) (line : string) : Topology D :=
  if blank_line line then t
  else match parse_link line with
       | None => t                        (* catch (...) { continue; } *)
       | Some p => store_link (coerce_link p) t
       end.

(** [v.resize(n)] for a vector of vectors. *)
Definition resize {A} (n : nat) (v : list (list A)) : list (list A) :=
  take n v ++ replicate (n - length v) [].

(** [adj[u].push_back({v, w})] *)
Definition add_edge (adj : list (list (nat * D))) (u v : nat) (w : D)
  : option (list (list (nat * D))) :=
  es ← adj !! u; Some (<[u := es ++ [(v, w)]]> adj).

(** Lines 183-186. *)
Fixpoint build_adj (links : list (LinkParam D)) (adj : list (list (nat * D)))
  : option (list (list (nat * D))) :=
  match links with
  | [] => Some adj
  | l :: links' =>
      adj1 ← add_edge adj (srcId l) (dstId l) (delayMs l);
      adj2 ← add_edge adj1 (dstId l) (srcId l) (delayMs l);
      build_adj links' adj2
  end.

(** [LoadLinks]: the file is [None] when it cannot be opened, and its
    lines otherwise (the first one is the header). *)
Definition LoadLinks (file : option (list string)) (t : Topology D)
  : option (bool * Topology D) :=
  match file with
  | None => Some (false, t)
  | Some lines =>
      let t1 := foldl load_link_row t (drop 1 lines) in
      adj ← build_adj (g_links t1) (resize (g_numNodes t1) (g_adjList t1));
      Some (negb (bool_decide (g_links t1 = [])) ,
            mkTopology (g_links t1) (g_nodeIdToName t1) (g_numNodes t1) adj)
  end.

(** One turn of the [while] loop of [LoadDemands]. *)
Definition load_demand_row (ds : list (TrafficDemand D)) (line : string)
  : list (TrafficDemand D) :=
  if blank_line line then ds
  else match parse_demand line with
       | None => ds
       | Some d => ds ++ [d]
       end.

Definition LoadDemands (file : option (list string)) (ds : list (TrafficDemand D))
  : bool * list (TrafficDemand D) :=
  match file with
  | None => (false, ds)
  | Some lines =>
      let ds1 := foldl load_demand_row ds (drop 1 lines) in
      (negb (bool_decide (ds1 = [])), ds1)
  end.

End Loading.

(** ** [Dijkstra] and [GetPath] *)

Record DijkstraResult (D : Type) : Type := mkDijkstraResult {
  dist : list D;
  prev : list Z;              (* std::vector<int> *)
}.
Arguments mkDijkstraResult {D}.
Arguments dist {D}.
Arguments prev {D}.

Section Routing.
Context {D : Type} `{Double D}.

(** [operator<] of [std::pair<double, uint32_t>]. *)
Definition pair_ltb (a b : D * nat) : bool :=
  d_ltb a.1 b.1 || (negb (d_ltb b.1 a.1) && (a.2 <? b.2)).

(** The priority queue orders its elements with [std::greater], so [top()]
    is an element that no other one is less than.  The queue is the list of
    its elements; [pq_pop_min] gives [top()] and the queue after [pop()]. *)
Fixpoint pq_pop_min (pq : list (D * nat)) : option ((D * nat) * list (D * nat)) :=
  match pq with
  | [] => None
  | x :: pq' =>
      match pq_pop_min pq' with
      | None => Some (x, [])
      | Some (m, rest) =>
          if pair_ltb m x then Some (m, x :: rest) else Some (x, pq')
      end
  end.

(** The variables of the [while] loop of [Dijkstra]. *)
Record DState : Type := mkDState {
  ds_dist : list D;
  ds_prev : list Z;
  ds_pq : list (D * nat);
}.

(** The body of the [for] loop, lines 137-141. *)
Definition relax_edge (u : nat) (e : nat * D) (s : DState) : option DState :=
  let '(v, w) := e in
  du ← ds_dist s !! u;
  dv ← ds_dist s !! v;
  if d_ltb (d_add du w) dv then
    _ ← ds_prev s !! v;
    Some (mkDState (<[v := d_add du w]> (ds_dist s))
                   (<[v := to_int u]> (ds_prev s))
                   ((d_add du w, v) :: ds_pq s))
  else Some s.

(** The [for] loop over [g_adjList[u]]. *)
Fixpoint relax_all (u : nat) (es : list (nat * D)) (s : DState) : option DState :=
  match es with
  | [] => Some s
  | e :: es' => s' ← relax_edge u e s; relax_all u es' s'
  end.

(** Lines 134-142 for the popped element [(d, u)]. *)
Definition dijkstra_body (adj : list (list (nat * D))) (d : D) (u : nat)
    (s : DState) : option DState :=
  du ← ds_dist s !! u;
  if d_gtb d du then Some s
  else es ← adj !! u; relax_all u es s.

(** The [while] loop. *)
Fixpoint dijkstra_loop (fuel : nat) (adj : list (list (nat * D))) (s : DState)
  : option DState :=
  match fuel with
  | 0 => None
  | S fuel' =>
      match pq_pop_min (ds_pq s) with
      | None => Some s
      | Some ((d, u), pq') =>
          s' ← dijkstra_body adj d u (mkDState (ds_dist s) (ds_prev s) pq');
          dijkstra_loop fuel' adj s'
      end
  end.

Definition dijkstra_init (src numNodes : nat) : option DState :=
  let dist0 := replicate numNodes d_inf in
  _ ← dist0 !! src;
  Some (mkDState (<[src := d_zero]> dist0) (replicate numNodes (-1)%Z)
                 [(d_zero, src)]).

Definition Dijkstra (fuel : nat) (adj : list (list (nat * D)))
    (src numNodes : nat) : option (DijkstraResult D) :=
  s0 ← dijkstra_init src numNodes;
  s ← dijkstra_loop fuel adj s0;
  Some (mkDijkstraResult (ds_dist s) (ds_prev s)).

(** The [for] loop of [GetPath]: the nodes pushed, in the order they are
    pushed.  A non-negative [int] is the same number as a [uint32_t].  A
    walk of more than [length prev] steps inside the vector has met a node
    twice and never ends in the source; that is [None] too. *)
Fixpoint walk_prev (fuel : nat) (prev : list Z) (at_ : Z) : option (list nat) :=
  if (at_ =? -1)%Z then Some []
  else match fuel with
       | 0 => None
       | S fuel' =>
           i ← to_index at_;
           next ← prev !! i;
           rest ← walk_prev fuel' prev next;
           Some (i :: rest)
       end.

Definition GetPath (src dst : nat) (dijkstra : DijkstraResult D)
  : option (list nat) :=
  d ← dist dijkstra !! dst;
  if d_eqb d d_inf then Some []
  else
    path ← walk_prev (S (length (prev dijkstra))) (prev dijkstra) (to_int dst);
    Some (reverse path).

End Routing.

(** ** [main]: link setup, route installation, traffic demands *)

(** An IPv4 address, as its 32-bit value. *)
Definition Ipv4Address : Type := Z.

(** What the engine hands back when link [i] is installed (lines 346-356):
    the interface index of the new device on each end, and the two
    addresses [ifaces.GetAddress(0)] and [ifaces.GetAddress(1)]. *)
Record LinkBinding : Type := mkLinkBinding {
  srcIfIndex : nat;
  dstIfIndex : nat;
  address0 : Ipv4Address;
  address1 : Ipv4Address;
}.

(** The globals that the link loop of [main] fills and the demand loop
    reads.  ([g_ipToSatellite] and [g_monitoredLinks] feed the reports'
    name columns and the queue monitor only.) *)
Record Interfaces : Type := mkInterfaces {
  g_linkInterface : gmap (nat * nat) (nat * Ipv4Address);
  g_nodeFirstIp : gmap nat Ipv4Address;
}.

Definition no_interfaces : Interfaces := mkInterfaces ∅ ∅.

(** A call [staticRouting->AddHostRouteTo(destAddr, nextHopAddr, ifIndex)]
    on the routing table of node [hr_node]. *)
Record HostRoute : Type := mkHostRoute {
  hr_node : nat;
  hr_dest : Ipv4Address;
  hr_nextHop : Ipv4Address;
  hr_interface : nat;
}.

(** A row of the route report. *)
Record RouteRow : Type := mkRouteRow {
  rr_flowId : Z;
  rr_srcNode : string;
  rr_dstNode : string;
  rr_hopCount : nat;
  rr_path : string;
}.

(** The receiving and the sending endpoint requested from the engine. *)
Record SinkApp (D : Type) : Type := mkSinkApp {
  sink_node : nat;
  sink_port : Z;
  sink_start : D;
  sink_stop : D;
}.
Arguments mkSinkApp {D}.
Arguments sink_node {D}.
Arguments sink_port {D}.
Arguments sink_start {D}.
Arguments sink_stop {D}.

Record OnOffApp (D : Type) : Type := mkOnOffApp {
  onoff_node : nat;
  onoff_dest : Ipv4Address;
  onoff_port : Z;
  onoff_rateMbps : D;
  onoff_start : D;
  onoff_stop : D;
}.
Arguments mkOnOffApp {D}.
Arguments onoff_node {D}.
Arguments onoff_dest {D}.
Arguments onoff_port {D}.
Arguments onoff_rateMbps {D}.
Arguments onoff_start {D}.
Arguments onoff_stop {D}.

(** Everything the demand loop of [main] produces: the rows written to
    [routeFile], the host routes installed and the warnings printed, in
    order, the endpoints created, and the variable [port]. *)
Record Sim (D : Type) : Type := mkSim {
  routeFile : list RouteRow;
  hostRoutes : list HostRoute;
  warnings : list (nat * nat);
  sinkApps : list (SinkApp D);
  clientApps : list (OnOffApp D);
  port : Z;                   (* uint16_t *)
}.
Arguments mkSim {D}.
Arguments routeFile {D}.
Arguments hostRoutes {D}.
Arguments warnings {D}.
Arguments sinkApps {D}.
Arguments clientApps {D}.
Arguments port {D}.

Definition initial_sim {D : Type} : Sim D := mkSim [] [] [] [] [] 9000%Z.

Section Main.
Context {D : Type} `{Double D}.

Variable bind_link : nat -> LinkBinding.

(** Lines 349-368 for link [i]. *)
Definition setup_link (i : nat) (l : LinkParam D) (ifs : Interfaces) : Interfaces :=
  let b := bind_link i in
  let li1 := <[(srcId l, dstId l) := (srcIfIndex b, address1 b)]> (g_linkInterface ifs) in
  let li2 := <[(dstId l, srcId l) := (dstIfIndex b, address0 b)]> li1 in
  let fi1 := match g_nodeFirstIp ifs !! srcId l with
             | None => <[srcId l := address0 b]> (g_nodeFirstIp ifs)
             | Some _ => g_nodeFirstIp ifs
             end in
  let fi2 := match fi1 !! dstId l with
             | None => <[dstId l := address1 b]> fi1
             | Some _ => fi1
             end in
  mkInterfaces li2 fi2.

(** The link loop, from link number [i] on. *)
Fixpoint setup_links (i : nat) (links : list (LinkParam D)) (ifs : Interfaces)
  : Interfaces :=
  match links with
  | [] => ifs
  | l :: links' => setup_links (S i) links' (setup_link i l ifs)
  end.

(** [GetNodeName] *)
Definition GetNodeName (names : gmap nat string) (nodeId : nat) : string :=
  match names !! nodeId with
  | Some name => name
  | None => String.append "Node_" (pretty nodeId)
  end.

(** Lines 389-393: the node names joined by an arrow. *)
Fixpoint path_string (names : gmap nat string) (path : list nat) : string :=
  match path with
  | [] => EmptyString
  | [x] => GetNodeName names x
  | x :: path' =>
      String.append (GetNodeName names x) (String.append "->" (path_string names path'))
  end.

(** The body of the hop loop, lines 404-422. *)
Definition install_hop (ifs : Interfaces) (path : list nat) (destAddr : Ipv4Address)
    (hop : nat) (st : Sim D) : option (Sim D) :=
  currentNode ← path !! hop;
  nextNode ← path !! (hop + 1);
  match g_linkInterface ifs !! (currentNode, nextNode) with
  | None =>
      Some (mkSim (routeFile st) (hostRoutes st)
                  (warnings st ++ [(currentNode, nextNode)])
                  (sinkApps st) (clientApps st) (port st))
  | Some (ifIndex, nextHopAddr) =>
      Some (mkSim (routeFile st)
                  (hostRoutes st ++ [mkHostRoute currentNode destAddr nextHopAddr ifIndex])
                  (warnings st) (sinkApps st) (clientApps st) (port st))
  end.

(** [for (hop = first; hop < first + n; hop++)] *)
Fixpoint install_hops (n : nat) (ifs : Interfaces) (path : list nat)
    (destAddr : Ipv4Address) (hop : nat) (st : Sim D) : option (Sim D) :=
  match n with
  | 0 => Some st
  | S n' =>
      st' ← install_hop ifs path destAddr hop st;
      install_hops n' ifs path destAddr (S hop) st'
  end.

(** The hop loop, lines 403-423; it is reached with at least two nodes in
    [path], so [path.size() - 1] does not wrap. *)
Definition install_routes (ifs : Interfaces) (path : list nat)
    (destAddr : Ipv4Address) (st : Sim D) : option (Sim D) :=
  install_hops (length path - 1) ifs path destAddr 0 st.

Variable fuel : nat.
Variable simTime : D.

(** The body of the demand loop, lines 377-442. *)
Definition process_demand (topo : Topology D) (ifs : Interfaces)
    (demand : TrafficDemand D) (st : Sim D) : option (Sim D) :=
  let src := dm_srcId demand in
  let dst := dm_dstId demand in
  match g_nodeFirstIp ifs !! dst with
  | None => Some st                                   (* continue *)
  | Some destAddr =>
      dijkstra ← Dijkstra fuel (g_adjList topo) src (g_numNodes topo);
      path ← GetPath src dst dijkstra;
      if bool_decide (path = []) || (length path <? 2) then Some st   (* continue *)
      else
        let row := mkRouteRow (wrap32 (demandId demand + 1))
                              (srcNode demand) (dstNode demand)
                              (length path - 1)
                              (path_string (g_nodeIdToName topo) path) in
        let st1 := mkSim (routeFile st ++ [row]) (hostRoutes st) (warnings st)
                         (sinkApps st) (clientApps st) (port st) in
        st2 ← install_routes ifs path destAddr st1;
        Some (mkSim (routeFile st2) (hostRoutes st2) (warnings st2)
                    (sinkApps st2 ++ [mkSinkApp dst (port st2) d_zero simTime])
                    (clientApps st2 ++
                       [mkOnOffApp src destAddr (port st2) (dataRateMbps demand)
                          (startTimeSec demand)
                          (d_add (startTimeSec demand) (durationSec demand))])
                    (wrap16 (port st2 + 1)))
  end.

(** The demand loop. *)
Fixpoint process_demands (topo : Topology D) (ifs : Interfaces)
    (demands : list (TrafficDemand D)) (st : Sim D) : option (Sim D) :=
  match demands with
  | [] => Some st
  | demand :: demands' =>
      st' ← process_demand topo ifs demand st;
      process_demands topo ifs demands' st'
  end.

End Main.

(** What [main] does with the two input files, up to the end of the demand
    loop: it returns 1 when a loader returns [false]. *)
Inductive Outcome (D : Type) : Type :=
| Exit (code : Z)
| Ran (topo : Topology D) (demands : list (TrafficDemand D))
      (ifs : Interfaces) (st : Sim D).
Arguments Exit {D}.
Arguments Ran {D}.

Section MainProgram.
Context {D : Type} `{Double D}.
Variable parse_link : string -> option (LinkParam D).
Variable parse_demand : string -> option (TrafficDemand D).
Variable bind_link : nat -> LinkBinding.
Variable fuel : nat.
Variable simTime : D.

Definition main (linkFile demandFile : option (list string)) : option (Outcome D) :=
  '(ok, topo) ← LoadLinks parse_link linkFile empty_topology;
  if negb ok then Some (Exit 1)
  else
    let '(ok', demands) := LoadDemands parse_demand demandFile [] in
    if negb ok' then Some (Exit 1)
    else
      let ifs := setup_links bind_link 0 (g_links topo) no_interfaces in
      st ← process_demands fuel simTime topo ifs demands initial_sim;
      Some (Ran topo demands ifs st).

End MainProgram.

(** ** Forwarding state *)

(** Modelled from the spec: the forwarding state that the calls of
    [AddHostRouteTo] build up inside the engine, whose routing table is not
    part of the source.  Section 4.3 of the specification: a host route at
    node [current] says that packets destined for [destinationAddress]
    leave via interface [ifIndex] toward [nextHopAddress], one entry for
    each pair of a node and a destination address, and reinstalling a route
    is a no-op or an overwrite. *)
Definition AddHostRouteTo (r : HostRoute)
    (fwd : gmap (nat * Ipv4Address) (nat * Ipv4Address))
  : gmap (nat * Ipv4Address) (nat * Ipv4Address) :=
  <[(hr_node r, hr_dest r) := (hr_interface r, hr_nextHop r)]> fwd.

(** The state after a sequence of calls. *)
Definition forwarding_state (calls : list HostRoute)
    (fwd : gmap (nat * Ipv4Address) (nat * Ipv4Address))
  : gmap (nat * Ipv4Address) (nat * Ipv4Address) :=
  foldl (fun f r => AddHostRouteTo r f) fwd calls.

(** ** The link counters, [SaveLinkStats] and [SaveResults] *)

(** [LinkTxCallback] and [LinkRxCallback], on [g_linkStats]. *)
Definition LinkTxCallback (linkIndex : nat) (stats : list LinkStats) : list LinkStats :=
  match stats !! linkIndex with
  | Some st =>
      <[linkIndex := mkLinkStats (ls_srcName st) (ls_dstName st)
                                 (wrap64 (txPackets st + 1)) (rxPackets st)]> stats
  | None => stats
  end.

Definition LinkRxCallback (linkIndex : nat) (stats : list LinkStats) : list LinkStats :=
  match stats !! linkIndex with
  | Some st =>
      <[linkIndex := mkLinkStats (ls_srcName st) (ls_dstName st)
                                 (txPackets st) (wrap64 (rxPackets st + 1))]> stats
  | None => stats
  end.

(** The numbers of a row of the per-link report, lines 255-256. *)
Definition link_lost (st : LinkStats) : Z :=
  if (rxPackets st <=? txPackets st)%Z
  then wrap64 (txPackets st - rxPackets st)
  else 0%Z.

Definition link_plr (st : LinkStats) : float :=
  if (0 <? txPackets st)%Z
  then PrimFloat.div (double_of_Z (link_lost st)) (double_of_Z (txPackets st))
  else PrimFloat.zero.

Record LinkRow : Type := mkLinkRow {
  lr_srcName : string;
  lr_dstName : string;
  lr_txPackets : Z;
  lr_rxPackets : Z;
  lr_lostPackets : Z;
  lr_lossRate : float;
}.

(** [SaveLinkStats]: the rows written, one for each index of [g_links]. *)
Definition SaveLinkStats {D : Type} (links : list (LinkParam D))
    (stats : list LinkStats) : option (list LinkRow) :=
  mapM (fun i =>
          lp ← links !! i;
          st ← stats !! i;
          Some (mkLinkRow (srcName lp) (dstName lp) (txPackets st) (rxPackets st)
                          (link_lost st) (link_plr st)))
       (seq 0 (length links)).

(** The counters of one flow as [SaveResults] reads them from the engine's
    [FlowMonitor::FlowStats]: the packet counts are [uint32_t], the byte
    count is [uint64_t], [GetSeconds()] returns a [double] and
    [GetMilliSeconds()] returns an [int64_t]. *)
Record FlowStats : Type := mkFlowStats {
  fs_txPackets : Z;
  fs_rxPackets : Z;
  fs_rxBytes : Z;
  fs_timeFirstTxPacket_s : float;   (* timeFirstTxPacket.GetSeconds() *)
  fs_timeLastRxPacket_s : float;    (* timeLastRxPacket.GetSeconds() *)
  fs_delaySum_ms : Z;               (* delaySum.GetMilliSeconds() *)
  fs_jitterSum_ms : Z;              (* jitterSum.GetMilliSeconds() *)
}.

(** Line 232: the subtraction is done on [uint32_t]. *)
Definition flow_lost (s : FlowStats) : Z :=
  if (fs_rxPackets s <? fs_txPackets s)%Z
  then wrap32 (fs_txPackets s - fs_rxPackets s)
  else 0%Z.

(** Line 234. *)
Definition flow_pl (s : FlowStats) : float :=
  if (0 <? fs_txPackets s)%Z
  then PrimFloat.div (double_of_Z (flow_lost s)) (double_of_Z (fs_txPackets s))
  else PrimFloat.zero.

(** Lines 235-237. *)
Definition flow_tp (s : FlowStats) : float :=
  if (0 <? fs_rxPackets s)%Z then
    let dur := PrimFloat.sub (fs_timeLastRxPacket_s s) (fs_timeFirstTxPacket_s s) in
    if PrimFloat.ltb PrimFloat.zero dur
    then PrimFloat.div
           (PrimFloat.div (PrimFloat.mul (double_of_Z (fs_rxBytes s)) 8%float) dur)
           1000000%float
    else PrimFloat.zero
  else PrimFloat.zero.

(** Lines 238-239: both operands of [/] are integers ([int64_t] and
    [uint32_t]), so the quotient is the integer one, truncated toward
    zero, and is converted to [double] afterwards. *)
Definition flow_dl (s : FlowStats) : float :=
  if (0 <? fs_rxPackets s)%Z
  then double_of_Z (Z.quot (fs_delaySum_ms s) (fs_rxPackets s))
  else PrimFloat.zero.

Definition flow_jt (s : FlowStats) : float :=
  if (0 <? fs_rxPackets s)%Z
  then double_of_Z (Z.quot (fs_jitterSum_ms s) (fs_rxPackets s))
  else PrimFloat.zero.

Record FlowRow : Type := mkFlowRow {
  fr_flowId : Z;
  fr_txPackets : Z;
  fr_rxPackets : Z;
  fr_lostPackets : Z;
  fr_throughputMbps : float;
  fr_meanDelayMs : float;
  fr_meanJitterMs : float;
  fr_lossRate : float;
}.

(** [SaveResults]: the numeric columns of the rows written, one for each
    flow of the monitor. *)
Definition SaveResults (stats : list (Z * FlowStats)) : list FlowRow :=
  map (fun '(id, s) =>
         mkFlowRow id (fs_txPackets s) (fs_rxPackets s) (flow_lost s)
                   (flow_tp s) (flow_dl s) (flow_jt s) (flow_pl s))
      stats.

(** ** The link loop of [main]: counters, error model, subnets, names *)

(** Lines 290-294 of [main]: [g_linkStats.resize(g_links.size())] on the
    empty vector gives counters at 0, and the loop copies the names. *)
Definition init_linkStats {D} (links : list (LinkParam D)) : option (list LinkStats) :=
  foldl (fun acc i =>
           stats ← acc;
           l ← links !! i;
           st ← stats !! i;
           Some (<[i := mkLinkStats (srcName l) (dstName l) (txPackets st) (rxPackets st)]>
                   stats))
        (Some (replicate (length links) (mkLinkStats "" "" 0 0)))
        (seq 0 (length links)).

(** A packet seen by one of the two traces that lines 341 and 342 connect
    for a link, [MacTx] of the device at its source end and [MacRx] of the
    device at its destination end: a call of the callback bound to
    [linkIndex]. *)
Inductive TraceEvent : Type :=
| MacTx (linkIndex : nat)
| MacRx (linkIndex : nat).

#[export] Instance TraceEvent_eq_dec : EqDecision TraceEvent.
Proof. solve_decision. Defined.

(** The bound callbacks, called in the order of the events. *)
Definition link_trace (events : list TraceEvent) (stats : list LinkStats) : list LinkStats :=
  foldl (fun st e =>
           match e with
           | MacTx i => LinkTxCallback i st
           | MacRx i => LinkRxCallback i st
           end) stats events.

(** Lines 321-328: the error rate of the receive error model that link
    [l] gets on its two devices, if it gets one. *)
Definition link_error_rate {D} `{Double D} (l : LinkParam D) : option D :=
  let plr := packetLossRate l in
  if d_gtb plr d_zero && d_ltb plr d_one then Some plr else None.

(** Line 344: the text given to [ipv4.SetBase] for the link of which
    [sub] is the number, a [uint32_t]. *)
Definition subnet_base (sub : N) : string :=
  "10." +:+ pretty ((sub / 256) mod 256)%N +:+ "." +:+ pretty (sub mod 256)%N +:+ ".0".

(** The value of [sub] in turn [i] of the link loop: it starts at 0 and
    is incremented at the end of each turn. *)
Definition sub_of_link (i : nat) : N := (N.of_nat i mod 2 ^ 32)%N.

Section SatelliteNames.
Context {D : Type}.

(** The text that the engine prints for an address ([oss << addr]). *)
Variable show_addr : Ipv4Address -> string.
Variable bind_link : nat -> LinkBinding.

(** Lines 363-366 for link [i]: the names of its two ends under the texts
    of its two addresses. *)
Definition name_link (i : nat) (l : LinkParam D) (names : gmap string string)
  : gmap string string :=
  <[show_addr (address1 (bind_link i)) := dstName l]>
    (<[show_addr (address0 (bind_link i)) := srcName l]> names).

(** [g_ipToSatellite] after the link loop, from link number [i] on. *)
Fixpoint name_links (i : nat) (links : list (LinkParam D)) (names : gmap string string)
  : gmap string string :=
  match links with
  | [] => names
  | l :: links' => name_links (S i) links' (name_link i l names)
  end.

(** [GetSatelliteName] *)
Definition GetSatelliteName (g_ipToSatellite : gmap string string) (addr : Ipv4Address)
  : string :=
  match g_ipToSatellite !! show_addr addr with
  | Some name => name
  | None => "Unknown"
  end.

End SatelliteNames.

(** ** [MonitorQueues] *)

(** An entry of [g_monitoredLinks]; the device is a number that the
    engine knows it by, [None] for a null pointer. *)
Record MonitorEntry : Type := mkMonitorEntry {
  me_srcName : string;
  me_dstName : string;
  me_device : option nat;
}.

(** A row of the queue monitor file. *)
Record MonitorRow (D : Type) : Type := mkMonitorRow {
  mr_time : D;
  mr_srcNode : string;
  mr_dstNode : string;
  mr_queuePackets : Z;         (* uint32_t *)
}.
Arguments mkMonitorRow {D}.
Arguments mr_time {D}.
Arguments mr_srcNode {D}.
Arguments mr_dstNode {D}.
Arguments mr_queuePackets {D}.

Section Monitor.
Context {D : Type}.

(** [DynamicCast<PointToPointNetDevice>(devs.Get(k))] for link [i]. *)
Variable device_of : nat -> nat -> option nat.

(** Lines 330-339 for link [i]. *)
Definition monitor_link (i : nat) (l : LinkParam D) (g_monitoredLinks : list MonitorEntry)
  : list MonitorEntry :=
  (g_monitoredLinks ++ [mkMonitorEntry (srcName l) (dstName l) (device_of i 0)])
    ++ [mkMonitorEntry (dstName l) (srcName l) (device_of i 1)].

(** [g_monitoredLinks] after the link loop, from link number [i] on. *)
Fixpoint monitor_links (i : nat) (links : list (LinkParam D))
    (g_monitoredLinks : list MonitorEntry) : list MonitorEntry :=
  match links with
  | [] => g_monitoredLinks
  | l :: links' => monitor_links (S i) links' (monitor_link i l g_monitoredLinks)
  end.

(** [entry.device->GetQueue()->GetNPackets()] when the call is made;
    [None] for a device without a queue. *)
Variable GetNPackets : nat -> option Z.

(** The rows that one call of [MonitorQueues] writes at the time [now];
    the call then asks the engine to be called again [interval] later. *)
Fixpoint MonitorQueues (now : D) (entries : list MonitorEntry) : list (MonitorRow D) :=
  match entries with
  | [] => []
  | entry :: entries' =>
      match me_device entry with
      | None => MonitorQueues now entries'                      (* continue *)
      | Some device =>
          let qSize := match GetNPackets device with
                       | Some n => n
                       | None => 0%Z
                       end in
          mkMonitorRow now (me_srcName entry) (me_dstName entry) qSize
            :: MonitorQueues now entries'
      end
  end.

End Monitor.

(* ===================================================================== *)
(** * Part II: the vocabulary of the properties                           *)
(* ===================================================================== *)

(** ** Loading *)

(** The rows of a file that a loader keeps: the rows after the header that
    are not blank and that parse. *)
Definition accepted_rows {A} (parse : string -> option A)
    (file : option (list string)) : list A :=
  match file with
  | None => []
  | Some lines =>
      omap (fun line => if blank_line line then None else parse line) (drop 1 lines)
  end.

(** [l] joins [u] and [v], in one direction or the other. *)
Definition link_joins {D} (l : LinkParam D) (u v : nat) : Prop :=
  (u = srcId l /\ v = dstId l) \/ (u = dstId l /\ v = srcId l).

(** ** Graphs and paths *)

(** [adj] has an edge from [u] to [v] of weight [w]. *)
Definition adj_edge {D} (adj : list (list (nat * D))) (u v : nat) (w : D) : Prop :=
  exists es, adj !! u = Some es /\ (v, w) ∈ es.

(** The adjacency lists fit [numNodes] nodes. *)
Definition adj_wf {D} (adj : list (list (nat * D))) (numNodes : nat) : Prop :=
  length adj = numNodes /\
  forall u v w, adj_edge adj u v w -> v < numNodes.

(** Every weight is positive. *)
Definition adj_positive {D} `{Double D} (adj : list (list (nat * D))) : Prop :=
  forall u v w, adj_edge adj u v w -> d_ltb d_zero w = true.

(** [a <= b] and [a < b] as propositions. *)
Definition dle {D} `{Double D} (a b : D) : Prop := d_ltb b a = false.
Definition dlt {D} `{Double D} (a b : D) : Prop := d_ltb a b = true.

(** [walk adj src v c]: there is a path from [src] to [v] along edges of
    [adj] whose weights, added up from the source on as the program adds
    them, give [c]. *)
Inductive walk {D} `{Double D} (adj : list (list (nat * D))) (src : nat)
  : nat -> D -> Prop :=
| walk_here : walk adj src src d_zero
| walk_step (u v : nat) (w c : D) :
    walk adj src u c -> adj_edge adj u v w -> walk adj src v (d_add c w).

(** [ws] are the weights of edges of [adj] along [path], one for each step. *)
Definition path_weights {D} (adj : list (list (nat * D))) (path : list nat)
    (ws : list D) : Prop :=
  length ws = length path - 1 /\
  forall i a b w, path !! i = Some a -> path !! S i = Some b -> ws !! i = Some w ->
    adj_edge adj a b w.

(** The number of entries of the adjacency lists. *)
Definition edge_count {D} (adj : list (list (nat * D))) : nat :=
  sum_list_with length adj.

(** ** Invariants of [Dijkstra] *)

(** [x] is the source or has a predecessor. *)
Definition reached (src : nat) (prev : list Z) (x : nat) : Prop :=
  x = src \/ exists z, prev !! x = Some z /\ z <> (-1)%Z.

(** What holds of the variables of [Dijkstra] on any arithmetic: the
    predecessor of a node is the sentinel or a node with an edge to it. *)
Record safe {D} `{Double D} (adj : list (list (nat * D))) (src : nat)
    (dist : list D) (prev : list Z) (pq : list (D * nat)) : Prop := {
  safe_length : length prev = length dist;
  safe_bound : (Z.of_nat (length dist) < 2 ^ 32)%Z;
  safe_prev : forall v z, prev !! v = Some z ->
    z = (-1)%Z \/
    exists u w, z = to_int u /\ u < length dist /\ adj_edge adj u v w /\
                reached src prev u;
  safe_pq : forall d x, (d, x) ∈ pq -> reached src prev x;
  safe_dist : forall x d, dist !! x = Some d -> d = d_inf \/ reached src prev x;
}.

Definition safe_state {D} `{Double D} (adj : list (list (nat * D))) (src : nat)
    (s : DState) : Prop :=
  safe adj src (ds_dist s) (ds_prev s) (ds_pq s).

(** The nodes that [walk_prev] returns follow [prev] from [at_] to the
    sentinel. *)
Fixpoint chain (prev : list Z) (at_ : Z) (p : list nat) : Prop :=
  match p with
  | [] => at_ = (-1)%Z
  | x :: rest =>
      at_ = Z.of_nat x /\ exists next, prev !! x = Some next /\ chain prev next rest
  end.

(** The edge does not offer a shorter way to [v]. *)
Definition settled_edge {D} `{Double D} (dist : list D) (u v : nat) (w : D) : Prop :=
  forall du dv, dist !! u = Some du -> dist !! v = Some dv -> dle dv (d_add du w).

(** The number of edges that leave the nodes of [nodes] outside [S]. *)
Definition pending_work {D} (adj : list (list (nat * D))) (S nodes : list nat) : nat :=
  sum_list_with (fun x => if decide (x ∈ S) then 0
                          else length (default [] (adj !! x))) nodes.

(** The loop invariant on an arithmetic with [DoubleLaws].  [S] lists the
    nodes whose edges have been relaxed, the latest first; [todo] are the
    edges of the latest one still to be looked at. *)
Record inv {D} `{Double D} (adj : list (list (nat * D))) (src numNodes : nat)
    (S : list nat) (todo : list (nat * D))
    (dist : list D) (prev : list Z) (pq : list (D * nat)) : Prop := {
  inv_len_dist : length dist = numNodes;
  inv_len_prev : length prev = numNodes;
  inv_src : dist !! src = Some d_zero /\ prev !! src = Some (-1)%Z;
  inv_nonneg : forall x d, dist !! x = Some d -> dle d_zero d;
  inv_walk : forall x d, dist !! x = Some d -> d = d_inf \/ walk adj src x d;
  inv_node : forall x d z, dist !! x = Some d -> prev !! x = Some z ->
    (d = d_inf /\ z = (-1)%Z) \/ x = src \/
    (dlt d d_inf /\ exists u w du,
       z = to_int u /\ u ∈ S /\ adj_edge adj u x w /\
       dist !! u = Some du /\ d = d_add du w);
  inv_nodup : NoDup S;
  inv_range : forall x, x ∈ S -> x < numNodes;
  inv_pq : forall d x, (d, x) ∈ pq ->
    exists dx, dist !! x = Some dx /\ dle dx d /\ dlt dx d_inf;
  inv_top : forall u S', S = u :: S' ->
    exists du, dist !! u = Some du /\
      (forall s ds, s ∈ S' -> dist !! s = Some ds -> dle ds du) /\
      (forall d x, (d, x) ∈ pq -> dle du d);
  inv_edges : forall s v w, s ∈ S -> adj_edge adj s v w ->
    (head S = Some s /\ (v, w) ∈ todo) \/ settled_edge dist s v w;
  inv_live : forall x dx, dist !! x = Some dx ->
    dx = d_inf \/ x ∈ S \/ exists d, (d, x) ∈ pq /\ dle d dx;
  inv_order : forall S1 x S2, S = S1 ++ x :: S2 ->
    x = src \/ exists u, u ∈ S2 /\ prev !! x = Some (to_int u);
}.

(** ** Route installation and demands *)

(** The consecutive pairs of a path. *)
Definition hops (path : list nat) : list (nat * nat) := zip path (drop 1 path).

(** The route that the installer adds for a hop, if the lookup succeeds. *)
Definition hop_route (ifs : Interfaces) (destAddr : Ipv4Address) (h : nat * nat)
  : option HostRoute :=
  match g_linkInterface ifs !! h with
  | Some (ifIndex, nextHopAddr) => Some (mkHostRoute h.1 destAddr nextHopAddr ifIndex)
  | None => None
  end.

(** The demand meets one of the two [continue] statements of the demand
    loop: its destination has no address, or its path has fewer than two
    nodes. *)
Definition demand_skipped {D} `{Double D} (fuel : nat) (topo : Topology D)
    (ifs : Interfaces) (demand : TrafficDemand D) : Prop :=
  g_nodeFirstIp ifs !! dm_dstId demand = None \/
  exists dijkstra path,
    Dijkstra fuel (g_adjList topo) (dm_srcId demand) (g_numNodes topo) = Some dijkstra /\
    GetPath (dm_srcId demand) (dm_dstId demand) dijkstra = Some path /\
    length path < 2.

(** ** Text *)

(** Every character of [s] is one of the four that [Trim] removes. *)
Definition all_space (s : string) : Prop :=
  Forall (fun c => is_space c = true) (list_ascii_of_string s).

(** [s] neither starts nor ends with a character that [Trim] removes. *)
Definition no_outer_space (s : string) : Prop :=
  forall c, head (list_ascii_of_string s) = Some c \/ last (list_ascii_of_string s) = Some c ->
    is_space c = false.

(** [s] has no dot. *)
Definition no_dot (s : string) : Prop :=
  Forall (fun c => c <> "."%char) (list_ascii_of_string s).

(** ** Links, names and addresses *)

(** An endpoint of a link. *)
Definition link_end {D} (l : LinkParam D) (x : nat) : Prop :=
  x = srcId l \/ x = dstId l.

(** The name that a link row gives to its endpoint [x]: the destination
    name is stored after the source name, so it is the one kept when the
    two ids are the same. *)
Definition link_name {D} (l : LinkParam D) (x : nat) : string :=
  if decide (x = dstId l) then dstName l else srcName l.

(** The links with their numbers, from [i] on. *)
Definition numbered {D} (i : nat) (links : list (LinkParam D)) : list (nat * LinkParam D) :=
  zip (seq i (length links)) links.

(** The entry that a link leaves in [g_linkInterface] for the pair
    [(x, y)]: the reverse direction is stored last. *)
Definition link_interface_entry {D} (b : LinkBinding) (l : LinkParam D) (x y : nat)
  : nat * Ipv4Address :=
  if decide (x = dstId l /\ y = srcId l) then (dstIfIndex b, address0 b)
  else (srcIfIndex b, address1 b).

(** The address of a link on its endpoint [x]: the source end is looked
    at first. *)
Definition link_address {D} (b : LinkBinding) (l : LinkParam D) (x : nat) : Ipv4Address :=
  if decide (x = srcId l) then address0 b else address1 b.

(** The engine hands out no address twice among the first [n] links. *)
Definition distinct_addresses (bind_link : nat -> LinkBinding) (n : nat) : Prop :=
  (forall i, i < n -> address0 (bind_link i) <> address1 (bind_link i)) /\
  (forall i j, i < n -> j < n -> i <> j ->
     address0 (bind_link i) <> address0 (bind_link j) /\
     address0 (bind_link i) <> address1 (bind_link j) /\
     address1 (bind_link i) <> address1 (bind_link j)).

(** The number of events equal to [e]. *)
Definition count_events (e : TraceEvent) (events : list TraceEvent) : nat :=
  length (filter (fun e' => e' = e) events).

(** ** Flows *)

(** The row, the receiver and the sender that the demand loop creates for
    a demand whose path is [path] and whose destination has the address
    [destAddr], when [port] has the value [p]. *)
Definition flow_row {D} (names : gmap nat string) (demand : TrafficDemand D)
    (path : list nat) : RouteRow :=
  mkRouteRow (wrap32 (demandId demand + 1)) (srcNode demand) (dstNode demand)
             (length path - 1) (path_string names path).

Definition flow_sink {D} `{Double D} (simTime : D) (demand : TrafficDemand D) (p : Z)
  : SinkApp D :=
  mkSinkApp (dm_dstId demand) p d_zero simTime.

Definition flow_client {D} `{Double D} (demand : TrafficDemand D)
    (destAddr : Ipv4Address) (p : Z) : OnOffApp D :=
  mkOnOffApp (dm_srcId demand) destAddr p (dataRateMbps demand) (startTimeSec demand)
             (d_add (startTimeSec demand) (durationSec demand)).

(** What holds of the state of the demand loop after the demands
    [demands]: one row, one receiver and one sender for each flow, in the
    order of the demands, flow number [k] on port 9000 + k. *)
Record flows_ok {D} `{Double D} (fuel : nat) (simTime : D) (topo : Topology D)
    (ifs : Interfaces) (demands : list (TrafficDemand D)) (st : Sim D) : Prop := {
  flows_sinks : length (sinkApps st) = length (routeFile st);
  flows_clients : length (clientApps st) = length (routeFile st);
  flows_port : port st = wrap16 (9000 + Z.of_nat (length (routeFile st)));
  flows_order : exists flows, sublist flows demands /\
    map rr_flowId (routeFile st) = map (fun d => wrap32 (demandId d + 1)) flows /\
    map sink_node (sinkApps st) = map dm_dstId flows /\
    map onoff_node (clientApps st) = map dm_srcId flows;
  flows_entry : forall k row, routeFile st !! k = Some row ->
    exists demand destAddr dijkstra path,
      demand ∈ demands /\
      g_nodeFirstIp ifs !! dm_dstId demand = Some destAddr /\
      Dijkstra fuel (g_adjList topo) (dm_srcId demand) (g_numNodes topo) = Some dijkstra /\
      GetPath (dm_srcId demand) (dm_dstId demand) dijkstra = Some path /\
      2 <= length path /\
      row = flow_row (g_nodeIdToName topo) demand path /\
      sinkApps st !! k = Some (flow_sink simTime demand (wrap16 (9000 + Z.of_nat k))) /\
      clientApps st !! k =
        Some (flow_client demand destAddr (wrap16 (9000 + Z.of_nat k)));
}.

(** ** The queue monitor *)

(** The row of the queue monitor for one direction of a link. *)
Definition monitor_row {D} (GetNPackets : nat -> option Z) (now : D)
    (src dst : string) (device : option nat) : list (MonitorRow D) :=
  match device with
  | None => []
  | Some d => [mkMonitorRow now src dst (default 0%Z (GetNPackets d))]
  end.

(** ** The end of the main loop *)

(** The measure of the main loop for an arithmetic whose values have a
    rank that [<] respects: twice the ranks of the distances plus the
    length of the queue. *)
Definition loop_measure {D} (rank : D -> nat) (s : DState (D := D)) : nat :=
  2 * sum_list_with rank (ds_dist s) + length (ds_pq s).

(** The vectors have [numNodes] entries and the queue holds nodes. *)
Definition state_wf {D} (numNodes : nat) (s : DState (D := D)) : Prop :=
  length (ds_dist s) = numNodes /\ length (ds_prev s) = numNodes /\
  forall d x, (d, x) ∈ ds_pq s -> x < numNodes.

(** A place for a binary64 number on a line of integers, in the order of
    [<]: the finite numbers by sign, exponent and mantissa, between the
    two infinities. *)
Definition sf_key (x : spec_float) : Z :=
  match x with
  | S754_zero _ => 0
  | S754_nan => 0
  | S754_infinity false => 2 ^ 80
  | S754_infinity true => - 2 ^ 80
  | S754_finite false m e => (e + 2000) * 2 ^ 53 + Z.pos m
  | S754_finite true m e => - ((e + 2000) * 2 ^ 53 + Z.pos m)
  end.

Definition float_rank (x : float) : nat :=
  Z.to_nat (sf_key (Prim2SF x) + 2 ^ 80).

(** ** Inputs used as examples *)

(** A link whose delay field reads [nan]. *)
Definition nan_link : LinkParam float :=
  mkLinkParam 0 1 "A" "B" PrimFloat.nan 1000000%Z PrimFloat.zero PrimFloat.zero.

(** The conversions of the row [0,1,A,B,nan,1000000]: [std::stod] reads
    [nan] as a NaN. *)
Definition nan_parse_link (line : string) : option (LinkParam float) :=
  if String.eqb line "0,1,A,B,nan,1000000" then Some nan_link else None.

(** A flow of two packets received, with delays of 2 ms and 3 ms. *)
Definition flow_5ms_2rx : FlowStats :=
  mkFlowStats 2 2 2048 0%float 1%float 5 3.

(** A line of four nodes A-B-C-D and a separate pair E-F, every link with
    a delay of 2 ms; the file also has a blank line and a row that does
    not parse. *)
Definition sample_link {D} `{Double D} (a b : nat) (na nb : string) : LinkParam D :=
  mkLinkParam a b na nb (d_add d_one d_one) 1000000%Z d_zero d_zero.

Definition sample_parse_link {D} `{Double D} (line : string) : option (LinkParam D) :=
  if String.eqb line "0,1,A,B,2,1000000" then Some (sample_link 0 1 "A" "B")
  else if String.eqb line "1,2,B,C,2,1000000" then Some (sample_link 1 2 "B" "C")
  else if String.eqb line "2,3,C,D,2,1000000" then Some (sample_link 2 3 "C" "D")
  else if String.eqb line "4,5,E,F,2,1000000" then Some (sample_link 4 5 "E" "F")
  else None.

Definition sample_link_file : option (list string) :=
  Some ["SrcId,DstId,SrcName,DstName,DelayMs,DataRateBps";
        "0,1,A,B,2,1000000"; "  "; "1,2,B,C,2,1000000"; "2,3,C,,";
        "2,3,C,D,2,1000000"; "4,5,E,F,2,1000000"].

(** The rows of the sample link file in another order. *)
Definition sample_link_file_reordered : option (list string) :=
  Some ["SrcId,DstId,SrcName,DstName,DelayMs,DataRateBps";
        "4,5,E,F,2,1000000"; "2,3,C,D,2,1000000"; "0,1,A,B,2,1000000";
        "1,2,B,C,2,1000000"].

(** Demands from A to D, from A to itself, from A to the unreachable E and
    from A to a node that no link mentions. *)
Definition sample_demand {D} `{Double D} (id : Z) (ns nd : string) (s d : nat)
  : TrafficDemand D :=
  mkTrafficDemand id ns nd s d d_one d_zero d_one.

Definition sample_parse_demand {D} `{Double D} (line : string)
  : option (TrafficDemand D) :=
  if String.eqb line "0,A,D,0,3,1,0,1" then Some (sample_demand 0 "A" "D" 0 3)
  else if String.eqb line "1,A,A,0,0,1,0,1" then Some (sample_demand 1 "A" "A" 0 0)
  else if String.eqb line "2,A,E,0,4,1,0,1" then Some (sample_demand 2 "A" "E" 0 4)
  else if String.eqb line "3,A,Z,0,9,1,0,1" then Some (sample_demand 3 "A" "Z" 0 9)
  else None.

Definition sample_demand_file : option (list string) :=
  Some ["DemandId,SrcNode,DstNode,SrcId,DstId,RateMbps,Start,Duration";
        "3,A,Z,0,9,1,0,1"; "1,A,A,0,0,1,0,1"; "0,A,D,0,3,1,0,1"; "2,A,E,0,4,1,0,1"].

(** Link [i] gets the subnet 10.0.[i].0/30, and each node numbers its
    interfaces from 1 in the order of the links. *)
Definition sample_bind_link (i : nat) : LinkBinding :=
  mkLinkBinding (if i =? 0 then 1 else if i =? 3 then 1 else 2) 1
                (167772160 + 256 * Z.of_nat i + 1)%Z
                (167772160 + 256 * Z.of_nat i + 2)%Z.

Definition sample_topology {D} `{Double D} : Topology D :=
  match LoadLinks sample_parse_link sample_link_file empty_topology with
  | Some (_, topo) => topo
  | None => empty_topology
  end.

Definition sample_interfaces {D} `{Double D} : Interfaces :=
  setup_links sample_bind_link 0 (g_links (sample_topology (D := D))) no_interfaces.

(* ===================================================================== *)
(** * Part III: proofs                                                    *)
(* ===================================================================== *)

(** ** Exact arithmetic satisfies the laws *)
Lemma xrat_ltb_true (p q : Q) : xrat_ltb (Fin p) (Fin q) = true <-> (p < q)%Q.
Proof.
  simpl. rewrite negb_true_iff, <- not_true_iff_false, Qle_bool_iff.
  split; [apply Qnot_le_lt | apply Qlt_not_le].
Qed.

Lemma xrat_ltb_false (p q : Q) : xrat_ltb (Fin p) (Fin q) = false <-> (q <= p)%Q.
Proof.
  simpl. rewrite negb_false_iff. apply Qle_bool_iff.
Qed.

Lemma xrat_laws : DoubleLaws xrat.
Proof.
  split; cbn [d_ltb d_leb d_eqb d_add d_zero d_one d_inf xrat_double].
  - intros [p|]; [|done]. apply xrat_ltb_false. lra.
  - intros [a|] [b|] [c|]; try done.
    rewrite !xrat_ltb_true. lra.
  - intros [a|] [b|] [c|]; try done.
    rewrite !xrat_ltb_false. lra.
  - done.
  - done.
  - intros [a|] [b|] [w|]; try done.
    cbn [xrat_add]. rewrite !xrat_ltb_false. lra.
  - intros [a|] [w|]; try done.
    cbn [xrat_add]. rewrite xrat_ltb_true, xrat_ltb_false. lra.
  - intros [a|]; done.
  - done.
  - done.
Qed.

#[export] Existing Instance xrat_laws.

(** ** Machine integers *)

Lemma to_int_small (u : nat) :
  (Z.of_nat u < 2 ^ 31)%Z -> to_int u = Z.of_nat u.
Proof.
  intros Hu. unfold to_int, wrap32. rewrite Z.mod_small by lia.
  destruct (Z.ltb_spec (Z.of_nat u) (2 ^ 31)); lia.
Qed.

Lemma to_int_nonneg (u : nat) :
  (Z.of_nat u < 2 ^ 32)%Z -> (0 <= to_int u)%Z -> to_int u = Z.of_nat u.
Proof.
  intros Hu. unfold to_int, wrap32. rewrite Z.mod_small by lia.
  destruct (Z.ltb_spec (Z.of_nat u) (2 ^ 31)); lia.
Qed.

Lemma to_int_not_sentinel (u : nat) :
  (Z.of_nat u < 2 ^ 32 - 1)%Z -> to_int u <> (-1)%Z.
Proof.
  intros Hu. unfold to_int, wrap32. rewrite Z.mod_small by lia.
  destruct (Z.ltb_spec (Z.of_nat u) (2 ^ 31)); lia.
Qed.

(** ** The priority queue *)

Section Queue.
Context {D : Type} `{Double D}.

Lemma pq_pop_min_None (pq : list (D * nat)) : pq_pop_min pq = None -> pq = [].
Proof.
  destruct pq as [|x pq]; [done|]. cbn.
  destruct (pq_pop_min pq) as [[m rest]|]; [|done]. by destruct (pair_ltb m x).
Qed.

Lemma pq_pop_min_perm (pq : list (D * nat)) (m : D * nat) (rest : list (D * nat)) :
  pq_pop_min pq = Some (m, rest) -> pq ≡ₚ m :: rest.
Proof.
  revert m rest. induction pq as [|x pq IH]; intros m rest; [done|].
  cbn [pq_pop_min]. destruct (pq_pop_min pq) as [[m' rest']|] eqn:E.
  - destruct (pair_ltb m' x); intros [= <- <-].
    + rewrite (IH _ _ eq_refl). apply Permutation_swap.
    + done.
  - intros [= <- <-]. by rewrite (pq_pop_min_None _ E).
Qed.

Lemma pq_pop_min_length (pq : list (D * nat)) (m : D * nat) (rest : list (D * nat)) :
  pq_pop_min pq = Some (m, rest) -> length pq = S (length rest).
Proof. intros E. by rewrite (pq_pop_min_perm _ _ _ E). Qed.

End Queue.

(** ** The order of an arithmetic with [DoubleLaws] *)

Section Order.
Context {D : Type} `{DoubleLaws D}.

Lemma dle_refl (a : D) : dle a a.
Proof. apply d_lt_irrefl. Qed.

Lemma dle_trans (a b c : D) : dle a b -> dle b c -> dle a c.
Proof. unfold dle. intros Hab Hbc. by apply (d_nlt_trans a b c). Qed.

Lemma dlt_dle (a b : D) : dlt a b -> dle a b.
Proof.
  unfold dlt, dle. intros Hab. destruct (d_ltb b a) eqn:Hba; [|done].
  pose proof (d_lt_trans _ _ _ Hab Hba) as Haa. by rewrite d_lt_irrefl in Haa.
Qed.

Lemma dlt_dle_trans (a b c : D) : dlt a b -> dle b c -> dlt a c.
Proof.
  unfold dlt. intros Hab Hbc. destruct (d_ltb a c) eqn:Hac; [done|].
  pose proof (dle_trans b c a Hbc Hac) as Hba. unfold dle in Hba. congruence.
Qed.

Lemma dle_dlt_trans (a b c : D) : dle a b -> dlt b c -> dlt a c.
Proof.
  unfold dlt. intros Hab Hbc. destruct (d_ltb a c) eqn:Hac; [done|].
  pose proof (dle_trans c a b Hac Hab) as Hcb. unfold dle in Hcb. congruence.
Qed.

Lemma dlt_not_dle (a b : D) : dlt a b -> dle b a -> False.
Proof. unfold dlt, dle. congruence. Qed.

Lemma dle_inf (a : D) : dle a d_inf.
Proof. apply d_inf_top. Qed.

Lemma dle_add (a w : D) : dlt d_zero w -> dle a (d_add a w).
Proof. apply d_add_incr. Qed.

Lemma dle_add_mono (a b w : D) : dle a b -> dle (d_add a w) (d_add b w).
Proof. apply d_add_mono. Qed.

Lemma dlt_ne (a b : D) : dlt a b -> a <> b.
Proof. unfold dlt. intros Hab ->. by rewrite d_lt_irrefl in Hab. Qed.

Lemma d_eqb_inf (a : D) : d_eqb a d_inf = negb (d_ltb a d_inf).
Proof. rewrite d_eqb_ltb, d_inf_top. by rewrite andb_true_r. Qed.

Lemma d_eqb_inf_refl : d_eqb (d_inf : D) d_inf = true.
Proof. by rewrite d_eqb_inf, d_lt_irrefl. Qed.

(** The element that [pq_pop_min] takes out has the least key. *)
Lemma pq_pop_min_least (pq : list (D * nat)) (m : D * nat) (rest : list (D * nat)) :
  pq_pop_min pq = Some (m, rest) -> forall e, e ∈ rest -> dle m.1 e.1.
Proof.
  revert m rest. induction pq as [|x pq IH]; intros m rest; [done|].
  cbn [pq_pop_min]. destruct (pq_pop_min pq) as [[m' rest']|] eqn:E.
  - specialize (IH _ _ eq_refl). unfold pair_ltb.
    destruct (d_ltb m'.1 x.1) eqn:E1; cbn [orb].
    + intros [= <- <-] e He. apply elem_of_cons in He as [->|He]; [|by apply IH].
      by apply dlt_dle.
    + destruct (d_ltb x.1 m'.1) eqn:E2; cbn [negb andb].
      * intros [= <- <-] e He. rewrite (pq_pop_min_perm _ _ _ E) in He.
        apply elem_of_cons in He as [->|He]; [by apply dlt_dle|].
        apply dle_trans with m'.1; [by apply dlt_dle|by apply IH].
      * destruct (m'.2 <? x.2).
        -- intros [= <- <-] e He. apply elem_of_cons in He as [->|He]; [done|by apply IH].
        -- intros [= <- <-] e He. rewrite (pq_pop_min_perm _ _ _ E) in He.
           apply elem_of_cons in He as [->|He]; [done|].
           apply dle_trans with m'.1; [done|by apply IH].
  - intros [= <- <-] e He. by apply elem_of_nil in He.
Qed.

End Order.

(** ** Stored delay and rate *)

Section CoerceLaws.
Context {D : Type} `{DoubleLaws D}.

Lemma coerce_link_delay_pos (p : LinkParam D) :
  d_ltb d_zero (delayMs (coerce_link p)) = true.
Proof.
  unfold coerce_link; cbn [delayMs].
  destruct (d_leb (delayMs p) d_zero) eqn:E.
  - apply d_zero_lt_one.
  - rewrite d_leb_ltb in E. by apply negb_false_iff in E.
Qed.
End CoerceLaws.

Lemma coerce_link_rate_floor {D} `{Double D} (p : LinkParam D) :
  (1000 <= dataRateBps (coerce_link p))%Z /\
  ((dataRateBps p < 1000)%Z -> dataRateBps (coerce_link p) = 1000000%Z) /\
  ((1000 <= dataRateBps p)%Z -> dataRateBps (coerce_link p) = dataRateBps p).
Proof.
  unfold coerce_link; cbn [dataRateBps].
  destruct (Z.ltb_spec (dataRateBps p) 1000); repeat split; lia.
Qed.

Lemma coerce_link_delay_nonpos {D} `{Double D} (p : LinkParam D) :
  d_leb (delayMs p) d_zero = true -> delayMs (coerce_link p) = d_one.
Proof. unfold coerce_link; cbn [delayMs]. by intros ->. Qed.

(** On binary64 the test [delayMs <= 0] lets exactly the positive numbers
    and NaN through. *)
Lemma float_coerce_delay (p : LinkParam float) :
  PrimFloat.is_nan (delayMs p) = false ->
  PrimFloat.ltb PrimFloat.zero (delayMs (coerce_link p)) = true.
Proof.
  unfold coerce_link, PrimFloat.is_nan. cbn [delayMs d_leb d_zero d_one float_double].
  destruct (PrimFloat.leb (delayMs p) PrimFloat.zero) eqn:E; [done|].
  revert E. rewrite FloatAxioms.leb_spec, FloatAxioms.ltb_spec, FloatAxioms.eqb_spec.
  change (Prim2SF PrimFloat.zero) with (S754_zero false).
  destruct (Prim2SF (delayMs p)) as [s|s| |s m e]; try destruct s; cbn; try congruence.
  all: rewrite ?Pos.compare_refl, ?Z.compare_refl; cbn; congruence.
Qed.

(** On binary64, a row whose delay is not a NaN is stored with a delay
    greater than 0 and a rate of at least 1000: a delay that is not
    positive becomes 1.0 and a rate below 1000 becomes 1000000. *)
Theorem stored_delay_positive_binary64 (p : LinkParam float) :
  PrimFloat.is_nan (delayMs p) = false ->
  PrimFloat.ltb PrimFloat.zero (delayMs (coerce_link p)) = true /\
  (1000 <= dataRateBps (coerce_link p))%Z /\
  (PrimFloat.leb (delayMs p) PrimFloat.zero = true -> delayMs (coerce_link p) = 1%float) /\
  ((dataRateBps p < 1000)%Z -> dataRateBps (coerce_link p) = 1000000%Z).
Proof.
  intros Hnan. split; [by apply float_coerce_delay|].
  destruct (coerce_link_rate_floor p) as (? & ? & _).
  split; [done|]. split; [exact (coerce_link_delay_nonpos p)|done].
Qed.

Lemma stored_delay_positive_binary64_witness :
  delayMs (coerce_link (mkLinkParam 0 1 "A" "B" (-5)%float 500%Z 0%float 0%float))
    = 1%float /\
  dataRateBps (coerce_link (mkLinkParam 0 1 "A" "B" (-5)%float 500%Z 0%float 0%float))
    = 1000000%Z.
Proof.
  destruct (stored_delay_positive_binary64
              (mkLinkParam 0 1 "A" "B" (-5)%float 500%Z 0%float 0%float))
    as (_ & _ & Hd & Hr).
  - reflexivity.
  - split; [apply Hd; reflexivity | apply Hr; cbn; lia].
Defined.

Lemma coerce_link_nan :
  delayMs (coerce_link nan_link) = PrimFloat.nan /\
  d_ltb d_zero (delayMs (coerce_link nan_link)) = false.
Proof. split; reflexivity. Qed.

(** C5, the program at the failing input.  A row whose delay field reads
    [nan] is accepted, and the link is stored with a delay that is a NaN:
    the test [delayMs <= 0] is false for it, and it is not greater than 0
    either.  The NaN is also the weight of the two edges. *)
Lemma LoadLinks_stores_nan :
  exists ok topo,
    LoadLinks nan_parse_link (Some ["header"; "0,1,A,B,nan,1000000"]) empty_topology
      = Some (ok, topo) /\
    g_links topo = [nan_link] /\
    d_ltb d_zero (delayMs nan_link) = false /\
    g_adjList topo = [[(1, PrimFloat.nan)]; [(0, PrimFloat.nan)]].
Proof. eexists _, _. split; [vm_compute; reflexivity|]. repeat split. Qed.

(** The two examples of the specification. *)
Lemma coerce_examples (a b : nat) (sa sb : string) (r : Z) (d l k : float) :
  delayMs (coerce_link (mkLinkParam a b sa sb (-5)%float r l k)) = 1%float /\
  dataRateBps (coerce_link (mkLinkParam a b sa sb d 500%Z l k)) = 1000000%Z.
Proof. split; reflexivity. Qed.

(** ** Loading *)

Section LoaderFacts.
Context {D : Type} `{Double D}.
Variable parse_link : string -> option (LinkParam D).
Variable parse_demand : string -> option (TrafficDemand D).

Lemma load_link_row_skip (t : Topology D) (line : string) :
  parse_link line = None -> load_link_row parse_link t line = t.
Proof. intros E. unfold load_link_row. rewrite E. by destruct (blank_line line). Qed.

Lemma load_demand_row_skip (ds : list (TrafficDemand D)) (line : string) :
  parse_demand line = None -> load_demand_row parse_demand ds line = ds.
Proof. intros E. unfold load_demand_row. rewrite E. by destruct (blank_line line). Qed.

Lemma load_link_rows_links (rows : list string) (t : Topology D) :
  g_links (foldl (load_link_row parse_link) t rows) =
  g_links t ++
  map coerce_link
      (omap (fun line => if blank_line line then None else parse_link line) rows).
Proof.
  revert t. induction rows as [|line rows IH]; intros t.
  - cbn. by rewrite app_nil_r.
  - cbn [foldl]. rewrite IH. unfold load_link_row.
    change (omap ?f (line :: rows)) with
      (match f line with Some y => y :: omap f rows | None => omap f rows end).
    cbv beta. destruct (blank_line line); [done|].
    destruct (parse_link line) as [p|]; [|done].
    cbn [store_link g_links map]. by rewrite <- app_assoc.
Qed.

Lemma load_demand_rows (rows : list string) (ds : list (TrafficDemand D)) :
  foldl (load_demand_row parse_demand) ds rows =
  ds ++ omap (fun line => if blank_line line then None else parse_demand line) rows.
Proof.
  revert ds. induction rows as [|line rows IH]; intros ds.
  - cbn. by rewrite app_nil_r.
  - cbn [foldl]. rewrite IH. unfold load_demand_row.
    change (omap ?f (line :: rows)) with
      (match f line with Some y => y :: omap f rows | None => omap f rows end).
    cbv beta. destruct (blank_line line); [done|].
    destruct (parse_demand line) as [p|]; [|done].
    by rewrite <- app_assoc.
Qed.

Lemma LoadLinks_links (file : option (list string)) (ok : bool) (topo : Topology D) :
  LoadLinks parse_link file empty_topology = Some (ok, topo) ->
  g_links topo = map coerce_link (accepted_rows parse_link file) /\
  ok = negb (bool_decide (accepted_rows parse_link file = [])).
Proof.
  destruct file as [lines|]; cbn [LoadLinks accepted_rows].
  - intros E. apply bind_Some in E as (adj & _ & E). injection E as <- <-.
    cbn [g_links]. rewrite load_link_rows_links. cbn [g_links empty_topology app].
    split; [done|]. f_equal. apply bool_decide_ext.
    split; [apply fmap_nil_inv | by intros ->].
  - intros [= <- <-]. done.
Qed.

Lemma LoadDemands_demands (file : option (list string)) :
  LoadDemands parse_demand file [] =
    (negb (bool_decide (accepted_rows parse_demand file = [])),
     accepted_rows parse_demand file).
Proof.
  destruct file as [lines|]; cbn [LoadDemands accepted_rows]; [|done].
  by rewrite load_demand_rows.
Qed.

Lemma LoadLinks_skip_row (header bad : string) (rows1 rows2 : list string)
    (t : Topology D) :
  parse_link bad = None ->
  LoadLinks parse_link (Some (header :: rows1 ++ bad :: rows2)) t =
  LoadLinks parse_link (Some (header :: rows1 ++ rows2)) t.
Proof.
  intros E. cbn [LoadLinks drop]. rewrite !drop_0, !foldl_app. cbn [foldl].
  by rewrite (load_link_row_skip _ bad E).
Qed.

Lemma LoadDemands_skip_row (header bad : string) (rows1 rows2 : list string)
    (ds : list (TrafficDemand D)) :
  parse_demand bad = None ->
  LoadDemands parse_demand (Some (header :: rows1 ++ bad :: rows2)) ds =
  LoadDemands parse_demand (Some (header :: rows1 ++ rows2)) ds.
Proof.
  intros E. cbn [LoadDemands drop]. rewrite !drop_0, !foldl_app. cbn [foldl].
  by rewrite (load_demand_row_skip _ bad E).
Qed.

End LoaderFacts.

Section MainLoad.
Context {D : Type} `{Double D}.
Variable parse_link : string -> option (LinkParam D).
Variable parse_demand : string -> option (TrafficDemand D).
Variable bind_link : nat -> LinkBinding.
Variable fuel : nat.
Variable simTime : D.


End MainLoad.



(** ** The loaded topology *)

Section TopologyFacts.
Context {D : Type} `{Double D}.

Lemma add_edge_spec (adj adj' : list (list (nat * D))) (u v : nat) (w : D) :
  add_edge adj u v w = Some adj' ->
  length adj' = length adj /\ u < length adj /\
  forall a b c, adj_edge adj' a b c <-> adj_edge adj a b c \/ (a = u /\ b = v /\ c = w).
Proof.
  unfold add_edge. intros E. apply bind_Some in E as (es & Ees & E). injection E as <-.
  pose proof (lookup_lt_Some _ _ _ Ees) as Hu.
  split; [by rewrite length_insert|]. split; [done|].
  intros a b c. unfold adj_edge. destruct (decide (u = a)) as [<-|Hne].
  - rewrite list_lookup_insert_eq by done. split.
    + intros (es' & [= <-] & Hin). apply elem_of_app in Hin as [Hin|Hin].
      * left. by exists es.
      * apply list_elem_of_singleton in Hin as [= -> ->]. by right.
    + intros [(es' & Hes' & Hin)|(_ & -> & ->)].
      * exists (es ++ [(v, w)]). split; [done|]. apply elem_of_app. left. congruence.
      * exists (es ++ [(v, w)]). split; [done|]. apply elem_of_app. right. by left.
  - rewrite list_lookup_insert_ne by done. split; [by left|].
    intros [?|(-> & _)]; done.
Qed.

Lemma build_adj_spec (links : list (LinkParam D)) (adj adj' : list (list (nat * D))) :
  build_adj links adj = Some adj' ->
  length adj' = length adj /\
  (forall l, l ∈ links -> srcId l < length adj /\ dstId l < length adj) /\
  forall a b c, adj_edge adj' a b c <->
    adj_edge adj a b c \/ exists l, l ∈ links /\ link_joins l a b /\ c = delayMs l.
Proof.
  revert adj. induction links as [|l links IH]; intros adj.
  - intros [= <-]. split; [done|]. split; [by intros l Hl; apply elem_of_nil in Hl|].
    intros a b c. split; [by left|]. intros [?|(l & Hl & _)]; [done|].
    by apply elem_of_nil in Hl.
  - cbn [build_adj]. intros E. apply bind_Some in E as (adj1 & E1 & E).
    apply bind_Some in E as (adj2 & E2 & E).
    apply add_edge_spec in E1 as (Hl1 & Hu1 & He1).
    apply add_edge_spec in E2 as (Hl2 & Hu2 & He2).
    apply IH in E as (Hl3 & Hin3 & He3).
    split; [congruence|]. split.
    + intros l' Hl'. apply elem_of_cons in Hl' as [->|Hl'].
      * split; lia.
      * destruct (Hin3 _ Hl'). split; lia.
    + intros a b c. rewrite He3, He2, He1. unfold link_joins. split.
      * intros [[[?|(-> & -> & ->)]|(-> & -> & ->)]|(l' & Hl' & ? & ?)].
        -- by left.
        -- right. exists l. split; [by left|]. split; [by left|done].
        -- right. exists l. split; [by left|]. split; [by right|done].
        -- right. exists l'. split; [by right|done].
      * intros [?|(l' & Hl' & Hj & ->)]; [by left; left; left|].
        apply elem_of_cons in Hl' as [->|Hl'].
        -- destruct Hj as [[-> ->]|[-> ->]]; [left; left; by right|left; by right].
        -- right. by exists l'.
Qed.

Lemma adj_edge_replicate (n a b : nat) (c : D) :
  ~ adj_edge (replicate n []) a b c.
Proof.
  intros (es & Hes & Hin). apply lookup_replicate in Hes as [-> _].
  by apply elem_of_nil in Hin.
Qed.

Variable parse_link : string -> option (LinkParam D).

Lemma load_link_rows_numNodes (rows : list string) (t : Topology D) :
  (Z.of_nat (g_numNodes t) < 2 ^ 32)%Z ->
  (Z.of_nat (g_numNodes (foldl (load_link_row parse_link) t rows)) < 2 ^ 32)%Z.
Proof.
  revert t. induction rows as [|line rows IH]; intros t Ht; [done|].
  cbn [foldl]. apply IH. unfold load_link_row.
  destruct (blank_line line); [done|]. destruct (parse_link line) as [p|]; [|done].
  cbn [store_link g_numNodes]. destruct (_ <? _); [|done].
  unfold wrap32. rewrite Z2Nat.id; [|apply Z.mod_pos_bound; lia].
  apply Z.mod_pos_bound. lia.
Qed.

Lemma load_link_rows_adj (rows : list string) (t : Topology D) :
  g_adjList (foldl (load_link_row parse_link) t rows) = g_adjList t.
Proof.
  revert t. induction rows as [|line rows IH]; intros t; [done|].
  cbn [foldl]. rewrite IH. unfold load_link_row.
  destruct (blank_line line); [done|]. by destruct (parse_link line).
Qed.

(** The graph that [LoadLinks] leaves in the globals: one adjacency list
    for each node, an edge in both directions for each link, weighted by
    its delay, and nothing else. *)
Lemma LoadLinks_topology (file : option (list string)) (ok : bool) (topo : Topology D) :
  LoadLinks parse_link file empty_topology = Some (ok, topo) ->
  (Z.of_nat (g_numNodes topo) < 2 ^ 32)%Z /\
  length (g_adjList topo) = g_numNodes topo /\
  (forall l, l ∈ g_links topo ->
     srcId l < g_numNodes topo /\ dstId l < g_numNodes topo) /\
  (forall a b c, adj_edge (g_adjList topo) a b c <->
     exists l, l ∈ g_links topo /\ link_joins l a b /\ c = delayMs l).
Proof.
  destruct file as [lines|]; cbn [LoadLinks].
  - intros E. apply bind_Some in E as (adj & Eadj & E). injection E as <- <-.
    cbn [g_numNodes g_adjList g_links].
    rewrite load_link_rows_adj in Eadj. cbn [g_adjList empty_topology] in Eadj.
    unfold resize in Eadj. rewrite take_nil, app_nil_l, Nat.sub_0_r in Eadj.
    apply build_adj_spec in Eadj as (Hl & Hin & He).
    rewrite length_replicate in Hl, Hin.
    split; [by apply load_link_rows_numNodes|]. split; [done|]. split; [done|].
    intros a b c. rewrite He. split; [|by right].
    intros [Hc|?]; [|done]. by apply adj_edge_replicate in Hc.
  - intros [= <- <-]. cbn. split; [lia|]. split; [done|]. split.
    + intros l Hl. by apply elem_of_nil in Hl.
    + intros a b c. split.
      * intros (es & Hes & _). done.
      * intros (l & Hl & _). by apply elem_of_nil in Hl.
Qed.

(** What [LoadLinks] leaves: the accepted rows with delay and rate
    coerced, the success flag, one adjacency list for each node, and an
    edge in both directions for each link and for nothing else. *)
Theorem LoadLinks_graph (file : option (list string)) (ok : bool)
    (topo : Topology D) :
  LoadLinks parse_link file empty_topology = Some (ok, topo) ->
  g_links topo = map coerce_link (accepted_rows parse_link file) /\
  ok = negb (bool_decide (g_links topo = [])) /\
  length (g_adjList topo) = g_numNodes topo /\
  (forall l, l ∈ g_links topo ->
     srcId l < g_numNodes topo /\ dstId l < g_numNodes topo) /\
  (forall a b c, adj_edge (g_adjList topo) a b c <->
     exists l, l ∈ g_links topo /\ link_joins l a b /\ c = delayMs l).
Proof.
  intros EL. destruct (LoadLinks_topology _ _ _ EL) as (_ & Hlen & Hr & He).
  destruct (LoadLinks_links _ _ _ _ EL) as [Hl ->].
  split; [done|]. split; [|done]. f_equal. apply bool_decide_ext. rewrite Hl.
  split; [by intros ->|apply fmap_nil_inv].
Qed.

End TopologyFacts.

Lemma LoadLinks_graph_witness :
  length (g_adjList (sample_topology (D := float))) = 6 /\
  map srcId (g_links (sample_topology (D := float))) = [0; 1; 2; 4].
Proof.
  destruct (LoadLinks_graph (D := float) sample_parse_link sample_link_file true sample_topology)
    as (Hl & _ & Hlen & _).
  - vm_compute. reflexivity.
  - split; [rewrite Hlen; reflexivity | rewrite Hl; reflexivity].
Defined.

(** ** [Dijkstra] and [GetPath] on any arithmetic *)

Section Safety.
Context {D : Type} `{Double D}.
Variable adj : list (list (nat * D)).
Variable src : nat.

Lemma reached_insert (prev : list Z) (v x : nat) (z : Z) :
  z <> (-1)%Z -> reached src prev x -> reached src (<[v := z]> prev) x.
Proof.
  intros Hz [->|(z' & Hx & Hz')]; [by left|].
  destruct (decide (v = x)) as [->|Hne].
  - right. exists z. split; [|done]. apply list_lookup_insert_eq.
    by apply lookup_lt_Some in Hx.
  - right. exists z'. by rewrite list_lookup_insert_ne.
Qed.

Lemma relax_edge_safe (u : nat) (e : nat * D) (s s' : DState) :
  safe_state adj src s -> reached src (ds_prev s) u ->
  (exists es, adj !! u = Some es /\ e ∈ es) ->
  relax_edge u e s = Some s' ->
  safe_state adj src s' /\ reached src (ds_prev s') u /\
  length (ds_dist s') = length (ds_dist s).
Proof.
  intros Hs Hu He. destruct e as [v w]. unfold relax_edge.
  intros E. apply bind_Some in E as (du & Edu & E).
  apply bind_Some in E as (dv & Edv & E).
  destruct (d_ltb (d_add du w) dv); [|by injection E as <-].
  apply bind_Some in E as (pv & Epv & E). injection E as <-.
  destruct Hs as [Hlen Hb Hprev Hpq Hdist].
  pose proof (lookup_lt_Some _ _ _ Edu) as Hu_lt.
  pose proof (lookup_lt_Some _ _ _ Edv) as Hv_lt.
  assert (to_int u <> (-1)%Z) as Hnu by (apply to_int_not_sentinel; lia).
  unfold safe_state. cbn [ds_dist ds_prev ds_pq].
  split; [|split; [by apply reached_insert | by rewrite length_insert]].
  split.
  - by rewrite !length_insert.
  - by rewrite length_insert.
  - intros v' z Hz. rewrite length_insert.
    destruct (decide (v = v')) as [<-|Hne].
    + rewrite list_lookup_insert_eq in Hz by lia. injection Hz as <-.
      right. exists u, w. repeat split; [done|done|].
      by apply reached_insert.
    + rewrite list_lookup_insert_ne in Hz by done.
      destruct (Hprev _ _ Hz) as [->|(u' & w' & -> & ? & ? & ?)]; [by left|].
      right. exists u', w'. repeat split; [done|done|]. by apply reached_insert.
  - intros d x Hx. apply elem_of_cons in Hx as [[= -> ->]|Hx].
    + right. exists (to_int u). split; [|done].
      apply list_lookup_insert_eq. lia.
    + apply reached_insert; [done|]. by eapply Hpq.
  - intros x d Hx. destruct (decide (v = x)) as [<-|Hne].
    + right. right. exists (to_int u). split; [|done].
      apply list_lookup_insert_eq. lia.
    + rewrite list_lookup_insert_ne in Hx by done.
      destruct (Hdist _ _ Hx) as [->|?]; [by left|].
      right. by apply reached_insert.
Qed.

Lemma relax_all_safe (u : nat) (es0 es : list (nat * D)) (s s' : DState) :
  adj !! u = Some es0 -> es ⊆ es0 ->
  safe_state adj src s -> reached src (ds_prev s) u ->
  relax_all u es s = Some s' ->
  safe_state adj src s' /\ length (ds_dist s') = length (ds_dist s).
Proof.
  intros Hes0. revert s. induction es as [|e es IH]; intros s Hsub Hs Hu.
  - by intros [= <-].
  - cbn [relax_all]. intros E. apply bind_Some in E as (s1 & E1 & E).
    destruct (relax_edge_safe u e s s1) as (Hs1 & Hu1 & Hl1); [done|done| |done|].
    { exists es0. split; [done|]. apply Hsub. by left. }
    destruct (IH s1) as [? ?]; [|done|done|done|].
    { intros x Hx. apply Hsub. by right. }
    split; [done|congruence].
Qed.

Lemma dijkstra_loop_safe (fuel : nat) (s s' : DState) :
  safe_state adj src s -> dijkstra_loop fuel adj s = Some s' ->
  safe_state adj src s' /\ length (ds_dist s') = length (ds_dist s).
Proof.
  revert s. induction fuel as [|fuel IH]; intros s Hs; [done|].
  cbn [dijkstra_loop].
  destruct (pq_pop_min (ds_pq s)) as [[[d u] pq']|] eqn:Epop; [|by intros [= <-]].
  intros E. apply bind_Some in E as (s1 & E1 & E).
  pose proof (pq_pop_min_perm _ _ _ Epop) as Hperm.
  assert (safe_state adj src (mkDState (ds_dist s) (ds_prev s) pq')) as Hs0.
  { destruct Hs as [? ? ? Hpq ?]. split; try done.
    intros d' x Hx. apply (Hpq d' x). rewrite Hperm. by right. }
  assert (reached src (ds_prev s) u) as Hu.
  { destruct Hs as [? ? ? Hpq ?]. apply (Hpq d u). rewrite Hperm. by left. }
  unfold dijkstra_body in E1. cbn [ds_dist] in E1.
  apply bind_Some in E1 as (du & Edu & E1).
  destruct (d_gtb d du).
  - injection E1 as <-. by apply IH in E.
  - apply bind_Some in E1 as (es & Ees & E1).
    destruct (relax_all_safe u es es _ s1 Ees (reflexivity _) Hs0 Hu E1) as [Hs1 Hl1].
    apply IH in E as [? ?]; [|done]. split; [done|]. cbn in Hl1. congruence.
Qed.

Lemma dijkstra_init_safe (numNodes : nat) (s : DState) :
  (Z.of_nat numNodes < 2 ^ 32)%Z ->
  dijkstra_init src numNodes = Some s ->
  safe_state adj src s /\ length (ds_dist s) = numNodes /\ src < numNodes.
Proof.
  intros Hn. unfold dijkstra_init. intros E.
  apply bind_Some in E as (d0 & Ex & E). injection E as <-.
  apply lookup_lt_Some in Ex. rewrite length_replicate in Ex.
  unfold safe_state. cbn [ds_dist ds_prev ds_pq].
  split; [|by rewrite length_insert, length_replicate].
  split.
  - by rewrite length_insert, !length_replicate.
  - by rewrite length_insert, length_replicate.
  - intros v z Hz. apply lookup_replicate in Hz as [-> _]. by left.
  - intros d x Hx. apply list_elem_of_singleton in Hx as [= -> ->]. by left.
  - intros y d Hy. destruct (decide (src = y)) as [<-|Hne]; [right; by left|].
    rewrite list_lookup_insert_ne in Hy by done.
    apply lookup_replicate in Hy as [-> _]. by left.
Qed.

(** The result of [Dijkstra], whenever it returns one. *)
Lemma Dijkstra_safe (fuel numNodes : nat) (r : DijkstraResult D) :
  (Z.of_nat numNodes < 2 ^ 32)%Z ->
  Dijkstra fuel adj src numNodes = Some r ->
  safe adj src (dist r) (prev r) [] /\ length (dist r) = numNodes /\ src < numNodes.
Proof.
  intros Hn. unfold Dijkstra. intros E.
  apply bind_Some in E as (s0 & E0 & E). apply bind_Some in E as (s & Es & E).
  injection E as <-. cbn [dist prev].
  destruct (dijkstra_init_safe _ _ Hn E0) as (Hs0 & Hl0 & Hsrc).
  destruct (dijkstra_loop_safe _ _ _ Hs0 Es) as [[? ? ? ? ?] Hl].
  split; [|split; [congruence|done]].
  split; try done. intros d x Hx. by apply elem_of_nil in Hx.
Qed.

Lemma walk_prev_chain (fuel : nat) (prev : list Z) (at_ : Z) (p : list nat) :
  walk_prev fuel prev at_ = Some p -> chain prev at_ p.
Proof.
  revert at_ p. induction fuel as [|fuel IH]; intros at_ p; cbn [walk_prev].
  - destruct (Z.eqb_spec at_ (-1)); [|done]. by intros [= <-].
  - destruct (Z.eqb_spec at_ (-1)); [by intros [= <-]|].
    intros E. apply bind_Some in E as (i & Ei & E).
    apply bind_Some in E as (next & En & E).
    apply bind_Some in E as (rest & Er & E). injection E as <-.
    unfold to_index in Ei. destruct (Z.ltb_spec at_ 0); [done|].
    injection Ei as <-. cbn [chain]. split; [lia|].
    exists next. split; [done|]. by apply IH.
Qed.

Lemma chain_last (prev : list Z) (at_ : Z) (p : list nat) (x : nat) :
  chain prev at_ p -> last p = Some x -> prev !! x = Some (-1)%Z.
Proof.
  revert at_. induction p as [|y p IH]; intros at_; [done|].
  cbn [chain]. intros (-> & next & Hn & Hc).
  destruct p as [|y' p].
  - cbn. intros [= <-]. cbn in Hc. by subst.
  - intros Hl. by apply (IH next).
Qed.

Lemma chain_step (prev : list Z) (at_ : Z) (p : list nat) (i x y : nat) :
  chain prev at_ p -> p !! i = Some x -> p !! S i = Some y ->
  prev !! x = Some (Z.of_nat y).
Proof.
  revert at_ i. induction p as [|a p IH]; intros at_ i; [done|].
  cbn [chain]. intros (-> & next & Hn & Hc).
  destruct i as [|i].
  - cbn. intros [= <-] Hy. destruct p as [|b p]; [done|]. cbn in Hy.
    injection Hy as <-. cbn in Hc. destruct Hc as [-> _]. done.
  - cbn. intros Hx Hy. by apply (IH next i).
Qed.

Lemma chain_head (prev : list Z) (at_ : Z) (p : list nat) (x : nat) :
  chain prev at_ p -> head p = Some x -> at_ = Z.of_nat x.
Proof. destruct p; [done|]. cbn. by intros [-> _] [= <-]. Qed.

Lemma GetPath_chain (dst : nat) (r : DijkstraResult D) (path : list nat) :
  (Z.of_nat (length (dist r)) < 2 ^ 32)%Z ->
  GetPath src dst r = Some path ->
  exists d, dist r !! dst = Some d /\
    if d_eqb d d_inf then path = []
    else exists p, path = reverse (dst :: p) /\ chain (prev r) (to_int dst) (dst :: p).
Proof.
  intros Hb. unfold GetPath. intros E.
  apply bind_Some in E as (d & Ed & E). exists d. split; [done|].
  pose proof (lookup_lt_Some _ _ _ Ed) as Hdst.
  destruct (d_eqb d d_inf) eqn:Einf; [by injection E as <-|].
  apply bind_Some in E as (p & Ep & E). injection E as <-.
  apply walk_prev_chain in Ep.
  assert (to_int dst <> (-1)%Z) as Hnd by (apply to_int_not_sentinel; lia).
  destruct p as [|x p]; [done|].
  assert (x = dst) as ->; [|by exists p].
  destruct Ep as [Ex _]. assert (0 <= to_int dst)%Z as Hnn by lia.
  apply to_int_nonneg in Hnn; lia.
Qed.

(** Each step of a path that [GetPath] returns goes from the predecessor
    of a node to that node, along an edge. *)
Lemma GetPath_steps (dst : nat) (r : DijkstraResult D) (path : list nat) :
  safe adj src (dist r) (prev r) [] ->
  GetPath src dst r = Some path ->
  forall i a b, path !! i = Some a -> path !! S i = Some b ->
    exists w, adj_edge adj a b w /\ prev r !! b = Some (to_int a) /\ reached src (prev r) a.
Proof.
  intros [Hlen Hb Hprev _ Hdist] E.
  destruct (GetPath_chain _ _ _ Hb E) as (d & Ed & Hp).
  destruct (d_eqb d d_inf); [by subst|]. destruct Hp as (p & -> & Ep).
  intros i a b Ha Hb'.
  pose proof (lookup_lt_Some _ _ _ Hb') as Hi. rewrite length_reverse in Hi.
  rewrite reverse_lookup in Ha by (rewrite ?length_reverse; lia).
  rewrite reverse_lookup in Hb' by (rewrite ?length_reverse; lia).
  replace (length (dst :: p) - S i) with (S (length (dst :: p) - S (S i))) in Ha by lia.
  pose proof (chain_step _ _ _ _ _ _ Ep Hb' Ha) as Hstep.
  destruct (Hprev _ _ Hstep) as [?|(u & w & Hu & Hul & He & Hr)]; [lia|].
  assert (u = a) as ->.
  { assert (0 <= to_int u)%Z as Hnn by lia. apply to_int_nonneg in Hnn; lia. }
  exists w. by rewrite Hstep, Hu.
Qed.

(** [GetPath] on a result of [Dijkstra]: the path is empty exactly when
    the distance of [dst] compares equal to infinity; otherwise it starts
    at the source and ends in [dst]. *)
Lemma GetPath_ends (dst : nat) (r : DijkstraResult D) (path : list nat) :
  d_eqb (d_inf : D) d_inf = true ->
  safe adj src (dist r) (prev r) [] ->
  GetPath src dst r = Some path ->
  exists d, dist r !! dst = Some d /\
    (path = [] <-> d_eqb d d_inf = true) /\
    (d_eqb d d_inf = false ->
       head path = Some src /\ last path = Some dst /\
       prev r !! src = Some (-1)%Z).
Proof.
  intros Hinf Hs E. pose proof (GetPath_steps _ _ _ Hs E) as Hstep.
  destruct Hs as [Hlen Hb Hprev _ Hdist].
  destruct (GetPath_chain _ _ _ Hb E) as (d & Ed & Hp).
  exists d. split; [done|].
  destruct (d_eqb d d_inf) eqn:Einf; [by subst|]. destruct Hp as (p & -> & Ep).
  split; [split; [|done]|].
  { intros E'. apply (f_equal length) in E'. rewrite length_reverse in E'. done. }
  intros _.
  destruct (last (dst :: p)) as [x|] eqn:El.
  2:{ apply last_None in El. done. }
  pose proof (chain_last _ _ _ _ Ep El) as Hx.
  assert (head (reverse (dst :: p)) = Some x) as Hhd.
  { rewrite <- (reverse_involutive (dst :: p)) in El. by rewrite last_reverse in El. }
  assert (x = src) as ->.
  { destruct p as [|y p].
    - cbn in El. injection El as <-.
      destruct (Hdist _ _ Ed) as [->|[->|(z & Hz & Hz')]]; [congruence|done|congruence].
    - destruct (reverse (dst :: y :: p)) as [|a [|b l]] eqn:Er.
      + apply (f_equal length) in Er. rewrite length_reverse in Er. done.
      + apply (f_equal length) in Er. rewrite length_reverse in Er. done.
      + cbn in Hhd. injection Hhd as ->.
        destruct (Hstep 0 x b eq_refl eq_refl) as (w & _ & _ & [->|(z & Hz & Hz')]);
          [done|congruence]. }
  split; [done|]. split; [by rewrite reverse_cons, last_snoc|done].
Qed.

End Safety.

Section SafetyResult.
Context {D : Type} `{Double D}.

(** [GetPath] on any arithmetic in which infinity compares equal to
    itself, binary64 included: whenever [Dijkstra] and [GetPath] return,
    the path is empty exactly when the distance of the destination
    compares equal to infinity, and otherwise it goes from the source to
    the destination along edges, each node after its predecessor. *)
Theorem GetPath_on_any_arithmetic (adj : list (list (nat * D))) (fuel src dst numNodes : nat)
    (r : DijkstraResult D) (path : list nat) :
  d_eqb (d_inf : D) d_inf = true ->
  (Z.of_nat numNodes < 2 ^ 32)%Z ->
  Dijkstra fuel adj src numNodes = Some r ->
  GetPath src dst r = Some path ->
  exists d, dist r !! dst = Some d /\
    (path = [] <-> d_eqb d d_inf = true) /\
    (path <> [] ->
       head path = Some src /\ last path = Some dst /\
       forall i a b, path !! i = Some a -> path !! S i = Some b ->
         exists w, adj_edge adj a b w /\ prev r !! b = Some (to_int a)).
Proof.
  intros Hinf Hn ED EP. destruct (Dijkstra_safe _ _ _ _ _ Hn ED) as (Hs & _ & _).
  destruct (GetPath_ends _ _ _ _ _ Hinf Hs EP) as (d & Ed & Hnil & Hends).
  exists d. split; [done|]. split; [done|]. intros Hne.
  destruct (d_eqb d d_inf) eqn:E; [by destruct Hne; apply Hnil|].
  destruct (Hends eq_refl) as (? & ? & _). split; [done|]. split; [done|].
  intros i a b Ha Hb. destruct (GetPath_steps _ _ _ _ _ Hs EP i a b Ha Hb) as (w & ? & ? & _).
  by exists w.
Qed.

End SafetyResult.

Lemma GetPath_on_any_arithmetic_witness :
  exists d, dist (mkDijkstraResult
                    [0%float; 2%float; 4%float; 6%float; PrimFloat.infinity; PrimFloat.infinity]
                    [(-1)%Z; 0%Z; 1%Z; 2%Z; (-1)%Z; (-1)%Z]) !! 3 = Some d /\
            d_eqb d d_inf = false.
Proof.
  destruct (GetPath_on_any_arithmetic (D := float) (g_adjList sample_topology) 10 0 3 6
              (mkDijkstraResult
                 [0%float; 2%float; 4%float; 6%float; PrimFloat.infinity; PrimFloat.infinity]
                 [(-1)%Z; 0%Z; 1%Z; 2%Z; (-1)%Z; (-1)%Z]) [0; 1; 2; 3])
    as (d & Ed & Hnil & _).
  - reflexivity.
  - cbn. lia.
  - vm_compute. reflexivity.
  - vm_compute. reflexivity.
  - exists d. split; [exact Ed|]. destruct (d_eqb d d_inf); [|reflexivity].
    destruct Hnil as [_ Hn]. discriminate (Hn eq_refl).
Defined.

(** ** The fuel of the main loop *)

Section Fuel.
Context {D : Type} `{Double D}.

(** A run of the main loop that ends within its fuel ends in the same
    state with any larger fuel. *)
Lemma dijkstra_loop_fuel (adj : list (list (nat * D))) (fuel fuel' : nat) (s s' : DState) :
  dijkstra_loop fuel adj s = Some s' -> fuel <= fuel' ->
  dijkstra_loop fuel' adj s = Some s'.
Proof.
  revert fuel' s. induction fuel as [|fuel IH]; intros fuel' s; [done|].
  intros E Hle. destruct fuel' as [|fuel']; [lia|]. cbn [dijkstra_loop] in *.
  destruct (pq_pop_min (ds_pq s)) as [[[d u] pq']|]; [|done].
  destruct (dijkstra_body adj d u _) as [s1|]; [|done]. cbn [mbind option_bind] in *.
  apply IH; [done|lia].
Qed.

(** The result of [Dijkstra] does not depend on the fuel: a result
    obtained with some fuel is the result with any larger fuel, on any
    arithmetic. *)
Theorem Dijkstra_fuel (adj : list (list (nat * D))) (src numNodes fuel fuel' : nat)
    (r : DijkstraResult D) :
  Dijkstra fuel adj src numNodes = Some r -> fuel <= fuel' ->
  Dijkstra fuel' adj src numNodes = Some r.
Proof.
  unfold Dijkstra. intros E Hle.
  destruct (dijkstra_init src numNodes) as [s0|]; [|done]. cbn [mbind option_bind] in *.
  destruct (dijkstra_loop fuel adj s0) as [s|] eqn:El; [|done].
  by rewrite (dijkstra_loop_fuel _ _ _ _ _ El Hle).
Qed.

End Fuel.

Lemma Dijkstra_fuel_witness :
  Dijkstra (D := float) 12 (g_adjList sample_topology) 0 6 =
  Some (mkDijkstraResult
          [0%float; 2%float; 4%float; 6%float; PrimFloat.infinity; PrimFloat.infinity]
          [(-1)%Z; 0%Z; 1%Z; 2%Z; (-1)%Z; (-1)%Z]).
Proof.
  apply (Dijkstra_fuel (D := float) (g_adjList sample_topology) 0 6 10 12).
  - vm_compute. reflexivity.
  - lia.
Defined.

(** ** Shortest paths on an arithmetic with [DoubleLaws] *)

Section Optimal.
Context {D : Type} `{DoubleLaws D}.
Variable adj : list (list (nat * D)).
Variable src numNodes : nat.
Hypothesis adj_ok : adj_wf adj numNodes.
Hypothesis adj_pos : adj_positive adj.
Hypothesis src_ok : src < numNodes.

Lemma inv_init :
  inv adj src numNodes [] [] (<[src := d_zero]> (replicate numNodes d_inf))
     (replicate numNodes (-1)%Z) [(d_zero, src)].
Proof.
  split.
  - by rewrite length_insert, length_replicate.
  - by rewrite length_replicate.
  - split.
    + apply list_lookup_insert_eq. by rewrite length_replicate.
    + by apply lookup_replicate.
  - intros x d Hx. destruct (decide (src = x)) as [<-|Hne].
    + rewrite list_lookup_insert_eq in Hx by (by rewrite length_replicate).
      injection Hx as <-. apply dle_refl.
    + rewrite list_lookup_insert_ne in Hx by done.
      apply lookup_replicate in Hx as [-> _]. apply dlt_dle, d_zero_lt_inf.
  - intros x d Hx. destruct (decide (src = x)) as [<-|Hne].
    + rewrite list_lookup_insert_eq in Hx by (by rewrite length_replicate).
      injection Hx as <-. right. constructor.
    + rewrite list_lookup_insert_ne in Hx by done.
      apply lookup_replicate in Hx as [-> _]. by left.
  - intros x d z Hx Hz. apply lookup_replicate in Hz as [-> _].
    destruct (decide (src = x)) as [<-|Hne]; [right; by left|].
    rewrite list_lookup_insert_ne in Hx by done.
    apply lookup_replicate in Hx as [-> _]. by left.
  - constructor.
  - intros x Hx. by apply elem_of_nil in Hx.
  - intros d x Hx. apply list_elem_of_singleton in Hx as [= -> ->].
    exists d_zero. split; [|split].
    + apply list_lookup_insert_eq. by rewrite length_replicate.
    + apply dle_refl.
    + apply d_zero_lt_inf.
  - intros u S' E. done.
  - intros s v w Hs. by apply elem_of_nil in Hs.
  - intros x dx Hx. destruct (decide (src = x)) as [<-|Hne].
    + rewrite list_lookup_insert_eq in Hx by (by rewrite length_replicate).
      injection Hx as <-. right. right. exists d_zero. split; [by left|apply dle_refl].
    + rewrite list_lookup_insert_ne in Hx by done.
      apply lookup_replicate in Hx as [-> _]. by left.
  - intros S1 x S2 E. by destruct S1.
Qed.

(** One edge of the latest node. *)
Lemma relax_edge_inv (u : nat) (S' : list nat) (v : nat) (w : D)
    (todo : list (nat * D)) (s : DState) :
  inv adj src numNodes (u :: S') ((v, w) :: todo) (ds_dist s) (ds_prev s) (ds_pq s) ->
  adj_edge adj u v w ->
  exists s', relax_edge u (v, w) s = Some s' /\
    inv adj src numNodes (u :: S') todo (ds_dist s') (ds_prev s') (ds_pq s') /\
    length (ds_pq s') <= S (length (ds_pq s)).
Proof.
  intros [Hld Hlp [Hsrc Hsrcp] Hnn Hwalk Hnode Hnd Hrange Hpq Htop Hedges Hlive Hord] He.
  destruct (Htop u S' eq_refl) as (du & Edu & Htop1 & Htop2).
  assert (v < numNodes) as Hv by (destruct adj_ok as [_ Ht]; by eapply Ht).
  assert (dlt d_zero w) as Hw by (by eapply adj_pos).
  destruct (lookup_lt_is_Some_2 (ds_dist s) v) as [dv Edv]; [lia|].
  destruct (lookup_lt_is_Some_2 (ds_prev s) v) as [pv Epv]; [lia|].
  unfold relax_edge. rewrite Edu. cbn [mbind option_bind]. rewrite Edv.
  cbn [mbind option_bind].
  destruct (d_ltb (d_add du w) dv) eqn:Elt.
  2:{ (* the edge offers nothing shorter *)
    eexists. split; [done|]. split; [|lia].
    split; try done.
    intros s' v' w' Hs' He'. destruct (Hedges s' v' w' Hs' He') as [[Hh Hin]|?]; [|by right].
    apply elem_of_cons in Hin as [[= -> ->]|Hin]; [|by left].
    right. cbn in Hh. injection Hh as <-. intros du' dv' Eu' Ev'.
    rewrite Edu in Eu'. rewrite Edv in Ev'. injection Eu' as <-. injection Ev' as <-.
    done. }
  rewrite Epv. cbn [mbind option_bind].
  eexists. split; [done|]. cbn [ds_dist ds_prev ds_pq]. split; [|cbn; lia].
  (* facts about the relaxed node *)
  assert (dle du (d_add du w)) as Hduw by (by apply dle_add).
  assert (v <> u) as Hvu.
  { intros ->. rewrite Edu in Edv. injection Edv as <-.
    by apply (dlt_not_dle _ _ Elt). }
  assert (v ∉ S') as HvS.
  { intros Hin. apply (dlt_not_dle _ _ Elt).
    apply dle_trans with du; [|done]. by apply (Htop1 v). }
  assert (v <> src) as Hvsrc.
  { intros ->. rewrite Hsrc in Edv. injection Edv as <-.
    apply (dlt_not_dle _ _ Elt). apply dle_trans with du; [|done]. by eapply Hnn. }
  assert (dlt (d_add du w) d_inf) as Hfin.
  { apply dlt_dle_trans with dv; [done|apply dle_inf]. }
  assert (forall x, x ∈ u :: S' -> x <> v) as HSv.
  { intros x Hx ->. apply elem_of_cons in Hx as [->|Hx]; done. }
  split.
  - by rewrite length_insert.
  - by rewrite length_insert.
  - by rewrite !list_lookup_insert_ne.
  - intros x d Hx. destruct (decide (v = x)) as [<-|Hne].
    + rewrite list_lookup_insert_eq in Hx by lia. injection Hx as <-.
      apply dle_trans with du; [by eapply Hnn|done].
    + rewrite list_lookup_insert_ne in Hx by done. by eapply Hnn.
  - intros x d Hx. destruct (decide (v = x)) as [<-|Hne].
    + rewrite list_lookup_insert_eq in Hx by lia. injection Hx as <-.
      right. apply walk_step with u; [|done].
      destruct (Hwalk u du Edu) as [->|?]; [|done].
      exfalso. apply (dlt_not_dle _ _ Hfin). done.
    + rewrite list_lookup_insert_ne in Hx by done. by eapply Hwalk.
  - intros x d z Hx Hz. destruct (decide (v = x)) as [<-|Hne].
    + rewrite list_lookup_insert_eq in Hx by lia.
      rewrite list_lookup_insert_eq in Hz by lia.
      injection Hx as <-. injection Hz as <-.
      right. right. split; [done|]. exists u, w, du.
      split; [done|]. split; [by left|]. split; [done|].
      by rewrite list_lookup_insert_ne.
    + rewrite list_lookup_insert_ne in Hx by done.
      rewrite list_lookup_insert_ne in Hz by done.
      destruct (Hnode x d z Hx Hz) as [?|[?|(Hd & u' & w' & du' & ? & Hu' & ? & Eu' & ?)]];
        [by left|right; by left|].
      right. right. split; [done|]. exists u', w', du'.
      split; [done|]. split; [done|]. split; [done|].
      rewrite list_lookup_insert_ne by (by apply not_eq_sym, HSv). done.
  - done.
  - done.
  - intros d x Hx. apply elem_of_cons in Hx as [[= -> ->]|Hx].
    + exists (d_add du w). rewrite list_lookup_insert_eq by lia.
      split; [done|]. split; [apply dle_refl|done].
    + destruct (Hpq d x Hx) as (dx & Ex & Hle & Hlt).
      destruct (decide (v = x)) as [<-|Hne].
      * exists (d_add du w). rewrite list_lookup_insert_eq by lia.
        split; [done|]. split; [|done].
        rewrite Edv in Ex. injection Ex as <-.
        apply dle_trans with dv; [by apply dlt_dle|done].
      * exists dx. by rewrite list_lookup_insert_ne.
  - intros u0 S0 [= <- <-]. exists du.
    split; [by rewrite list_lookup_insert_ne|]. split.
    + intros s0 ds Hs0 Es0.
      rewrite list_lookup_insert_ne in Es0 by (intros ->; done).
      by eapply Htop1.
    + intros d x Hx. apply elem_of_cons in Hx as [[= -> ->]|Hx]; [done|].
      by eapply Htop2.
  - intros s0 v0 w0 Hs0 He0.
    assert (s0 <> v) as Hs0v by (by apply HSv).
    assert (settled_edge (ds_dist s) s0 v0 w0 ->
              settled_edge (<[v := d_add du w]> (ds_dist s)) s0 v0 w0) as Hkeep.
    { intros Hset du0 dv0 Eu0 Ev0.
      rewrite list_lookup_insert_ne in Eu0 by done.
      destruct (decide (v = v0)) as [<-|Hne].
      - rewrite list_lookup_insert_eq in Ev0 by lia. injection Ev0 as <-.
        apply dle_trans with dv; [by apply dlt_dle|]. by apply Hset.
      - rewrite list_lookup_insert_ne in Ev0 by done. by apply Hset. }
    destruct (Hedges s0 v0 w0 Hs0 He0) as [[Hh Hin]|Hset]; [|right; by apply Hkeep].
    apply elem_of_cons in Hin as [[= -> ->]|Hin]; [|by left].
    right. cbn in Hh. injection Hh as <-. intros du0 dv0 Eu0 Ev0.
    rewrite list_lookup_insert_ne in Eu0 by done.
    rewrite list_lookup_insert_eq in Ev0 by lia.
    rewrite Edu in Eu0. injection Eu0 as <-. injection Ev0 as <-. apply dle_refl.
  - intros x dx Hx. destruct (decide (v = x)) as [<-|Hne].
    + rewrite list_lookup_insert_eq in Hx by lia. injection Hx as <-.
      right. right. exists (d_add du w). split; [by left|apply dle_refl].
    + rewrite list_lookup_insert_ne in Hx by done.
      destruct (Hlive x dx Hx) as [?|[?|(d & Hd & ?)]]; [by left|right; by left|].
      right. right. exists d. split; [by right|done].
  - intros S1 x S2 E. destruct (Hord S1 x S2 E) as [?|(u' & Hu' & Eu')]; [by left|].
    right. exists u'. split; [done|].
    rewrite list_lookup_insert_ne; [done|].
    intros <-. apply (HSv v); [|done]. rewrite E. apply elem_of_app. right. by left.
Qed.

(** All the edges of the latest node. *)
Lemma relax_all_inv (u : nat) (S' : list nat) (es : list (nat * D)) (s : DState) :
  inv adj src numNodes (u :: S') es (ds_dist s) (ds_prev s) (ds_pq s) ->
  (forall v w, (v, w) ∈ es -> adj_edge adj u v w) ->
  exists s', relax_all u es s = Some s' /\
    inv adj src numNodes (u :: S') [] (ds_dist s') (ds_prev s') (ds_pq s') /\
    length (ds_pq s') <= length (ds_pq s) + length es.
Proof.
  revert s. induction es as [|[v w] es IH]; intros s Hinv Hes.
  - exists s. split; [done|]. split; [done|lia].
  - destruct (relax_edge_inv u S' v w es s Hinv) as (s1 & E1 & Hinv1 & Hl1).
    { apply Hes. by left. }
    destruct (IH s1 Hinv1) as (s2 & E2 & Hinv2 & Hl2).
    { intros v' w' Hin. apply Hes. by right. }
    exists s2. cbn [relax_all]. rewrite E1. cbn [mbind option_bind].
    split; [done|]. split; [done|]. cbn [length]. lia.
Qed.

(** Relaxing edges that are settled already changes nothing. *)
Lemma relax_all_settled (u : nat) (du : D) (es : list (nat * D)) (s : DState) :
  length (ds_dist s) = numNodes ->
  ds_dist s !! u = Some du ->
  (forall v w, (v, w) ∈ es -> v < numNodes /\ settled_edge (ds_dist s) u v w) ->
  relax_all u es s = Some s.
Proof.
  intros Hlen Edu. induction es as [|[v w] es IH]; intros Hes; [done|].
  cbn [relax_all]. destruct (Hes v w) as [Hv Hset]; [by left|].
  destruct (lookup_lt_is_Some_2 (ds_dist s) v) as [dv Edv]; [lia|].
  unfold relax_edge. rewrite Edu. cbn [mbind option_bind]. rewrite Edv.
  cbn [mbind option_bind]. rewrite (Hset du dv Edu Edv). cbn [mbind option_bind].
  apply IH. intros v' w' Hin. apply Hes. by right.
Qed.

(** Taking an entry out of the queue that is out of date, or whose node
    has been handled. *)
Lemma inv_pop_keep (S : list nat) (dist : list D) (prev : list Z)
    (pq pq' : list (D * nat)) (d du : D) (u : nat) :
  inv adj src numNodes S [] dist prev pq -> pq ≡ₚ (d, u) :: pq' ->
  dist !! u = Some du -> dlt du d \/ u ∈ S ->
  inv adj src numNodes S [] dist prev pq'.
Proof.
  intros [Hld Hlp Hsrc Hnn Hwalk Hnode Hnd Hrange Hpq Htop Hedges Hlive Hord]
    Hperm Edu Hcase.
  assert (forall e, e ∈ pq' -> e ∈ pq) as Hsub.
  { intros e He. rewrite Hperm. by right. }
  split; try done.
  - intros d0 x Hx. apply Hpq. by apply Hsub.
  - intros u0 S0 E. destruct (Htop u0 S0 E) as (du0 & ? & ? & Ht).
    exists du0. split; [done|]. split; [done|]. intros d0 x Hx. eapply Ht. by apply Hsub.
  - intros x dx Hx. destruct (Hlive x dx Hx) as [?|[?|(d0 & Hd0 & Hle)]];
      [by left|right; by left|].
    rewrite Hperm in Hd0. apply elem_of_cons in Hd0 as [[= -> ->]|Hd0].
    + rewrite Edu in Hx. injection Hx as <-.
      destruct Hcase as [Hlt|?]; [|right; by left].
      exfalso. by apply (dlt_not_dle _ _ Hlt).
    + right. right. by exists d0.
Qed.

(** Taking the least entry out of the queue when it is up to date and its
    node has not been handled: the node becomes the latest one. *)
Lemma inv_pop_new (S : list nat) (dist : list D) (prev : list Z)
    (pq pq' : list (D * nat)) (d du : D) (u : nat) (es : list (nat * D)) :
  inv adj src numNodes S [] dist prev pq -> pq ≡ₚ (d, u) :: pq' ->
  (forall e, e ∈ pq' -> dle d e.1) ->
  dist !! u = Some du -> dle d du -> u ∉ S -> adj !! u = Some es ->
  inv adj src numNodes (u :: S) es dist prev pq'.
Proof.
  intros [Hld Hlp Hsrc Hnn Hwalk Hnode Hnd Hrange Hpq Htop Hedges Hlive Hord]
    Hperm Hleast Edu Hdu HuS Ees.
  assert (forall e, e ∈ pq' -> e ∈ pq) as Hsub.
  { intros e He. rewrite Hperm. by right. }
  assert ((d, u) ∈ pq) as Hin by (rewrite Hperm; by left).
  destruct (Hpq d u Hin) as (du' & Edu' & Hdud & Hfin).
  rewrite Edu in Edu'. injection Edu' as <-.
  pose proof (lookup_lt_Some _ _ _ Edu) as Hu.
  split; try done.
  - intros x dx z Hx Hz.
    destruct (Hnode x dx z Hx Hz) as [?|[?|(? & u' & w' & du' & ? & ? & ?)]];
      [by left|right; by left|].
    right. right. split; [done|]. exists u', w', du'. split; [done|]. split; [by right|done].
  - by constructor.
  - intros x Hx. apply elem_of_cons in Hx as [->|Hx]; [lia|by apply Hrange].
  - intros d0 x Hx. apply Hpq. by apply Hsub.
  - intros u0 S0 [= <- <-]. exists du. split; [done|]. split.
    + intros s0 ds Hs0 Es0. destruct S as [|t S'']; [by apply elem_of_nil in Hs0|].
      destruct (Htop t S'' eq_refl) as (dt & Edt & Ht1 & Ht2).
      assert (dle dt du) as Htu.
      { apply dle_trans with d; [by eapply Ht2|done]. }
      apply elem_of_cons in Hs0 as [->|Hs0].
      * rewrite Edt in Es0. by injection Es0 as <-.
      * apply dle_trans with dt; [by eapply Ht1|done].
    + intros d0 x Hx. apply dle_trans with d; [done|]. by apply (Hleast (d0, x)).
  - intros s0 v w Hs0 He0. apply elem_of_cons in Hs0 as [->|Hs0].
    + left. split; [done|]. destruct He0 as (es' & Ees' & Hin').
      rewrite Ees in Ees'. by injection Ees' as <-.
    + destruct (Hedges s0 v w Hs0 He0) as [[_ Hnil]|?]; [|by right].
      by apply elem_of_nil in Hnil.
  - intros x dx Hx. destruct (Hlive x dx Hx) as [?|[?|(d0 & Hd0 & Hle)]];
      [by left|right; left; by right|].
    rewrite Hperm in Hd0. apply elem_of_cons in Hd0 as [[= -> ->]|Hd0].
    + right. left. by left.
    + right. right. by exists d0.
  - intros S1 x S2 E. destruct S1 as [|y S1].
    + injection E as <- <-.
      destruct (lookup_lt_is_Some_2 prev u) as [z Ez]; [lia|].
      destruct (Hnode u du z Edu Ez) as [[-> _]|[?|(_ & u' & w' & du' & -> & Hu' & _)]].
      * exfalso. by apply (dlt_ne _ _ Hfin).
      * by left.
      * right. by exists u'.
    + injection E as <- E. by apply (Hord S1 x S2).
Qed.

(** The work left. *)
Lemma pending_work_settle (u : nat) (S nodes : list nat) (es : list (nat * D)) :
  NoDup nodes -> u ∉ S -> adj !! u = Some es ->
  pending_work adj S nodes =
  pending_work adj (u :: S) nodes + (if decide (u ∈ nodes) then length es else 0).
Proof.
  intros Hnd HuS Ees. unfold pending_work.
  induction Hnd as [|x nodes Hx Hnd IH]; [done|].
  cbn [sum_list_with]. rewrite IH.
  destruct (decide (x = u)) as [->|Hne].
  - rewrite (decide_False (P := u ∈ S)) by done.
    rewrite (decide_True (P := u ∈ u :: S)) by (by left).
    rewrite (decide_True (P := u ∈ u :: nodes)) by (by left).
    rewrite (decide_False (P := u ∈ nodes)) by done.
    rewrite Ees. cbn. lia.
  - destruct (decide (x ∈ S)) as [HxS|HxS].
    + rewrite (decide_True (P := x ∈ u :: S)) by (by right).
      destruct (decide (u ∈ nodes)) as [Hun|Hun].
      * by rewrite (decide_True (P := u ∈ x :: nodes)) by (by right).
      * rewrite (decide_False (P := u ∈ x :: nodes)); [done|].
        intros Hc. apply elem_of_cons in Hc as [->|?]; done.
    + rewrite (decide_False (P := x ∈ u :: S)).
      2:{ intros Hc. apply elem_of_cons in Hc as [->|?]; done. }
      destruct (decide (u ∈ nodes)) as [Hun|Hun].
      * rewrite (decide_True (P := u ∈ x :: nodes)) by (by right). lia.
      * rewrite (decide_False (P := u ∈ x :: nodes)); [lia|].
        intros Hc. apply elem_of_cons in Hc as [->|?]; done.
Qed.

(** The loop ends with an empty queue, within the fuel that the work left
    asks for. *)
Lemma dijkstra_loop_inv (fuel : nat) (S : list nat) (s : DState) :
  inv adj src numNodes S [] (ds_dist s) (ds_prev s) (ds_pq s) ->
  length (ds_pq s) + pending_work adj S (seq 0 numNodes) < fuel ->
  exists S' s', dijkstra_loop fuel adj s = Some s' /\
    inv adj src numNodes S' [] (ds_dist s') (ds_prev s') (ds_pq s') /\ ds_pq s' = [].
Proof.
  revert S s. induction fuel as [|fuel IH]; intros S s Hinv Hfuel; [lia|].
  cbn [dijkstra_loop].
  destruct (pq_pop_min (ds_pq s)) as [[[d u] pq']|] eqn:Epop.
  2:{ exists S, s. split; [done|]. split; [done|]. by apply pq_pop_min_None. }
  pose proof (pq_pop_min_perm _ _ _ Epop) as Hperm.
  pose proof (pq_pop_min_least _ _ _ Epop) as Hleast. cbn [fst] in Hleast.
  pose proof (pq_pop_min_length _ _ _ Epop) as Hlen.
  assert ((d, u) ∈ ds_pq s) as Hin by (rewrite Hperm; by left).
  destruct (inv_pq _ _ _ _ _ _ _ _ Hinv d u Hin) as (du & Edu & Hdud & Hfin).
  pose proof (lookup_lt_Some _ _ _ Edu) as Hu.
  rewrite (inv_len_dist _ _ _ _ _ _ _ _ Hinv) in Hu.
  unfold dijkstra_body. cbn [ds_dist]. rewrite Edu. cbn [mbind option_bind].
  unfold d_gtb. destruct (d_ltb du d) eqn:Estale.
  { (* out of date *)
    cbn [mbind option_bind]. apply (IH S).
    - cbn [ds_dist ds_prev ds_pq]. eapply inv_pop_keep; [done|done|done|by left].
    - cbn [ds_pq]. lia. }
  destruct adj_ok as [Hadj Htgt].
  destruct (lookup_lt_is_Some_2 adj u) as [es Ees]; [lia|].
  rewrite Ees. cbn [mbind option_bind].
  destruct (decide (u ∈ S)) as [HuS|HuS].
  { (* handled before *)
    assert (inv adj src numNodes S [] (ds_dist s) (ds_prev s) pq') as Hinv'.
    { eapply inv_pop_keep; [done|done|done|by right]. }
    rewrite (relax_all_settled u du).
    - cbn [mbind option_bind]. apply (IH S); [done|]. cbn [ds_pq]. lia.
    - cbn [ds_dist]. by eapply inv_len_dist.
    - done.
    - intros v w Hvw. assert (adj_edge adj u v w) as He by (by exists es).
      split; [by eapply Htgt|].
      destruct (inv_edges _ _ _ _ _ _ _ _ Hinv' u v w HuS He) as [[_ Hnil]|?]; [|done].
      by apply elem_of_nil in Hnil. }
  (* the node is handled now *)
  destruct (relax_all_inv u S es (mkDState (ds_dist s) (ds_prev s) pq'))
    as (s2 & E2 & Hinv2 & Hl2).
  { cbn [ds_dist ds_prev ds_pq]. eapply inv_pop_new; try done. }
  { intros v w Hvw. by exists es. }
  rewrite E2. cbn [mbind option_bind]. apply (IH (u :: S)); [done|].
  cbn [ds_pq] in Hl2.
  rewrite (pending_work_settle u S (seq 0 numNodes) es) in Hfuel;
    [|apply NoDup_seq|done|done].
  rewrite decide_True in Hfuel by (apply elem_of_seq; lia). lia.
Qed.

End Optimal.

Lemma sum_list_with_ext {A} (f g : A -> nat) (l : list A) :
  (forall x, x ∈ l -> f x = g x) -> sum_list_with f l = sum_list_with g l.
Proof.
  induction l as [|x l IH]; intros Hfg; [done|]. cbn [sum_list_with].
  rewrite (Hfg x) by (by left). rewrite IH; [done|].
  intros y Hy. apply Hfg. by right.
Qed.

Lemma pending_work_all {D} (adj : list (list (nat * D))) :
  pending_work adj [] (seq 0 (length adj)) = edge_count adj.
Proof.
  unfold edge_count, pending_work.
  induction adj as [|es adj IH] using rev_ind; [done|].
  rewrite length_app, Nat.add_comm. cbn [length Nat.add].
  rewrite seq_S, !sum_list_with_app. cbn [sum_list_with Nat.add].
  rewrite <- IH. f_equal.
  - apply sum_list_with_ext. intros x Hx. apply elem_of_seq in Hx.
    rewrite !decide_False by apply not_elem_of_nil.
    by rewrite lookup_app_l by lia.
  - rewrite decide_False by apply not_elem_of_nil.
    by rewrite list_lookup_middle.
Qed.

Lemma to_int_inj (a b : nat) :
  (Z.of_nat a < 2 ^ 32)%Z -> (Z.of_nat b < 2 ^ 32)%Z -> to_int a = to_int b -> a = b.
Proof.
  unfold to_int, wrap32. intros Ha Hb. rewrite !Z.mod_small by lia.
  destruct (Z.ltb_spec (Z.of_nat a) (2 ^ 31)), (Z.ltb_spec (Z.of_nat b) (2 ^ 31)); lia.
Qed.

Section Results.
Context {D : Type} `{DoubleLaws D}.
Variable adj : list (list (nat * D)).
Variable src numNodes : nat.
Hypothesis adj_ok : adj_wf adj numNodes.
Hypothesis adj_pos : adj_positive adj.
Hypothesis src_ok : src < numNodes.

(** With enough fuel [Dijkstra] returns, and the invariant holds of what
    it returns, with an empty queue. *)
Lemma Dijkstra_returns (fuel : nat) :
  edge_count adj + 2 <= fuel ->
  exists S r, Dijkstra fuel adj src numNodes = Some r /\
    inv adj src numNodes S [] (dist r) (prev r) [].
Proof.
  intros Hfuel. unfold Dijkstra, dijkstra_init.
  rewrite (proj2 (lookup_replicate _ _ _ _) (conj eq_refl src_ok)).
  cbn [mbind option_bind].
  destruct (dijkstra_loop_inv adj src numNodes adj_ok adj_pos src_ok fuel []
              (mkDState (<[src := d_zero]> (replicate numNodes d_inf))
                        (replicate numNodes (-1)%Z) [(d_zero, src)]))
    as (S & s & E & Hinv & Hpq).
  - cbn [ds_dist ds_prev ds_pq]. by apply inv_init.
  - cbn [ds_pq length]. destruct adj_ok as [<- _]. rewrite pending_work_all. lia.
  - exists S. eexists. rewrite E. cbn [mbind option_bind]. split; [done|].
    cbn [dist prev]. by rewrite <- Hpq.
Qed.

Section Final.
Variables (S : list nat) (dist_ : list D) (prev_ : list Z).
Hypothesis Hinv : inv adj src numNodes S [] dist_ prev_ [].

Lemma final_settled (u v : nat) (w : D) :
  adj_edge adj u v w -> settled_edge dist_ u v w.
Proof.
  intros He du dv Edu Edv.
  destruct (inv_live _ _ _ _ _ _ _ _ Hinv u du Edu) as [->|[Hu|(d & Hd & _)]].
  - apply dle_trans with d_inf; [apply dle_inf|]. apply dle_add. by eapply adj_pos.
  - destruct (inv_edges _ _ _ _ _ _ _ _ Hinv u v w Hu He) as [[_ Hnil]|Hset].
    + by apply elem_of_nil in Hnil.
    + by apply Hset.
  - by apply elem_of_nil in Hd.
Qed.

Lemma final_lower_bound (v : nat) (c : D) :
  walk adj src v c -> exists d, dist_ !! v = Some d /\ dle d c.
Proof.
  induction 1 as [|u v w c Hw (du & Edu & Hle) He].
  - exists d_zero. split; [apply (inv_src _ _ _ _ _ _ _ _ Hinv)|apply dle_refl].
  - assert (v < numNodes) as Hv by (destruct adj_ok as [_ Ht]; by eapply Ht).
    destruct (lookup_lt_is_Some_2 dist_ v) as [dv Edv].
    { by rewrite (inv_len_dist _ _ _ _ _ _ _ _ Hinv). }
    exists dv. split; [done|].
    apply dle_trans with (d_add du w); [by apply (final_settled u v w)|].
    by apply dle_add_mono.
Qed.

Lemma final_attained (v : nat) (d : D) :
  dist_ !! v = Some d ->
  walk adj src v d \/ (d = d_inf /\ prev_ !! v = Some (-1)%Z).
Proof.
  intros Ed. destruct (inv_walk _ _ _ _ _ _ _ _ Hinv v d Ed) as [->|?]; [|by left].
  right. split; [done|].
  pose proof (lookup_lt_Some _ _ _ Ed) as Hv.
  rewrite (inv_len_dist _ _ _ _ _ _ _ _ Hinv) in Hv.
  destruct (lookup_lt_is_Some_2 prev_ v) as [z Ez].
  { by rewrite (inv_len_prev _ _ _ _ _ _ _ _ Hinv). }
  destruct (inv_node _ _ _ _ _ _ _ _ Hinv v d_inf z Ed Ez) as [[_ ->]|[->|[Hlt _]]].
  - done.
  - apply (inv_src _ _ _ _ _ _ _ _ Hinv).
  - exfalso. by apply (dlt_ne _ _ Hlt).
Qed.

(** A node whose predecessor is [a] is at the distance of [a] plus the
    weight of an edge from [a]. *)
Lemma final_pred (a b : nat) :
  (Z.of_nat numNodes < 2 ^ 32)%Z -> a < numNodes ->
  prev_ !! b = Some (to_int a) ->
  exists w da, adj_edge adj a b w /\ dist_ !! a = Some da /\
               dist_ !! b = Some (d_add da w).
Proof.
  intros Hn Ha Eb.
  pose proof (lookup_lt_Some _ _ _ Eb) as Hb.
  rewrite (inv_len_prev _ _ _ _ _ _ _ _ Hinv) in Hb.
  destruct (lookup_lt_is_Some_2 dist_ b) as [d Ed].
  { by rewrite (inv_len_dist _ _ _ _ _ _ _ _ Hinv). }
  assert (to_int a <> (-1)%Z) as Hna by (apply to_int_not_sentinel; lia).
  destruct (inv_node _ _ _ _ _ _ _ _ Hinv b d _ Ed Eb)
    as [[_ ?]|[->|(_ & u & w & du & Hz & Hu & He & Edu & ->)]].
  - done.
  - destruct (inv_src _ _ _ _ _ _ _ _ Hinv) as [_ Hs]. congruence.
  - assert (u = a) as ->.
    { symmetry. apply to_int_inj; [lia| |done].
      pose proof (inv_range _ _ _ _ _ _ _ _ Hinv u Hu). lia. }
    by exists w, du.
Qed.

(** Following the predecessors from a handled node ends at the source. *)
Lemma final_walk_prev (fuel : nat) (S1 : list nat) (x : nat) (S2 : list nat) :
  (Z.of_nat numNodes <= 2 ^ 31)%Z ->
  S = S1 ++ x :: S2 -> length S2 < fuel ->
  exists p, walk_prev fuel prev_ (to_int x) = Some p.
Proof.
  intros Hn. revert S1 x S2. induction fuel as [|fuel IH]; intros S1 x S2 E Hlen; [lia|].
  assert (x < numNodes) as Hx.
  { apply (inv_range _ _ _ _ _ _ _ _ Hinv). rewrite E. apply elem_of_app. right. by left. }
  rewrite (to_int_small x) by lia.
  cbn [walk_prev]. destruct (Z.eqb_spec (Z.of_nat x) (-1)); [lia|].
  unfold to_index. destruct (Z.ltb_spec (Z.of_nat x) 0); [lia|].
  cbn [mbind option_bind]. rewrite Nat2Z.id.
  destruct (inv_order _ _ _ _ _ _ _ _ Hinv S1 x S2 E) as [->|(u & Hu & Eu)].
  - destruct (inv_src _ _ _ _ _ _ _ _ Hinv) as [_ ->]. cbn [mbind option_bind].
    exists [src]. by destruct fuel.
  - rewrite Eu. cbn [mbind option_bind].
    apply list_elem_of_split in Hu as (S2a & S2b & ->).
    destruct (IH (S1 ++ x :: S2a) u S2b) as [p Ep].
    + by rewrite E, <- app_assoc.
    + rewrite length_app in Hlen. cbn in Hlen. lia.
    + rewrite Ep. cbn [mbind option_bind]. by eexists.
Qed.

Lemma final_handled_length : length S <= numNodes.
Proof.
  assert (length S <= length (seq 0 numNodes)) as Hl; [|by rewrite length_seq in Hl].
  apply submseteq_length, NoDup_submseteq.
  - apply (inv_nodup _ _ _ _ _ _ _ _ Hinv).
  - intros x Hx. apply elem_of_seq.
    pose proof (inv_range _ _ _ _ _ _ _ _ Hinv x Hx). lia.
Qed.

End Final.

(** [GetPath] returns when the node count fits [int]. *)
Lemma GetPath_returns (S : list nat) (r : DijkstraResult D) (dst : nat) :
  inv adj src numNodes S [] (dist r) (prev r) [] ->
  (Z.of_nat numNodes <= 2 ^ 31)%Z -> dst < numNodes ->
  exists path, GetPath src dst r = Some path.
Proof.
  intros Hinv Hn Hdst. unfold GetPath.
  destruct (lookup_lt_is_Some_2 (dist r) dst) as [d Ed].
  { by rewrite (inv_len_dist _ _ _ _ _ _ _ _ Hinv). }
  rewrite Ed. cbn [mbind option_bind].
  destruct (d_eqb d d_inf) eqn:Einf; [by eexists|].
  assert (dst ∈ S) as Hin.
  { destruct (inv_live _ _ _ _ _ _ _ _ Hinv dst d Ed) as [->|[?|(d' & Hd' & _)]].
    - by rewrite d_eqb_inf_refl in Einf.
    - done.
    - by apply elem_of_nil in Hd'. }
  apply list_elem_of_split in Hin as (S1 & S2 & E).
  destruct (final_walk_prev S (dist r) (prev r) Hinv (Datatypes.S (length (prev r)))
              S1 dst S2 Hn E) as [p Ep].
  - pose proof (final_handled_length S (dist r) (prev r) Hinv) as Hl.
    rewrite (inv_len_prev _ _ _ _ _ _ _ _ Hinv).
    rewrite E, length_app in Hl. cbn in Hl. lia.
  - rewrite Ep. cbn [mbind option_bind]. by eexists.
Qed.

End Results.

Section Telescope.
Context {D : Type} `{Double D}.
Variable adj : list (list (nat * D)).
Variable dist_ : list D.

(** Distances that grow by the weight of an edge at each step of a path add
    up along the path. *)
Lemma steps_add_up (path : list nat) (a : nat) (da : D) :
  head path = Some a -> dist_ !! a = Some da ->
  (forall i x y, path !! i = Some x -> path !! S i = Some y ->
     exists w dx, adj_edge adj x y w /\ dist_ !! x = Some dx /\
                  dist_ !! y = Some (d_add dx w)) ->
  exists ws, path_weights adj path ws /\
    forall z, last path = Some z -> dist_ !! z = Some (foldl d_add da ws).
Proof.
  revert a da. induction path as [|x path IH]; intros a da Hhd Eda Hsteps; [done|].
  cbn in Hhd. injection Hhd as ->.
  destruct path as [|y path].
  - exists []. split; [split; [done|]|].
    + intros i a' b w Ha' Hb'. by destruct i.
    + cbn. by intros z [= <-].
  - destruct (Hsteps 0 a y eq_refl eq_refl) as (w & dx & He & Edx & Edy).
    rewrite Eda in Edx. injection Edx as <-.
    destruct (IH y (d_add da w) eq_refl Edy) as (ws & [Hlen Hws] & Hlast).
    { intros i x' y' Hx' Hy'. by apply (Hsteps (S i)). }
    exists (w :: ws). split; [split|].
    + cbn in *. lia.
    + intros [|i] a' b w' Ha' Hb' Hw'.
      * cbn in Ha', Hb', Hw'. by simplify_eq.
      * by apply (Hws i).
    + intros z Hz. cbn [foldl]. by apply Hlast.
Qed.

End Telescope.

Section Loaded.
Context {D : Type} `{DoubleLaws D}.
Variable parse_link : string -> option (LinkParam D).

Lemma loaded_adj_wf (file : option (list string)) (ok : bool) (topo : Topology D) :
  LoadLinks parse_link file empty_topology = Some (ok, topo) ->
  adj_wf (g_adjList topo) (g_numNodes topo) /\ adj_positive (g_adjList topo).
Proof.
  intros EL. destruct (LoadLinks_topology _ _ _ _ EL) as (_ & Hlen & Hrange & Hedge).
  destruct (LoadLinks_links _ _ _ _ EL) as [Hlinks _].
  split; [split; [done|]|].
  - intros u v w He. apply Hedge in He as (l & Hl & Hj & _).
    destruct (Hrange l Hl). destruct Hj as [[_ ->]|[_ ->]]; done.
  - intros u v w He. apply Hedge in He as (l & Hl & _ & ->).
    rewrite Hlinks in Hl. apply list_elem_of_fmap in Hl as (p & -> & _).
    apply coerce_link_delay_pos.
Qed.



End Loaded.



(** ** Link setup *)

Section SetupFacts.
Context {D : Type}.
Variable bind_link : nat -> LinkBinding.

Lemma setup_link_interface (i : nat) (l : LinkParam D) (ifs : Interfaces) (k : nat * nat) :
  is_Some (g_linkInterface (setup_link bind_link i l ifs) !! k) <->
  is_Some (g_linkInterface ifs !! k) \/ k = (srcId l, dstId l) \/ k = (dstId l, srcId l).
Proof.
  unfold setup_link. cbn [g_linkInterface].
  rewrite !lookup_insert_is_Some. split.
  - intros [->|[_ [->|[_ ?]]]]; auto.
  - intros [?|[->| ->]].
    + destruct (decide ((dstId l, srcId l) = k)); [by left|right]. split; [done|].
      destruct (decide ((srcId l, dstId l) = k)); [by left|by right].
    + destruct (decide ((dstId l, srcId l) = (srcId l, dstId l))); [by left|right].
      split; [done|]. by left.
    + by left.
Qed.

Lemma setup_links_interface (links : list (LinkParam D)) (i : nat) (ifs : Interfaces)
    (k : nat * nat) :
  is_Some (g_linkInterface (setup_links bind_link i links ifs) !! k) <->
  is_Some (g_linkInterface ifs !! k) \/ exists l, l ∈ links /\ link_joins l k.1 k.2.
Proof.
  revert i ifs. induction links as [|l links IH]; intros i ifs; cbn [setup_links].
  - split; [by left|]. intros [?|(l & Hl & _)]; [done|]. by apply elem_of_nil in Hl.
  - rewrite IH, setup_link_interface. unfold link_joins. destruct k as [a b]. cbn [fst snd].
    split.
    + intros [[?|[[= -> ->]|[= -> ->]]]|(l' & Hl' & ?)].
      * by left.
      * right. exists l. split; [by left|]. by left.
      * right. exists l. split; [by left|]. by right.
      * right. exists l'. split; [by right|done].
    + intros [?|(l' & Hl' & Hj)]; [by left; left|].
      apply elem_of_cons in Hl' as [->|Hl'].
      * left. right. destruct Hj as [[-> ->]|[-> ->]]; [by left|by right].
      * right. by exists l'.
Qed.

Lemma setup_link_firstIp (i : nat) (l : LinkParam D) (ifs : Interfaces) (x : nat) :
  is_Some (g_nodeFirstIp (setup_link bind_link i l ifs) !! x) <->
  is_Some (g_nodeFirstIp ifs !! x) \/ x = srcId l \/ x = dstId l.
Proof.
  unfold setup_link. cbn [g_nodeFirstIp].
  set (fi1 := match g_nodeFirstIp ifs !! srcId l with
              | Some _ => g_nodeFirstIp ifs
              | None => <[srcId l:=address0 (bind_link i)]> (g_nodeFirstIp ifs)
              end).
  assert (is_Some (fi1 !! x) <-> is_Some (g_nodeFirstIp ifs !! x) \/ x = srcId l) as H1.
  { subst fi1. destruct (g_nodeFirstIp ifs !! srcId l) eqn:E.
    - split; [by left|]. intros [?| ->]; [done|]. by rewrite E.
    - rewrite lookup_insert_is_Some. split.
      + intros [->|[_ ?]]; auto.
      + intros [?| ->]; [|by left].
        destruct (decide (srcId l = x)); [by left|by right]. }
  destruct (fi1 !! dstId l) eqn:E.
  - rewrite H1. split; [tauto|]. intros [?|[?| ->]]; [tauto|tauto|].
    apply H1. by rewrite E.
  - rewrite lookup_insert_is_Some, H1. split.
    + intros [->|[_ ?]]; tauto.
    + intros [?|[?| ->]]; [| |by left].
      * destruct (decide (dstId l = x)); [by left|right; tauto].
      * destruct (decide (dstId l = x)); [by left|right; tauto].
Qed.

Lemma setup_links_firstIp (links : list (LinkParam D)) (i : nat) (ifs : Interfaces)
    (x : nat) :
  is_Some (g_nodeFirstIp (setup_links bind_link i links ifs) !! x) <->
  is_Some (g_nodeFirstIp ifs !! x) \/
  exists l, l ∈ links /\ (x = srcId l \/ x = dstId l).
Proof.
  revert i ifs. induction links as [|l links IH]; intros i ifs; cbn [setup_links].
  - split; [by left|]. intros [?|(l & Hl & _)]; [done|]. by apply elem_of_nil in Hl.
  - rewrite IH, setup_link_firstIp. split.
    + intros [[?|?]|(l' & Hl' & ?)].
      * by left.
      * right. exists l. split; [by left|done].
      * right. exists l'. split; [by right|done].
    + intros [?|(l' & Hl' & Hj)]; [by left; left|].
      apply elem_of_cons in Hl' as [->|Hl'].
      * left. by right.
      * right. by exists l'.
Qed.

End SetupFacts.

(** ** Route installation *)

Section Installer.
Context {D : Type}.

Lemma hops_lookup (path : list nat) (i : nat) (a b : nat) :
  path !! i = Some a -> path !! (i + 1) = Some b -> hops path !! i = Some (a, b).
Proof.
  intros Ha Hb. unfold hops. apply lookup_zip_with_Some.
  exists a, b. split; [done|]. split; [done|].
  rewrite lookup_drop. by rewrite Nat.add_comm.
Qed.

Lemma hops_length (path : list nat) : length (hops path) = length path - 1.
Proof. unfold hops. rewrite length_zip, length_drop. lia. Qed.

Lemma install_hop_spec (ifs : Interfaces) (path : list nat) (dest : Ipv4Address)
    (hop : nat) (h : nat * nat) (st : Sim D) :
  hops path !! hop = Some h ->
  install_hop ifs path dest hop st =
    Some (mkSim (routeFile st)
                (hostRoutes st ++ option_list (hop_route ifs dest h))
                (warnings st ++ filter (fun h => g_linkInterface ifs !! h = None) [h])
                (sinkApps st) (clientApps st) (port st)).
Proof.
  intros Hh. unfold hops in Hh. apply lookup_zip_with_Some in Hh.
  destruct Hh as (a & b & -> & Ha & Hb).
  rewrite lookup_drop in Hb.
  unfold install_hop, hop_route. rewrite Ha. cbn [mbind option_bind].
  replace (hop + 1) with (1 + hop) by lia. rewrite Hb. cbn [mbind option_bind fst].
  rewrite filter_cons, filter_nil.
  destruct (g_linkInterface ifs !! (a, b)) as [[ifIndex nextHop]|] eqn:E.
  - rewrite decide_False by done. cbn [option_list]. by rewrite app_nil_r.
  - rewrite decide_True by done. cbn [option_list]. by rewrite app_nil_r.
Qed.

Lemma install_hops_spec (ifs : Interfaces) (path : list nat) (dest : Ipv4Address)
    (n hop : nat) (st : Sim D) :
  hop + n <= length (hops path) ->
  install_hops n ifs path dest hop st =
    Some (mkSim (routeFile st)
                (hostRoutes st ++ omap (hop_route ifs dest) (take n (drop hop (hops path))))
                (warnings st ++ filter (fun h => g_linkInterface ifs !! h = None)
                                       (take n (drop hop (hops path))))
                (sinkApps st) (clientApps st) (port st)).
Proof.
  revert hop st. induction n as [|n IH]; intros hop st Hlen.
  - cbn. rewrite !app_nil_r. by destruct st.
  - cbn [install_hops].
    destruct (lookup_lt_is_Some_2 (hops path) hop) as [h Hh]; [lia|].
    rewrite (install_hop_spec _ _ _ _ h) by done. cbn [mbind option_bind].
    rewrite IH by lia. cbn [routeFile hostRoutes warnings sinkApps clientApps port].
    rewrite (drop_S _ _ _ Hh). cbn [take omap].
    rewrite (filter_cons _ h (take n _)). rewrite filter_cons, filter_nil.
    rewrite <- !app_assoc. do 2 f_equal.
    + change (list_omap _ _ ?f ?l) with (omap f l). cbn [omap list_omap].
      by destruct (hop_route ifs dest h).
    + f_equal. by destruct (decide _).
Qed.

(** The hop loop as a whole: a route for every hop whose lookup succeeds,
    a warning for every other one, both in the order of the path. *)
Lemma install_routes_spec (ifs : Interfaces) (path : list nat)
    (destAddr : Ipv4Address) (st : Sim D) :
  install_routes ifs path destAddr st =
    Some (mkSim (routeFile st)
                (hostRoutes st ++ omap (hop_route ifs destAddr) (hops path))
                (warnings st ++ filter (fun h => g_linkInterface ifs !! h = None)
                                       (hops path))
                (sinkApps st) (clientApps st) (port st)).
Proof.
  unfold install_routes. rewrite install_hops_spec by (rewrite hops_length; lia).
  by rewrite drop_0, <- hops_length, firstn_all.
Qed.

(** C3.  Route installation for a path and a destination address always
    completes.  The host routes it adds are, in the order of the path, one
    for each consecutive pair (current, next) whose interface lookup
    succeeds: at node current, for the destination address, out of the
    interface and toward the next-hop address that the lookup gave.  A pair
    whose lookup fails adds a warning and no route, and the pairs before
    and after it are handled all the same.  Nothing else of the state
    changes. *)
Theorem install_routes_correct (ifs : Interfaces) (path : list nat)
    (destAddr : Ipv4Address) (st : Sim D) :
  exists st',
    install_routes ifs path destAddr st = Some st' /\
    hostRoutes st' = hostRoutes st ++ omap (hop_route ifs destAddr) (hops path) /\
    warnings st' =
      warnings st ++ filter (fun h => g_linkInterface ifs !! h = None) (hops path) /\
    (forall current next ifIndex nextHopAddr,
       (current, next) ∈ hops path ->
       g_linkInterface ifs !! (current, next) = Some (ifIndex, nextHopAddr) ->
       mkHostRoute current destAddr nextHopAddr ifIndex ∈ hostRoutes st') /\
    (forall h, h ∈ hops path -> g_linkInterface ifs !! h = None -> h ∈ warnings st') /\
    routeFile st' = routeFile st /\ sinkApps st' = sinkApps st /\
    clientApps st' = clientApps st /\ port st' = port st.
Proof.
  eexists. split; [apply install_routes_spec|].
  cbn [hostRoutes warnings routeFile sinkApps clientApps port].
  split; [done|]. split; [done|]. split; [|split; [|done]].
  - intros current next ifIndex nextHopAddr Hin Hlook.
    apply elem_of_app. right. apply list_elem_of_omap.
    exists (current, next). split; [done|]. unfold hop_route. by rewrite Hlook.
  - intros h Hin Hnone. apply elem_of_app. right. by apply list_elem_of_filter.
Qed.

End Installer.

(** C9.  Installing a host route on a forwarding state that has just
    received the same route (same node, destination address, interface and
    next hop) leaves the state as it is, whatever was installed before. *)
Theorem host_route_idempotent (r : HostRoute) (calls : list HostRoute)
    (fwd : gmap (nat * Ipv4Address) (nat * Ipv4Address)) :
  AddHostRouteTo r (AddHostRouteTo r fwd) = AddHostRouteTo r fwd /\
  forwarding_state (calls ++ [r; r]) fwd = forwarding_state (calls ++ [r]) fwd.
Proof.
  assert (forall f, AddHostRouteTo r (AddHostRouteTo r f) = AddHostRouteTo r f) as Hi.
  { intros f. unfold AddHostRouteTo. apply insert_insert_eq. }
  split; [apply Hi|].
  unfold forwarding_state. rewrite !foldl_app. cbn. apply Hi.
Qed.

Lemma forwarding_state_lookup (calls : list HostRoute)
    (fwd : gmap (nat * Ipv4Address) (nat * Ipv4Address)) (k : nat * Ipv4Address) :
  forwarding_state calls fwd !! k =
    match last (filter (fun r => (hr_node r, hr_dest r) = k) calls) with
    | Some r => Some (hr_interface r, hr_nextHop r)
    | None => fwd !! k
    end.
Proof.
  induction calls as [|r calls IH] using rev_ind; [done|].
  unfold forwarding_state in *. rewrite foldl_app, filter_app. cbn [foldl].
  unfold AddHostRouteTo at 1. rewrite filter_cons, filter_nil.
  destruct (decide ((hr_node r, hr_dest r) = k)) as [<-|Hne].
  - rewrite lookup_insert_eq. by rewrite last_snoc.
  - rewrite lookup_insert_ne by done. by rewrite app_nil_r.
Qed.

(** Running the installer again with the same calls changes nothing. *)
Lemma forwarding_state_rerun (calls : list HostRoute)
    (fwd : gmap (nat * Ipv4Address) (nat * Ipv4Address)) :
  forwarding_state (calls ++ calls) fwd = forwarding_state calls fwd.
Proof.
  apply map_eq. intros k. rewrite !forwarding_state_lookup, filter_app.
  destruct (filter _ calls) as [|r l] eqn:E using rev_ind; [done|].
  by rewrite app_assoc, !last_snoc.
Qed.

(** ** Interface lookup and demands *)

Section Lookup.
Context {D : Type} `{Double D}.
Variable parse_link : string -> option (LinkParam D).
Variable bind_link : nat -> LinkBinding.

(** C10.  After [LoadLinks] and the link loop of [main], the interface
    map has an entry for both directed pairs of every loaded link.  So for
    every path that [GetPath] returns on a result of [Dijkstra] over the
    adjacency lists of the same links, the lookup succeeds for every
    consecutive pair, and route installation adds a route for each hop and
    no warning.  This holds on any arithmetic, binary64 included. *)
Theorem interface_lookup_succeeds (file : option (list string)) (ok : bool)
    (topo : Topology D) :
  LoadLinks parse_link file empty_topology = Some (ok, topo) ->
  let ifs := setup_links bind_link 0 (g_links topo) no_interfaces in
  (forall l, l ∈ g_links topo ->
     is_Some (g_linkInterface ifs !! (srcId l, dstId l)) /\
     is_Some (g_linkInterface ifs !! (dstId l, srcId l))) /\
  (forall fuel src dst dijkstra path,
     Dijkstra fuel (g_adjList topo) src (g_numNodes topo) = Some dijkstra ->
     GetPath src dst dijkstra = Some path ->
     (forall h, h ∈ hops path -> is_Some (g_linkInterface ifs !! h)) /\
     (forall destAddr (st : Sim D), exists st',
        install_routes ifs path destAddr st = Some st' /\
        warnings st' = warnings st /\
        length (hostRoutes st') = length (hostRoutes st) + (length path - 1))).
Proof.
  intros EL ifs.
  destruct (LoadLinks_topology _ _ _ _ EL) as (Hn & _ & _ & Hedge).
  assert (forall a b, (exists l, l ∈ g_links topo /\ link_joins l a b) ->
            is_Some (g_linkInterface ifs !! (a, b))) as Hifs.
  { intros a b Hl. apply setup_links_interface. by right. }
  split.
  { intros l Hl. split; apply Hifs; exists l; (split; [done|]); [by left|by right]. }
  intros fuel src dst dijkstra path ED EP.
  destruct (Dijkstra_safe _ _ _ _ _ Hn ED) as (Hs & _ & _).
  pose proof (GetPath_steps _ _ _ _ _ Hs EP) as Hsteps.
  assert (forall h, h ∈ hops path -> is_Some (g_linkInterface ifs !! h)) as Hh.
  { intros [a b] Hin. apply list_elem_of_lookup in Hin as [i Hi].
    unfold hops in Hi. apply lookup_zip_with_Some in Hi as (a' & b' & [= <- <-] & Ha & Hb).
    rewrite lookup_drop in Hb. cbn in Hb.
    destruct (Hsteps i a b Ha Hb) as (w & He & _).
    apply Hedge in He as (l & Hl & Hj & _). apply Hifs. by exists l. }
  split; [done|]. intros destAddr st.
  eexists. split; [apply install_routes_spec|].
  cbn [warnings hostRoutes].
  assert (filter (fun h => g_linkInterface ifs !! h = None) (hops path) = []) as Hnil.
  { destruct (filter _ (hops path)) as [|h l] eqn:Ef; [done|].
    assert (h ∈ filter (fun h => g_linkInterface ifs !! h = None) (hops path)) as Hin
      by (rewrite Ef; by left).
    apply list_elem_of_filter in Hin as [Hnone Hin].
    destruct (Hh h Hin) as [x Hx]. congruence. }
  split; [by rewrite Hnil, app_nil_r|].
  rewrite length_app. f_equal. rewrite <- hops_length.
  clear Hnil. induction (hops path) as [|h hs IH]; [done|].
  change (omap ?f (h :: hs)) with
    (match f h with Some y => y :: omap f hs | None => omap f hs end).
  destruct (Hh h) as [[ifIndex nextHop] Hx]; [by left|].
  unfold hop_route at 1. rewrite Hx. cbn [length]. f_equal. apply IH.
  intros h' Hin. apply Hh. by right.
Qed.

End Lookup.

(** The line A-B-C-D on binary64. *)
Lemma interface_lookup_succeeds_witness :
  is_Some (g_linkInterface (sample_interfaces (D := float)) !! (2, 1)) /\
  forall h, h ∈ hops [0; 1; 2; 3] ->
    is_Some (g_linkInterface (sample_interfaces (D := float)) !! h).
Proof.
  destruct (interface_lookup_succeeds (D := float) sample_parse_link sample_bind_link
              sample_link_file true sample_topology) as [Hl Hp].
  - vm_compute. reflexivity.
  - split.
    + apply (Hl (sample_link 1 2 "B" "C")). vm_compute. right. left.
    + refine (proj1 (Hp 10 0 3 (mkDijkstraResult
               [0%float; 2%float; 4%float; 6%float; PrimFloat.infinity; PrimFloat.infinity]
               [(-1)%Z; 0%Z; 1%Z; 2%Z; (-1)%Z; (-1)%Z]) [0; 1; 2; 3] _ _)).
      * vm_compute. reflexivity.
      * vm_compute. reflexivity.
Defined.

Section Demands.
Context {D : Type} `{Double D}.
Variable fuel : nat.
Variable simTime : D.

Lemma process_demands_app (topo : Topology D) (ifs : Interfaces)
    (ds1 ds2 : list (TrafficDemand D)) (st : Sim D) :
  process_demands fuel simTime topo ifs (ds1 ++ ds2) st =
  process_demands fuel simTime topo ifs ds1 st ≫=
    process_demands fuel simTime topo ifs ds2.
Proof.
  revert st. induction ds1 as [|d ds1 IH]; intros st; [done|].
  cbn [app process_demands].
  destruct (process_demand fuel simTime topo ifs d st) as [st'|]; [|done].
  cbn [mbind option_bind]. apply IH.
Qed.

Lemma process_demand_skipped (topo : Topology D) (ifs : Interfaces)
    (demand : TrafficDemand D) (st : Sim D) :
  demand_skipped fuel topo ifs demand ->
  process_demand fuel simTime topo ifs demand st = Some st.
Proof.
  unfold process_demand. intros [E|(dijkstra & path & ED & EP & Hlen)].
  - by rewrite E.
  - destruct (g_nodeFirstIp ifs !! dm_dstId demand); [|done].
    rewrite ED. cbn [mbind option_bind]. rewrite EP. cbn [mbind option_bind].
    destruct (Nat.ltb_spec (length path) 2); [|lia]. by rewrite orb_true_r.
Qed.

(** C4.  A demand whose destination has no address, or whose path is
    empty or has fewer than two nodes, leaves everything as it is: no row,
    no route, no endpoint, and the port is not used up.  The demands before
    and after it are processed, in order, as if it were not in the input. *)
Theorem skipped_demand_no_effect (topo : Topology D) (ifs : Interfaces)
    (demand : TrafficDemand D) (before after : list (TrafficDemand D)) (st : Sim D) :
  demand_skipped fuel topo ifs demand ->
  process_demand fuel simTime topo ifs demand st = Some st /\
  process_demands fuel simTime topo ifs (before ++ demand :: after) st =
  process_demands fuel simTime topo ifs (before ++ after) st.
Proof.
  intros Hskip. split; [by apply process_demand_skipped|].
  rewrite !process_demands_app.
  destruct (process_demands fuel simTime topo ifs before st) as [st'|]; [|done].
  cbn [mbind option_bind process_demands].
  by rewrite process_demand_skipped.
Qed.

(** A destination that no link mentions has no address, so a demand to it
    is skipped. *)
Lemma unreferenced_destination_skipped (bind_link : nat -> LinkBinding)
    (topo : Topology D) (demand : TrafficDemand D) :
  (forall l, l ∈ g_links topo ->
     dm_dstId demand <> srcId l /\ dm_dstId demand <> dstId l) ->
  demand_skipped fuel topo (setup_links bind_link 0 (g_links topo) no_interfaces) demand.
Proof.
  intros Hno. left. apply eq_None_not_Some. rewrite setup_links_firstIp.
  intros [[x Hx]|(l & Hl & Hj)]; [done|]. destruct (Hno l Hl). by destruct Hj.
Qed.

End Demands.

Section Unreferenced.
Context {D : Type} `{Double D}.

(** A demand whose destination no link mentions produces nothing. *)
Theorem unreferenced_destination_no_flow (bind_link : nat -> LinkBinding)
    (fuel : nat) (simTime : D) (topo : Topology D) (demand : TrafficDemand D)
    (st : Sim D) :
  (forall l, l ∈ g_links topo ->
     dm_dstId demand <> srcId l /\ dm_dstId demand <> dstId l) ->
  process_demand fuel simTime topo
    (setup_links bind_link 0 (g_links topo) no_interfaces) demand st = Some st.
Proof.
  intros Hno. apply process_demand_skipped.
  by apply unreferenced_destination_skipped.
Qed.

End Unreferenced.

Lemma unreferenced_destination_no_flow_witness :
  process_demand (D := float) 10 10%float sample_topology sample_interfaces
    (sample_demand 3 "A" "Z" 0 9) initial_sim = Some initial_sim.
Proof.
  apply (unreferenced_destination_no_flow (D := float) sample_bind_link 10 10%float
           sample_topology (sample_demand 3 "A" "Z" 0 9) initial_sim).
  intros l Hl. vm_compute in Hl.
  repeat (apply elem_of_cons in Hl as [-> | Hl]; [cbn; lia|]).
  by apply elem_of_nil in Hl.
Defined.

(** A demand to a node that no link mentions, ahead of the demand from A
    to D. *)
Lemma skipped_demand_no_effect_witness :
  process_demands (D := float) 10 10%float sample_topology sample_interfaces
    [sample_demand 3 "A" "Z" 0 9; sample_demand 0 "A" "D" 0 3] initial_sim =
  process_demands (D := float) 10 10%float sample_topology sample_interfaces
    [sample_demand 0 "A" "D" 0 3] initial_sim.
Proof.
  apply (skipped_demand_no_effect (D := float) 10 10%float sample_topology sample_interfaces
           (sample_demand 3 "A" "Z" 0 9) [] [sample_demand 0 "A" "D" 0 3] initial_sim).
  left. vm_compute. reflexivity.
Defined.

(** ** Statistics *)

Lemma link_lost_max (st : LinkStats) :
  (0 <= rxPackets st)%Z -> (txPackets st < 2 ^ 64)%Z ->
  link_lost st = Z.max (txPackets st - rxPackets st) 0.
Proof.
  intros Hrx Htx. unfold link_lost, wrap64.
  destruct (Z.leb_spec (rxPackets st) (txPackets st)).
  - rewrite Z.mod_small by lia. lia.
  - lia.
Qed.

Lemma flow_lost_max (s : FlowStats) :
  (0 <= fs_rxPackets s)%Z -> (fs_txPackets s < 2 ^ 32)%Z ->
  flow_lost s = Z.max (fs_txPackets s - fs_rxPackets s) 0.
Proof.
  intros Hrx Htx. unfold flow_lost, wrap32.
  destruct (Z.ltb_spec (fs_rxPackets s) (fs_txPackets s)).
  - rewrite Z.mod_small by lia. lia.
  - lia.
Qed.

(** The rows of the per-link report come from a link and its counters. *)
Lemma SaveLinkStats_rows {D} (links : list (LinkParam D)) (stats : list LinkStats)
    (rows : list LinkRow) (row : LinkRow) :
  SaveLinkStats links stats = Some rows -> row ∈ rows ->
  exists lp st, lp ∈ links /\ st ∈ stats /\
    row = mkLinkRow (srcName lp) (dstName lp) (txPackets st) (rxPackets st)
                    (link_lost st) (link_plr st).
Proof.
  unfold SaveLinkStats. intros E Hrow. apply mapM_Some in E.
  apply list_elem_of_lookup in Hrow as [i Hi].
  destruct (Forall2_lookup_r _ _ _ _ _ E Hi) as (k & Hk & Ek).
  apply bind_Some in Ek as (lp & Elp & Ek). apply bind_Some in Ek as (st & Est & Ek).
  injection Ek as <-. exists lp, st.
  split; [by eapply list_elem_of_lookup_2|]. split; [by eapply list_elem_of_lookup_2|done].
Qed.

(** The per-link report is written when there is a counter for each link,
    as there is after [g_linkStats.resize(g_links.size())]. *)
Lemma SaveLinkStats_returns {D} (links : list (LinkParam D)) (stats : list LinkStats) :
  length links <= length stats -> is_Some (SaveLinkStats links stats).
Proof.
  intros Hlen. unfold SaveLinkStats.
  assert (forall l : list nat, (forall i, i ∈ l -> i < length links) ->
            is_Some (mapM (fun i => lp ← links !! i; st ← stats !! i;
                             Some (mkLinkRow (srcName lp) (dstName lp) (txPackets st)
                                     (rxPackets st) (link_lost st) (link_plr st))) l)) as Hall.
  { induction l as [|i l IH]; intros Hl; [by eexists|].
    destruct (lookup_lt_is_Some_2 links i) as [lp Elp]; [apply Hl; by left|].
    destruct (lookup_lt_is_Some_2 stats i) as [st Est].
    { assert (i < length links) by (apply Hl; by left). lia. }
    destruct IH as [rows Erows]; [intros j Hj; apply Hl; by right|].
    cbn [mapM]. rewrite Elp. cbn [mbind option_bind]. rewrite Est.
    cbn [mbind option_bind]. rewrite Erows. by eexists. }
  apply Hall. intros i Hi. apply elem_of_seq in Hi. lia.
Qed.

(** The rows of the per-flow report come from the flows of the monitor. *)
Lemma SaveResults_rows (flows : list (Z * FlowStats)) (row : FlowRow) :
  row ∈ SaveResults flows ->
  exists id s, (id, s) ∈ flows /\
    row = mkFlowRow id (fs_txPackets s) (fs_rxPackets s) (flow_lost s)
                    (flow_tp s) (flow_dl s) (flow_jt s) (flow_pl s).
Proof.
  unfold SaveResults. intros Hrow. apply list_elem_of_fmap in Hrow as ([id s] & -> & Hin).
  by exists id, s.
Qed.



(** The throughput is [rxBytes * 8 / duration / 1e6] on doubles, and 0
    when nothing was received or the duration is not positive. *)
Lemma flow_tp_correct (s : FlowStats) :
  let dur := PrimFloat.sub (fs_timeLastRxPacket_s s) (fs_timeFirstTxPacket_s s) in
  flow_tp s =
    if (fs_rxPackets s <=? 0)%Z || negb (PrimFloat.ltb PrimFloat.zero dur)
    then PrimFloat.zero
    else PrimFloat.div
           (PrimFloat.div (PrimFloat.mul (double_of_Z (fs_rxBytes s)) 8%float) dur)
           1000000%float.
Proof.
  unfold flow_tp. cbv zeta.
  destruct (Z.ltb_spec 0 (fs_rxPackets s)), (Z.leb_spec (fs_rxPackets s) 0); try lia.
  - cbn [orb]. by destruct (PrimFloat.ltb _ _).
  - done.
Qed.

(** 125000 bytes received within one second are 1 Mbps. *)
Lemma flow_tp_example (tx rx ds js : Z) :
  (0 < rx)%Z ->
  flow_tp (mkFlowStats tx rx 125000 0%float 1%float ds js) = 1%float.
Proof.
  intros Hrx. unfold flow_tp. cbn [fs_rxPackets].
  destruct (Z.ltb_spec 0 rx); [|lia]. vm_compute. reflexivity.
Qed.


(** A notification counts one packet on its own link, touches no other
    link, and does nothing for an index out of range. *)
Theorem link_callbacks_frame (i j : nat) (stats : list LinkStats) :
  length (LinkTxCallback i stats) = length stats /\
  length (LinkRxCallback i stats) = length stats /\
  (i <> j -> LinkTxCallback i stats !! j = stats !! j /\
             LinkRxCallback i stats !! j = stats !! j) /\
  (forall st, stats !! i = Some st ->
     txPackets <$> LinkTxCallback i stats !! i = Some (wrap64 (txPackets st + 1)) /\
     rxPackets <$> LinkTxCallback i stats !! i = Some (rxPackets st) /\
     rxPackets <$> LinkRxCallback i stats !! i = Some (wrap64 (rxPackets st + 1)) /\
     txPackets <$> LinkRxCallback i stats !! i = Some (txPackets st)) /\
  (length stats <= i -> LinkTxCallback i stats = stats /\ LinkRxCallback i stats = stats).
Proof.
  unfold LinkTxCallback, LinkRxCallback.
  destruct (stats !! i) as [st|] eqn:E.
  - pose proof (lookup_lt_Some _ _ _ E) as Hi.
    rewrite !length_insert. split; [done|]. split; [done|]. split; [|split].
    + intros Hne. by rewrite !list_lookup_insert_ne.
    + intros st' [= <-]. by rewrite !list_lookup_insert_eq.
    + lia.
  - split; [done|]. split; [done|]. split; [done|]. split; [done|]. done.
Qed.

(** The mean delay and the mean jitter are integer quotients. *)
Lemma flow_dl_quot (s : FlowStats) :
  flow_dl s = if (0 <? fs_rxPackets s)%Z
              then double_of_Z (fs_delaySum_ms s ÷ fs_rxPackets s) else PrimFloat.zero.
Proof. reflexivity. Qed.

(** C7, the program at the failing input.  For a flow that received two
    packets with a delay sum of 5 ms and a jitter sum of 3 ms the row of
    the per-flow report gives a mean delay of 2 and a mean jitter of 1,
    where the sums divided by the packet count are 2.5 and 1.5. *)
Lemma flow_mean_delay_truncated :
  map fr_meanDelayMs (SaveResults [(1%Z, flow_5ms_2rx)]) = [2%float] /\
  PrimFloat.div (double_of_Z (fs_delaySum_ms flow_5ms_2rx))
                (double_of_Z (fs_rxPackets flow_5ms_2rx)) = 2.5%float /\
  map fr_meanJitterMs (SaveResults [(1%Z, flow_5ms_2rx)]) = [1%float] /\
  PrimFloat.div (double_of_Z (fs_jitterSum_ms flow_5ms_2rx))
                (double_of_Z (fs_rxPackets flow_5ms_2rx)) = 1.5%float.
Proof. repeat split; vm_compute; reflexivity. Qed.

(** The mean delay and the mean jitter of the per-flow report are whole
    numbers of milliseconds: for a flow that received packets, with sums
    that are not negative, each is the sum divided by the number of
    packets received and rounded down, converted to a double; for a flow
    that received nothing both are 0. *)
Theorem flow_mean_delay_floor (flows : list (Z * FlowStats)) (row : FlowRow) :
  row ∈ SaveResults flows ->
  exists id s, (id, s) ∈ flows /\ fr_flowId row = id /\
    ((0 < fs_rxPackets s)%Z -> (0 <= fs_delaySum_ms s)%Z -> (0 <= fs_jitterSum_ms s)%Z ->
     exists qd qj : Z,
       fr_meanDelayMs row = double_of_Z qd /\
       (fs_rxPackets s * qd <= fs_delaySum_ms s < fs_rxPackets s * (qd + 1))%Z /\
       fr_meanJitterMs row = double_of_Z qj /\
       (fs_rxPackets s * qj <= fs_jitterSum_ms s < fs_rxPackets s * (qj + 1))%Z) /\
    ((fs_rxPackets s <= 0)%Z ->
     fr_meanDelayMs row = PrimFloat.zero /\ fr_meanJitterMs row = PrimFloat.zero /\
     fr_throughputMbps row = PrimFloat.zero).
Proof.
  intros Hrow. destruct (SaveResults_rows _ _ Hrow) as (id & s & Hs & ->).
  exists id, s. split; [done|]. split; [done|].
  cbn [fr_meanDelayMs fr_meanJitterMs fr_throughputMbps]. unfold flow_dl, flow_jt, flow_tp.
  split.
  - intros Hrx Hd Hj. destruct (Z.ltb_spec 0 (fs_rxPackets s)); [|lia].
    exists (fs_delaySum_ms s ÷ fs_rxPackets s)%Z, (fs_jitterSum_ms s ÷ fs_rxPackets s)%Z.
    rewrite !Z.quot_div_nonneg by lia.
    pose proof (Z.mul_div_le (fs_delaySum_ms s) (fs_rxPackets s) Hrx).
    pose proof (Z.mul_succ_div_gt (fs_delaySum_ms s) (fs_rxPackets s) Hrx).
    pose proof (Z.mul_div_le (fs_jitterSum_ms s) (fs_rxPackets s) Hrx).
    pose proof (Z.mul_succ_div_gt (fs_jitterSum_ms s) (fs_rxPackets s) Hrx).
    repeat split; lia.
  - intros Hrx. destruct (Z.ltb_spec 0 (fs_rxPackets s)); [lia|done].
Qed.

Lemma flow_mean_delay_floor_witness :
  exists id s, (id, s) ∈ [(1%Z, flow_5ms_2rx)] /\ id = 1%Z /\
    exists qd qj : Z,
      double_of_Z 2 = double_of_Z qd /\
      (fs_rxPackets s * qd <= fs_delaySum_ms s < fs_rxPackets s * (qd + 1))%Z /\
      double_of_Z 1 = double_of_Z qj /\
      (fs_rxPackets s * qj <= fs_jitterSum_ms s < fs_rxPackets s * (qj + 1))%Z.
Proof.
  destruct (flow_mean_delay_floor [(1%Z, flow_5ms_2rx)]
              (mkFlowRow 1 2 2 0 (flow_tp flow_5ms_2rx) (double_of_Z 2) (double_of_Z 1)
                 (flow_pl flow_5ms_2rx)))
    as (id & s & Hs & Hid & Hpos & _).
  - apply list_elem_of_singleton. reflexivity.
  - exists id, s. split; [exact Hs|]. split; [by rewrite <- Hid|].
    apply list_elem_of_singleton in Hs. injection Hs as _ ->.
    apply Hpos; cbn; lia.
Defined.

(** ** [Trim] *)

Lemma los_app (a b : string) :
  list_ascii_of_string (a +:+ b) = list_ascii_of_string a ++ list_ascii_of_string b.
Proof. induction a as [|c a IH]; [done|]. simpl. by rewrite IH. Qed.

Lemma los_substring (s : string) (n m : nat) :
  list_ascii_of_string (String.substring n m s) = take m (drop n (list_ascii_of_string s)).
Proof.
  revert n m. induction s as [|c s IH]; intros n m.
  - destruct n, m; done.
  - destruct n as [|n].
    + destruct m as [|m]; [done|]. cbn. by rewrite IH.
    + cbn. by rewrite IH.
Qed.

Lemma los_inj (a b : string) : list_ascii_of_string a = list_ascii_of_string b -> a = b.
Proof.
  intros E. rewrite <- (string_of_list_ascii_of_string a), <- (string_of_list_ascii_of_string b).
  by rewrite E.
Qed.

Lemma find_first_not_space_spec (s : string) :
  match find_first_not_space s with
  | None => all_space s
  | Some i => Forall (fun c => is_space c = true) (take i (list_ascii_of_string s)) /\
              exists c, list_ascii_of_string s !! i = Some c /\ is_space c = false
  end.
Proof.
  induction s as [|c s IH]; cbn; [by constructor|].
  destruct (is_space c) eqn:Ec.
  - destruct (find_first_not_space s) as [i|]; cbn.
    + destruct IH as [IH1 IH2]. split; [by constructor|done].
    + by constructor.
  - split; [constructor|]. by exists c.
Qed.

Lemma find_last_not_space_spec (s : string) :
  match find_last_not_space s with
  | None => all_space s
  | Some j => Forall (fun c => is_space c = true) (drop (S j) (list_ascii_of_string s)) /\
              exists c, list_ascii_of_string s !! j = Some c /\ is_space c = false
  end.
Proof.
  induction s as [|c s IH]; cbn; [by constructor|].
  destruct (find_last_not_space s) as [j|].
  - done.
  - destruct (is_space c) eqn:Ec; [by constructor|].
    split; [done|]. by exists c.
Qed.

(** The list of characters of [Trim s]. *)
Lemma Trim_chars (s : string) :
  exists pre post,
    list_ascii_of_string s = pre ++ list_ascii_of_string (Trim s) ++ post /\
    Forall (fun c => is_space c = true) pre /\
    Forall (fun c => is_space c = true) post /\
    no_outer_space (Trim s).
Proof.
  unfold Trim. pose proof (find_first_not_space_spec s) as Hf.
  pose proof (find_last_not_space_spec s) as Hl.
  set (l := list_ascii_of_string s) in *.
  destruct (find_first_not_space s) as [i|].
  - destruct Hf as [Hpre (c1 & Hc1 & Hs1)].
    destruct (find_last_not_space s) as [j|].
    + destruct Hl as [Hpost (c2 & Hc2 & Hs2)].
      assert (i <= j) as Hij.
      { destruct (decide (i <= j)); [done|].
        assert (c1 ∈ drop (S j) l) as Hin.
        { apply list_elem_of_lookup. exists (i - S j). rewrite lookup_drop.
          by replace (S j + (i - S j)) with i by lia. }
        rewrite Forall_forall in Hpost. rewrite (Hpost _ Hin) in Hs1. done. }
      assert (j < length l) as Hj by (by eapply lookup_lt_Some).
      exists (take i l), (drop (S j) l). unfold no_outer_space. rewrite los_substring. fold l.
      split; [|split; [done|split; [done|]]].
      * rewrite <- (take_drop i l) at 1. f_equal.
        rewrite <- (take_drop (j - i + 1) (drop i l)) at 1. f_equal.
        rewrite drop_drop. f_equal. lia.
      * intros c [Hc|Hc].
        -- rewrite head_lookup, lookup_take_lt, lookup_drop in Hc by lia.
           replace (i + 0) with i in Hc by lia. congruence.
        -- rewrite last_lookup, length_take, length_drop in Hc.
           replace (Init.Nat.pred ((j - i + 1) `min` (length l - i))) with (j - i) in Hc by lia.
           rewrite lookup_take_lt, lookup_drop in Hc by lia.
           replace (i + (j - i)) with j in Hc by lia. congruence.
    + exfalso. unfold all_space in Hl. fold l in Hl. rewrite Forall_forall in Hl.
      rewrite (Hl c1) in Hs1; [done|]. by eapply list_elem_of_lookup_2.
  - exists [], l. cbn. split; [done|]. split; [constructor|]. split; [done|].
    intros c [Hc|Hc]; done.
Qed.

(** A prefix of removable characters ends before the first other one. *)
Lemma space_prefix_bound (pre1 rest1 pre2 rest2 : list ascii) (c : ascii) :
  pre1 ++ rest1 = pre2 ++ c :: rest2 ->
  Forall (fun c => is_space c = true) pre1 -> is_space c = false ->
  length pre1 <= length pre2.
Proof.
  intros E Hp1 Hc. destruct (decide (length pre1 <= length pre2)); [done|]. exfalso.
  assert ((pre2 ++ c :: rest2) !! length pre2 = Some c) as Hl.
  { rewrite lookup_app_r by lia. by replace (length pre2 - length pre2) with 0 by lia. }
  rewrite <- E, lookup_app_l in Hl by lia.
  rewrite Forall_forall in Hp1. rewrite (Hp1 c) in Hc; [done|].
  by eapply list_elem_of_lookup_2.
Qed.

Lemma space_suffix_bound (rest1 post1 rest2 post2 : list ascii) (c : ascii) :
  rest1 ++ post1 = (rest2 ++ [c]) ++ post2 ->
  Forall (fun c => is_space c = true) post1 -> is_space c = false ->
  length post1 <= length post2.
Proof.
  intros E Hp1 Hc. apply (f_equal reverse) in E.
  rewrite !reverse_app, reverse_singleton in E. cbn in E.
  rewrite <- (length_reverse post1), <- (length_reverse post2).
  eapply space_prefix_bound; [exact E| |exact Hc].
  by apply Forall_reverse.
Qed.

Lemma last_snoc_inv {A} (l : list A) (x : A) :
  last l = Some x -> exists l', l = l' ++ [x].
Proof.
  intros E. destruct l as [|y l _] using rev_ind; [done|].
  rewrite last_snoc in E. injection E as ->. by exists l.
Qed.

(** The decomposition determines the middle part. *)
Lemma trim_unique (pre1 t1 post1 pre2 t2 post2 : list ascii) :
  pre1 ++ t1 ++ post1 = pre2 ++ t2 ++ post2 ->
  Forall (fun c => is_space c = true) pre1 -> Forall (fun c => is_space c = true) post1 ->
  Forall (fun c => is_space c = true) pre2 -> Forall (fun c => is_space c = true) post2 ->
  (forall c, head t1 = Some c \/ last t1 = Some c -> is_space c = false) ->
  (forall c, head t2 = Some c \/ last t2 = Some c -> is_space c = false) ->
  t1 = t2.
Proof.
  intros E Hp1 Ho1 Hp2 Ho2 H1 H2.
  assert (forall (pre post pre' t' post' : list ascii),
            pre ++ post = pre' ++ t' ++ post' ->
            Forall (fun c => is_space c = true) pre ->
            Forall (fun c => is_space c = true) post ->
            (forall c, head t' = Some c \/ last t' = Some c -> is_space c = false) ->
            t' = []) as Hblank.
  { intros pre post pre' t' post' E' Hpre Hpost Ht'.
    destruct t' as [|c t']; [done|]. exfalso.
    assert (is_space c = false) as Hc by (apply Ht'; by left).
    assert (c ∈ pre ++ post) as Hin by (rewrite E'; set_solver).
    assert (Forall (fun c => is_space c = true) (pre ++ post)) as Hall
      by (by apply Forall_app).
    rewrite Forall_forall in Hall. rewrite (Hall c Hin) in Hc. done. }
  destruct t1 as [|c1 t1].
  { symmetry. by eapply (Hblank pre1 post1 pre2 t2 post2). }
  destruct t2 as [|c2 t2].
  { by eapply (Hblank pre2 post2 pre1 (c1 :: t1) post1). }
  assert (is_space c1 = false) as Hc1 by (apply H1; by left).
  assert (is_space c2 = false) as Hc2 by (apply H2; by left).
  assert (length pre1 = length pre2) as Hlen.
  { apply Nat.le_antisymm.
    - eapply (space_prefix_bound pre1 _ pre2 _ c2); [exact E|done|done].
    - eapply (space_prefix_bound pre2 _ pre1 _ c1); [symmetry; exact E|done|done]. }
  destruct (app_inj_1 _ _ _ _ Hlen E) as [_ E2].
  destruct (last (c1 :: t1)) as [d1|] eqn:El1; [|by apply last_None in El1].
  destruct (last (c2 :: t2)) as [d2|] eqn:El2; [|by apply last_None in El2].
  assert (is_space d1 = false) as Hd1 by (apply H1; by right).
  assert (is_space d2 = false) as Hd2 by (apply H2; by right).
  destruct (last_snoc_inv _ _ El1) as [m1 Em1]. destruct (last_snoc_inv _ _ El2) as [m2 Em2].
  rewrite Em1, Em2 in E2 |- *.
  assert (length post1 = length post2) as Hlen2.
  { apply Nat.le_antisymm.
    - eapply (space_suffix_bound _ post1 m2 post2 d2); [exact E2|done|done].
    - eapply (space_suffix_bound _ post2 m1 post1 d1); [symmetry; exact E2|done|done]. }
  by destruct (app_inj_2 _ _ _ _ Hlen2 E2).
Qed.

(** [Trim s] is [s] without the spaces, tabs, carriage returns and line
    feeds at its two ends, and nothing else: [s] is [Trim s] between two
    runs of such characters, [Trim s] neither starts nor ends with one,
    and it is the only string of which both hold. *)
Theorem Trim_spec (s : string) :
  (exists pre post,
     s = pre +:+ Trim s +:+ post /\ all_space pre /\ all_space post /\
     no_outer_space (Trim s)) /\
  (forall pre t post,
     s = pre +:+ t +:+ post -> all_space pre -> all_space post -> no_outer_space t ->
     Trim s = t).
Proof.
  destruct (Trim_chars s) as (pre & post & E & Hpre & Hpost & Hno). split.
  - exists (string_of_list_ascii pre), (string_of_list_ascii post).
    split; [|split; [|split]].
    + apply los_inj. by rewrite !los_app, !list_ascii_of_string_of_list_ascii.
    + unfold all_space. by rewrite list_ascii_of_string_of_list_ascii.
    + unfold all_space. by rewrite list_ascii_of_string_of_list_ascii.
    + done.
  - intros pre' t post' -> Hpre' Hpost' Hno'. apply los_inj.
    rewrite !los_app in E.
    by eapply (trim_unique pre _ post (list_ascii_of_string pre') _
                 (list_ascii_of_string post')).
Qed.

(** Trimming twice is trimming once; a string that neither starts nor
    ends with a removable character is left as it is; and a line is blank
    for the loaders exactly when it consists of such characters. *)
Theorem Trim_idempotent (s : string) :
  Trim (Trim s) = Trim s /\
  (Trim s = s <-> no_outer_space s) /\
  (blank_line s = true <-> all_space s).
Proof.
  destruct (Trim_chars s) as (pre & post & E & Hpre & Hpost & Hno).
  assert (forall t, no_outer_space t -> Trim t = t) as Hfix.
  { intros t Ht. destruct (Trim_chars t) as (pre' & post' & E' & Hpre' & Hpost' & Hno').
    apply los_inj.
    eapply (trim_unique pre' _ post' [] _ []); try done.
    by rewrite app_nil_r. }
  split; [by apply Hfix|]. split.
  - split; [intros <-; done|apply Hfix].
  - unfold blank_line. split.
    + intros Hb. destruct (Trim s) eqn:Et; [|done]. cbn in E.
      unfold all_space. rewrite E. by apply Forall_app.
    + intros Hall. unfold all_space in Hall.
      assert (list_ascii_of_string (Trim s) = []) as Hnil.
      { eapply (trim_unique pre _ post (list_ascii_of_string s) [] []); try done.
        - by rewrite app_nil_r.
        - intros c [Hc|Hc]; done. }
      destruct (Trim s); done.
Qed.

(** ** What [LoadLinks] needs and what it names *)

Section LoaderTotal.
Context {D : Type} `{Double D}.
Variable parse_link : string -> option (LinkParam D).

Lemma load_link_rows_fold (rows : list string) (t : Topology D) :
  foldl (load_link_row parse_link) t rows =
  foldl (fun t p => store_link (coerce_link p) t) t
        (omap (fun line => if blank_line line then None else parse_link line) rows).
Proof.
  revert t. induction rows as [|line rows IH]; intros t; [done|].
  cbn [foldl]. rewrite IH. unfold load_link_row. cbn [omap list_omap].
  change (list_omap _ _ ?f ?l) with (omap f l).
  destruct (blank_line line); [done|]. by destruct (parse_link line).
Qed.

Lemma coerce_link_ids (p : LinkParam D) :
  srcId (coerce_link p) = srcId p /\ dstId (coerce_link p) = dstId p /\
  srcName (coerce_link p) = srcName p /\ dstName (coerce_link p) = dstName p.
Proof. done. Qed.

(** The node count after storing links whose ids are below [2^32 - 1]. *)
Lemma store_links_numNodes (ps : list (LinkParam D)) (t : Topology D) :
  (forall p, p ∈ ps ->
     (Z.of_nat (srcId p) < 2 ^ 32 - 1)%Z /\ (Z.of_nat (dstId p) < 2 ^ 32 - 1)%Z) ->
  g_numNodes (foldl (fun t p => store_link (coerce_link p) t) t ps) =
  g_numNodes t `max` max_list (map (fun p => S (srcId p `max` dstId p)) ps).
Proof.
  revert t. induction ps as [|p ps IH]; intros t Hps; [cbn; lia|].
  cbn [foldl map max_list]. rewrite IH by (intros q Hq; apply Hps; by right).
  destruct (Hps p) as [Hs Hd]; [by left|].
  cbn [store_link g_numNodes coerce_link srcId dstId].
  unfold wrap32. rewrite Z.mod_small by lia.
  replace (Z.to_nat (Z.of_nat (srcId p `max` dstId p) + 1)) with (S (srcId p `max` dstId p)) by lia.
  unfold id. destruct (Nat.ltb_spec (g_numNodes t) (S (srcId p `max` dstId p))); lia.
Qed.

(** The node count never decreases while rows are stored. *)
Lemma store_links_numNodes_mono (ps : list (LinkParam D)) (t : Topology D) :
  g_numNodes t <= g_numNodes (foldl (fun t p => store_link (coerce_link p) t) t ps).
Proof.
  revert t. induction ps as [|p ps IH]; intros t; [done|].
  cbn [foldl]. etrans; [|apply IH]. cbn [store_link g_numNodes].
  destruct (Nat.ltb_spec (g_numNodes t)
              (Z.to_nat (wrap32 (Z.of_nat (srcId (coerce_link p) `max` dstId (coerce_link p)) + 1))));
    lia.
Qed.

Lemma store_links_numNodes_bound (ps : list (LinkParam D)) (t : Topology D) (p : LinkParam D) :
  p ∈ ps ->
  (Z.of_nat (srcId p) < 2 ^ 32 - 1)%Z -> (Z.of_nat (dstId p) < 2 ^ 32 - 1)%Z ->
  srcId p `max` dstId p <
    g_numNodes (foldl (fun t p => store_link (coerce_link p) t) t ps).
Proof.
  revert t. induction ps as [|q ps IH]; intros t Hin Hs Hd; [by apply elem_of_nil in Hin|].
  cbn [foldl]. apply elem_of_cons in Hin as [<-|Hin]; [|by apply IH].
  eapply Nat.lt_le_trans; [|apply store_links_numNodes_mono].
  cbn [store_link g_numNodes coerce_link srcId dstId].
  unfold wrap32. rewrite Z.mod_small by lia.
  destruct (Nat.ltb_spec (g_numNodes t) (Z.to_nat (Z.of_nat (srcId p `max` dstId p) + 1))); lia.
Qed.

Lemma store_links_links (ps : list (LinkParam D)) (t : Topology D) :
  g_links (foldl (fun t p => store_link (coerce_link p) t) t ps) =
  g_links t ++ map coerce_link ps.
Proof.
  revert t. induction ps as [|p ps IH]; intros t; [by rewrite app_nil_r|].
  cbn [foldl map]. rewrite IH. cbn [store_link g_links]. by rewrite <- app_assoc.
Qed.

Lemma build_adj_returns (links : list (LinkParam D)) (adj : list (list (nat * D))) :
  (forall l, l ∈ links -> srcId l < length adj /\ dstId l < length adj) ->
  is_Some (build_adj links adj).
Proof.
  revert adj. induction links as [|l links IH]; intros adj Hl; [by eexists|].
  destruct (Hl l) as [Hs Hd]; [by left|]. cbn [build_adj]. unfold add_edge.
  destruct (lookup_lt_is_Some_2 adj (srcId l) Hs) as [es Ees]. rewrite Ees.
  cbn [mbind option_bind].
  destruct (lookup_lt_is_Some_2 (<[srcId l := es ++ [(dstId l, delayMs l)]]> adj) (dstId l))
    as [es' Ees']; [by rewrite length_insert|].
  rewrite Ees'. cbn [mbind option_bind]. apply IH.
  intros l' Hl'. rewrite !length_insert. apply Hl. by right.
Qed.

(** The names after storing links. *)
Lemma store_links_names (ps : list (LinkParam D)) (t : Topology D) (x : nat) :
  g_nodeIdToName (foldl (fun t p => store_link (coerce_link p) t) t ps) !! x =
  match last (filter (fun l => link_end l x) (map coerce_link ps)) with
  | Some l => Some (link_name l x)
  | None => g_nodeIdToName t !! x
  end.
Proof.
  revert t. induction ps as [|p ps IH] using rev_ind; intros t; [done|].
  rewrite foldl_app, map_app, filter_app.
  cbn [foldl store_link g_nodeIdToName map].
  rewrite filter_cons, filter_nil.
  destruct (decide (link_end (coerce_link p) x)) as [Hx|Hx].
  - rewrite last_snoc. unfold link_name. destruct (decide (x = dstId (coerce_link p))) as [->|Hd].
    + by rewrite lookup_insert_eq.
    + destruct Hx as [->|?]; [|done]. rewrite lookup_insert_ne by naive_solver.
      by rewrite lookup_insert_eq.
  - rewrite app_nil_r. unfold link_end in Hx.
    rewrite !lookup_insert_ne by naive_solver. apply IH.
Qed.

Lemma length_resize {A} (n : nat) (v : list (list A)) : length (resize n v) = n.
Proof. unfold resize. rewrite length_app, length_take, length_replicate. lia. Qed.

(** [LoadLinks] returns exactly when no accepted row has the id
    [2^32 - 1], for which [max(srcId, dstId) + 1] wraps to 0 and the node
    is left out of the adjacency lists that are then indexed with it; the
    node count is then one more than the largest id. *)
Theorem LoadLinks_returns (file : option (list string)) :
  (forall p, p ∈ accepted_rows parse_link file ->
     (Z.of_nat (srcId p) < 2 ^ 32)%Z /\ (Z.of_nat (dstId p) < 2 ^ 32)%Z) ->
  (is_Some (LoadLinks parse_link file empty_topology) <->
   forall p, p ∈ accepted_rows parse_link file ->
     Z.of_nat (srcId p) <> (2 ^ 32 - 1)%Z /\ Z.of_nat (dstId p) <> (2 ^ 32 - 1)%Z) /\
  (forall ok topo,
     LoadLinks parse_link file empty_topology = Some (ok, topo) ->
     g_numNodes topo =
       max_list (map (fun p => S (srcId p `max` dstId p)) (accepted_rows parse_link file))).
Proof.
  intros Hrange.
  assert (forall ok topo, LoadLinks parse_link file empty_topology = Some (ok, topo) ->
            forall p, p ∈ accepted_rows parse_link file ->
              (Z.of_nat (srcId p) < 2 ^ 32 - 1)%Z /\ (Z.of_nat (dstId p) < 2 ^ 32 - 1)%Z)
    as Hsome.
  { intros ok topo EL p Hp.
    destruct (LoadLinks_topology _ _ _ _ EL) as (Hn & _ & Hends & _).
    destruct (LoadLinks_links _ _ _ _ EL) as [Hl _].
    destruct (Hends (coerce_link p)) as [Hs Hd].
    { rewrite Hl. apply list_elem_of_fmap. by exists p. }
    cbn [coerce_link srcId dstId] in Hs, Hd. lia. }
  split; [split|].
  - intros [[ok topo] EL] p Hp. destruct (Hsome ok topo EL p Hp). lia.
  - intros Hne. destruct file as [lines|]; [|by eexists]. cbn [LoadLinks accepted_rows] in *.
    rewrite load_link_rows_fold.
    set (ps := omap _ (drop 1 lines)) in *.
    set (t1 := foldl _ empty_topology ps).
    destruct (build_adj_returns (g_links t1) (resize (g_numNodes t1) (g_adjList t1)))
      as [adj Eadj]; [|rewrite Eadj; by eexists].
    intros l Hl. rewrite length_resize. unfold t1 in Hl |- *.
    rewrite store_links_links in Hl. cbn [g_links empty_topology app] in Hl.
    apply list_elem_of_fmap in Hl as (p & -> & Hp).
    cbn [coerce_link srcId dstId].
    destruct (Hrange p Hp), (Hne p Hp).
    pose proof (store_links_numNodes_bound ps empty_topology p Hp). lia.
  - intros ok topo EL. pose proof (Hsome ok topo EL) as Hlt.
    destruct file as [lines|]; cbn [LoadLinks accepted_rows] in *.
    + apply bind_Some in EL as (adj & _ & EL). injection EL as _ <-.
      cbn [g_numNodes]. rewrite load_link_rows_fold.
      rewrite store_links_numNodes by done. cbn [g_numNodes empty_topology]. lia.
    + by injection EL as _ <-.
Qed.

(** The entry of a node in [g_nodeIdToName] after [LoadLinks]. *)
Lemma loaded_names_lookup (file : option (list string)) (ok : bool) (topo : Topology D)
    (x : nat) :
  LoadLinks parse_link file empty_topology = Some (ok, topo) ->
  g_nodeIdToName topo !! x =
    match last (filter (fun l => link_end l x) (g_links topo)) with
    | Some l => Some (link_name l x)
    | None => None
    end.
Proof.
  intros EL. destruct file as [lines|]; cbn [LoadLinks] in EL.
  - apply bind_Some in EL as (adj & _ & EL). injection EL as _ <-.
    cbn [g_nodeIdToName g_links]. rewrite load_link_rows_fold.
    rewrite store_links_names, store_links_links. cbn [g_links empty_topology app].
    destruct (last _); [done|]. cbn [g_nodeIdToName empty_topology].
    by rewrite lookup_empty.
  - injection EL as _ <-. cbn. by rewrite lookup_empty.
Qed.

(** After [LoadLinks], the name kept for a node is the one given by the
    last stored link that mentions it, its destination name if the link
    has the node at both ends, and a node that no link mentions has no
    name, so [GetNodeName] makes one up from its id. *)
Theorem LoadLinks_names (file : option (list string)) (ok : bool) (topo : Topology D)
    (x : nat) :
  LoadLinks parse_link file empty_topology = Some (ok, topo) ->
  GetNodeName (g_nodeIdToName topo) x =
    match last (filter (fun l => link_end l x) (g_links topo)) with
    | Some l => link_name l x
    | None => "Node_" +:+ pretty x
    end.
Proof.
  intros EL. unfold GetNodeName. rewrite (loaded_names_lookup _ _ _ x EL).
  by destruct (last _).
Qed.

End LoaderTotal.

(** ** Names on a route, and the maps of the link loop *)

Section PathNames.
Context {D : Type} `{Double D}.
Variable parse_link : string -> option (LinkParam D).

(** Every node of a path of two nodes or more is an endpoint of a link. *)
Lemma path_nodes_linked (file : option (list string)) (ok : bool) (topo : Topology D)
    (fuel src dst : nat) (r : DijkstraResult D) (path : list nat) (x : nat) :
  LoadLinks parse_link file empty_topology = Some (ok, topo) ->
  Dijkstra fuel (g_adjList topo) src (g_numNodes topo) = Some r ->
  GetPath src dst r = Some path ->
  2 <= length path -> x ∈ path ->
  exists l, l ∈ g_links topo /\ link_end l x.
Proof.
  intros EL ED EP Hlen Hx.
  destruct (LoadLinks_topology _ _ _ _ EL) as (Hn & _ & _ & Hedge).
  destruct (Dijkstra_safe _ _ _ _ _ Hn ED) as (Hs & _ & _).
  apply list_elem_of_lookup in Hx as [i Hi].
  pose proof (lookup_lt_Some _ _ _ Hi) as Hlt.
  destruct i as [|i].
  - destruct (lookup_lt_is_Some_2 path 1) as [y Hy]; [lia|].
    destruct (GetPath_steps _ _ _ _ _ Hs EP 0 x y Hi Hy) as (w & Hw & _).
    apply Hedge in Hw as (l & Hl & Hj & _). exists l. split; [done|].
    unfold link_end. destruct Hj as [[-> _]|[-> _]]; tauto.
  - destruct (lookup_lt_is_Some_2 path i) as [y Hy]; [lia|].
    destruct (GetPath_steps _ _ _ _ _ Hs EP i y x Hy Hi) as (w & Hw & _).
    apply Hedge in Hw as (l & Hl & Hj & _). exists l. split; [done|].
    unfold link_end. destruct Hj as [[_ ->]|[_ ->]]; tauto.
Qed.

(** The route report never shows a made-up name: every node of a path
    that is written to it is an endpoint of a link, and the name shown
    for it is the name that this link gives it. *)
Theorem route_report_names (file : option (list string)) (ok : bool) (topo : Topology D)
    (fuel src dst : nat) (r : DijkstraResult D) (path : list nat) :
  LoadLinks parse_link file empty_topology = Some (ok, topo) ->
  Dijkstra fuel (g_adjList topo) src (g_numNodes topo) = Some r ->
  GetPath src dst r = Some path ->
  2 <= length path ->
  forall x, x ∈ path ->
    exists l, l ∈ g_links topo /\ link_end l x /\
      GetNodeName (g_nodeIdToName topo) x = link_name l x.
Proof.
  intros EL ED EP Hlen x Hx.
  destruct (path_nodes_linked _ _ _ _ _ _ _ _ _ EL ED EP Hlen Hx) as (l0 & Hl0 & He0).
  unfold GetNodeName. rewrite (loaded_names_lookup _ _ _ _ x EL).
  destruct (last (filter (fun l => link_end l x) (g_links topo))) as [l|] eqn:El.
  - exists l. apply last_Some_elem_of in El. apply list_elem_of_filter in El as [? ?]. done.
  - apply last_None in El.
    assert (l0 ∈ filter (fun l => link_end l x) (g_links topo)) as Hin
      by (by apply list_elem_of_filter).
    rewrite El in Hin. by apply elem_of_nil in Hin.
Qed.

End PathNames.

Section SetupValues.
Context {D : Type}.
Variable bind_link : nat -> LinkBinding.
Lemma numbered_snoc (i : nat) (links : list (LinkParam D)) (l : LinkParam D) :
  numbered i (links ++ [l]) = numbered i links ++ [(i + length links, l)].
Proof.
  unfold numbered. rewrite length_app. cbn [length]. rewrite seq_app. cbn [seq].
  rewrite zip_with_app by (by rewrite length_seq). done.
Qed.

Lemma setup_links_snoc (i : nat) (links : list (LinkParam D)) (l : LinkParam D)
    (ifs : Interfaces) :
  setup_links bind_link i (links ++ [l]) ifs =
  setup_link bind_link (i + length links) l (setup_links bind_link i links ifs).
Proof.
  revert i ifs. induction links as [|l' links IH]; intros i ifs.
  - cbn. by rewrite Nat.add_0_r.
  - cbn [app setup_links length]. rewrite IH. f_equal. lia.
Qed.

Lemma setup_links_interface_value (links : list (LinkParam D)) (i : nat) (ifs : Interfaces)
    (x y : nat) :
  g_linkInterface (setup_links bind_link i links ifs) !! (x, y) =
  match last (filter (fun il => link_joins il.2 x y) (numbered i links)) with
  | Some (k, l) => Some (link_interface_entry (bind_link k) l x y)
  | None => g_linkInterface ifs !! (x, y)
  end.
Proof.
  induction links as [|l links IH] using rev_ind; [done|].
  rewrite setup_links_snoc, numbered_snoc, filter_app, filter_cons, filter_nil.
  cbn [setup_link g_linkInterface snd].
  destruct (decide (link_joins l x y)) as [Hj|Hj].
  - rewrite last_snoc. unfold link_interface_entry.
    destruct (decide (x = dstId l /\ y = srcId l)) as [[-> ->]|Hnd].
    + by rewrite lookup_insert_eq.
    + destruct Hj as [[-> ->]|?]; [|done].
      rewrite lookup_insert_ne by naive_solver. by rewrite lookup_insert_eq.
  - rewrite app_nil_r. unfold link_joins in Hj.
    rewrite !lookup_insert_ne by naive_solver. apply IH.
Qed.

Lemma setup_link_firstIp_value (i : nat) (l : LinkParam D) (ifs : Interfaces) (x : nat) :
  g_nodeFirstIp (setup_link bind_link i l ifs) !! x =
  match g_nodeFirstIp ifs !! x with
  | Some a => Some a
  | None => if decide (link_end l x) then Some (link_address (bind_link i) l x) else None
  end.
Proof.
  unfold setup_link, link_end, link_address. cbn [g_nodeFirstIp].
  destruct (decide (x = srcId l)) as [->|Hs].
  - destruct (g_nodeFirstIp ifs !! srcId l) as [a|] eqn:Es.
    + destruct (g_nodeFirstIp ifs !! dstId l) eqn:Ed; [by rewrite Es|].
      rewrite lookup_insert_ne; [by rewrite Es|]. intros E. rewrite E in Ed. congruence.
    + rewrite decide_True by tauto.
      destruct (decide (dstId l = srcId l)) as [E|Hne].
      * rewrite E, lookup_insert_eq. by rewrite lookup_insert_eq.
      * rewrite (lookup_insert_ne _ (srcId l) (dstId l)) by done.
        destruct (g_nodeFirstIp ifs !! dstId l) eqn:Ed.
        -- by rewrite lookup_insert_eq.
        -- rewrite lookup_insert_ne by done. by rewrite lookup_insert_eq.
  - set (fi1 := match g_nodeFirstIp ifs !! srcId l with
                | None => <[srcId l := address0 (bind_link i)]> (g_nodeFirstIp ifs)
                | Some _ => g_nodeFirstIp ifs
                end).
    assert (fi1 !! x = g_nodeFirstIp ifs !! x) as Hfi.
    { unfold fi1. destruct (g_nodeFirstIp ifs !! srcId l); [done|].
      by rewrite lookup_insert_ne. }
    rewrite <- Hfi. clearbody fi1.
    destruct (decide (x = dstId l)) as [->|Hd].
    + rewrite decide_True by tauto.
      destruct (fi1 !! dstId l) as [a|] eqn:E1; [done|].
      by rewrite lookup_insert_eq.
    + rewrite decide_False by tauto.
      destruct (fi1 !! dstId l) eqn:E1.
      * by destruct (fi1 !! x).
      * rewrite lookup_insert_ne by done. by destruct (fi1 !! x).
Qed.

Lemma setup_links_firstIp_value (links : list (LinkParam D)) (i : nat) (ifs : Interfaces)
    (x : nat) :
  g_nodeFirstIp (setup_links bind_link i links ifs) !! x =
  match g_nodeFirstIp ifs !! x with
  | Some a => Some a
  | None =>
      match head (filter (fun il => link_end il.2 x) (numbered i links)) with
      | Some (k, l) => Some (link_address (bind_link k) l x)
      | None => None
      end
  end.
Proof.
  revert i ifs. induction links as [|l links IH]; intros i ifs.
  - cbn. by destruct (_ !! x).
  - cbn [setup_links]. rewrite IH, setup_link_firstIp_value.
    unfold numbered. cbn [length seq zip zip_with].
    rewrite filter_cons. cbn [snd]. fold (numbered (S i) links).
    destruct (g_nodeFirstIp ifs !! x) as [a|]; [done|].
    destruct (decide (link_end l x)); done.
Qed.

End SetupValues.

Section LinkLoopMaps.
Context {D : Type}.
Variable bind_link : nat -> LinkBinding.

(** After the link loop the interface map has, for a pair of nodes, the
    entry of the last link that joins them, in the direction asked for:
    with several links between two nodes only the last one is used for
    routes, and a pair that no link joins has no entry. *)
Theorem link_interface_last (links : list (LinkParam D)) (x y : nat) :
  g_linkInterface (setup_links bind_link 0 links no_interfaces) !! (x, y) =
  match last (filter (fun il => link_joins il.2 x y) (numbered 0 links)) with
  | Some (k, l) => Some (link_interface_entry (bind_link k) l x y)
  | None => None
  end.
Proof.
  rewrite setup_links_interface_value. destruct (last _) as [[k l]|]; [done|].
  cbn. by rewrite lookup_empty.
Qed.

(** After the link loop the first address of a node is its address on
    the first link that mentions it, the address of the source end if the
    link has the node at both ends; a node that no link mentions has
    none. *)
Theorem node_first_address (links : list (LinkParam D)) (x : nat) :
  g_nodeFirstIp (setup_links bind_link 0 links no_interfaces) !! x =
  match head (filter (fun il => link_end il.2 x) (numbered 0 links)) with
  | Some (k, l) => Some (link_address (bind_link k) l x)
  | None => None
  end.
Proof.
  rewrite setup_links_firstIp_value. cbn [g_nodeFirstIp no_interfaces].
  by rewrite lookup_empty.
Qed.

End LinkLoopMaps.

Section DemandRows.
Context {D : Type} `{Double D}.
Variable parse_demand : string -> option (TrafficDemand D).

(** [LoadDemands] drops the first line of the file unread, also when it
    is a row of data; it keeps the rows that are not blank and that
    parse, in the order of the file, after the demands already loaded, and
    checks no field of them; it returns [false] when the file cannot be
    opened or no demand is loaded. *)
Theorem LoadDemands_rows (first : string) (rows : list string)
    (ds : list (TrafficDemand D)) :
  LoadDemands parse_demand None ds = (false, ds) /\
  LoadDemands parse_demand (Some []) ds = (negb (bool_decide (ds = [])), ds) /\
  LoadDemands parse_demand (Some (first :: rows)) ds =
    (negb (bool_decide
             (ds ++ omap (fun line => if blank_line line then None else parse_demand line)
                         rows = [])),
     ds ++ omap (fun line => if blank_line line then None else parse_demand line) rows).
Proof.
  split; [done|]. split; [done|]. unfold LoadDemands. cbn [drop].
  by rewrite load_demand_rows.
Qed.

End DemandRows.

Section IntIndex.
Context {D : Type} `{Double D}.

(** [GetPath] keeps the node in an [int]: for a destination id of 2^31
    or more that has a finite distance the first index into [prev] is
    negative, an access out of range. *)
Theorem GetPath_int_overflow (src dst : nat) (r : DijkstraResult D) (d : D) :
  dist r !! dst = Some d -> d_eqb d d_inf = false ->
  (2 ^ 31 <= Z.of_nat dst < 2 ^ 32 - 1)%Z ->
  GetPath src dst r = None.
Proof.
  intros Ed Einf Hdst. unfold GetPath. rewrite Ed. cbn [mbind option_bind]. rewrite Einf.
  assert (to_int dst < -1)%Z as Hneg.
  { unfold to_int, wrap32. rewrite Z.mod_small by lia.
    destruct (Z.ltb_spec (Z.of_nat dst) (2 ^ 31)); lia. }
  cbn [walk_prev]. destruct (Z.eqb_spec (to_int dst) (-1)); [lia|].
  unfold to_index. destruct (Z.ltb_spec (to_int dst) 0); [done|lia].
Qed.

End IntIndex.

(** ** The flows of the demand loop *)

Section DemandLoop.
Context {D : Type} `{Double D}.
Variable fuel : nat.
Variable simTime : D.

(** The two ways a turn of the demand loop ends. *)
Lemma process_demand_cases (topo : Topology D) (ifs : Interfaces)
    (demand : TrafficDemand D) (st st' : Sim D) :
  process_demand fuel simTime topo ifs demand st = Some st' ->
  st' = st \/
  exists destAddr dijkstra path,
    g_nodeFirstIp ifs !! dm_dstId demand = Some destAddr /\
    Dijkstra fuel (g_adjList topo) (dm_srcId demand) (g_numNodes topo) = Some dijkstra /\
    GetPath (dm_srcId demand) (dm_dstId demand) dijkstra = Some path /\
    2 <= length path /\
    st' = mkSim (routeFile st ++ [flow_row (g_nodeIdToName topo) demand path])
                (hostRoutes st ++ omap (hop_route ifs destAddr) (hops path))
                (warnings st ++ filter (fun h => g_linkInterface ifs !! h = None) (hops path))
                (sinkApps st ++ [flow_sink simTime demand (port st)])
                (clientApps st ++ [flow_client demand destAddr (port st)])
                (wrap16 (port st + 1)).
Proof.
  unfold process_demand. intros E.
  destruct (g_nodeFirstIp ifs !! dm_dstId demand) as [destAddr|] eqn:Ea;
    [|injection E as <-; by left].
  apply bind_Some in E as (dijkstra & ED & E). apply bind_Some in E as (path & EP & E).
  destruct (bool_decide (path = []) || (length path <? 2)) eqn:Eskip;
    [injection E as <-; by left|].
  apply orb_false_iff in Eskip as [_ Hlen]. apply Nat.ltb_ge in Hlen.
  rewrite install_routes_spec in E. cbn [mbind option_bind] in E.
  cbn [routeFile hostRoutes warnings sinkApps clientApps port] in E.
  injection E as <-. right. exists destAddr, dijkstra, path. done.
Qed.

Lemma wrap16_succ (n : nat) :
  wrap16 (wrap16 (9000 + Z.of_nat n) + 1) = wrap16 (9000 + Z.of_nat (S n)).
Proof.
  unfold wrap16. rewrite Zplus_mod_idemp_l. f_equal. lia.
Qed.

Lemma flows_ok_step (topo : Topology D) (ifs : Interfaces)
    (demands : list (TrafficDemand D)) (demand : TrafficDemand D) (st st' : Sim D) :
  flows_ok fuel simTime topo ifs demands st ->
  process_demand fuel simTime topo ifs demand st = Some st' ->
  flows_ok fuel simTime topo ifs (demands ++ [demand]) st'.
Proof.
  intros [Hs Hc Hp (flows & Hsub & Hids & Hsn & Hcn) He] E.
  apply process_demand_cases in E as [->|(destAddr & dijkstra & path & Ea & ED & EP & Hlen & ->)].
  - split; [done|done|done| |].
    + exists flows. split; [|done]. by apply sublist_inserts_r.
    + intros k row Hk. destruct (He k row Hk) as (d & a & r & p & Hd & ?).
      exists d, a, r, p. split; [|done]. apply elem_of_app. by left.
  - split; cbn [routeFile sinkApps clientApps port].
    + rewrite !length_app. cbn. lia.
    + rewrite !length_app. cbn. lia.
    + rewrite Hp, length_app. cbn [length]. rewrite wrap16_succ. f_equal. lia.
    + exists (flows ++ [demand]). split; [by apply sublist_app|].
      rewrite !map_app. cbn [map]. by rewrite Hids, Hsn, Hcn.
    + intros k row Hk. apply lookup_app_Some in Hk as [Hk|[Hge Hk]].
      * destruct (He k row Hk) as (d & a & r & p & Hd & Ha & Hr & Hpth & Hl & Hrow & Hsk & Hck).
        exists d, a, r, p. split; [apply elem_of_app; by left|].
        split; [done|]. split; [done|]. split; [done|]. split; [done|]. split; [done|].
        split; by apply lookup_app_l_Some.
      * apply list_lookup_singleton_Some in Hk as [Hk <-].
        assert (k = length (routeFile st)) as -> by lia.
        exists demand, destAddr, dijkstra, path.
        split; [apply elem_of_app; right; by left|].
        split; [done|]. split; [done|]. split; [done|]. split; [done|]. split; [done|].
        rewrite <- Hs at 1. rewrite <- Hc at 2. rewrite <- Hp.
        split; by rewrite lookup_app_r, Nat.sub_diag by lia.
Qed.

Lemma process_demands_flows (topo : Topology D) (ifs : Interfaces)
    (demands : list (TrafficDemand D)) (st : Sim D) :
  process_demands fuel simTime topo ifs demands initial_sim = Some st ->
  flows_ok fuel simTime topo ifs demands st.
Proof.
  revert st. induction demands as [|demand demands IH] using rev_ind; intros st E.
  - injection E as <-. split; cbn; try done.
    + by exists [].
  - rewrite process_demands_app in E. apply bind_Some in E as (st1 & E1 & E).
    cbn [process_demands] in E. apply bind_Some in E as (st2 & E2 & [= <-]).
    eapply flows_ok_step; [by apply IH|done].
Qed.

End DemandLoop.

Lemma port_inj (a b : Z) :
  (0 <= a < 65536)%Z -> (0 <= b < 65536)%Z ->
  ((9000 + b) mod 2 ^ 16 = (9000 + a) mod 2 ^ 16)%Z -> a = b.
Proof.
  intros Ha Hb Hab. change (2 ^ 16)%Z with 65536%Z in Hab.
  pose proof (Z.div_mod (9000 + a) 65536). pose proof (Z.div_mod (9000 + b) 65536).
  assert (0 <= (9000 + a) / 65536 < 2)%Z.
  { split; [apply Z.div_pos; lia|]. apply Z.div_lt_upper_bound; lia. }
  assert (0 <= (9000 + b) / 65536 < 2)%Z.
  { split; [apply Z.div_pos; lia|]. apply Z.div_lt_upper_bound; lia. }
  lia.
Qed.

Section DemandLoopFlows.
Context {D : Type} `{Double D}.

(** The flows that the demand loop creates: one row of the route report,
    one receiver and one sender for each, in the order of the demands;
    flow number [k] (from 0) listens and sends on port 9000 + k modulo
    2^16, the receiver on the destination node from 0 to [simTime], the
    sender on the source node toward the first address of the destination
    from the start time to start plus duration; the report shows the
    demand id plus one and one hop less than the path has nodes.  As long
    as there are no more than 65536 flows no port is used twice. *)
Theorem demand_loop_flows (fuel : nat) (simTime : D) (topo : Topology D)
    (ifs : Interfaces) (demands : list (TrafficDemand D)) (st : Sim D) :
  process_demands fuel simTime topo ifs demands initial_sim = Some st ->
  length (sinkApps st) = length (routeFile st) /\
  length (clientApps st) = length (routeFile st) /\
  port st = wrap16 (9000 + Z.of_nat (length (routeFile st))) /\
  (exists flows, sublist flows demands /\
     map rr_flowId (routeFile st) = map (fun d => wrap32 (demandId d + 1)) flows /\
     map sink_node (sinkApps st) = map dm_dstId flows /\
     map onoff_node (clientApps st) = map dm_srcId flows) /\
  (forall k row, routeFile st !! k = Some row ->
     exists demand destAddr dijkstra path,
       demand ∈ demands /\
       g_nodeFirstIp ifs !! dm_dstId demand = Some destAddr /\
       Dijkstra fuel (g_adjList topo) (dm_srcId demand) (g_numNodes topo) = Some dijkstra /\
       GetPath (dm_srcId demand) (dm_dstId demand) dijkstra = Some path /\
       2 <= length path /\
       row = mkRouteRow (wrap32 (demandId demand + 1)) (srcNode demand) (dstNode demand)
                        (length path - 1) (path_string (g_nodeIdToName topo) path) /\
       sinkApps st !! k =
         Some (mkSinkApp (dm_dstId demand) (wrap16 (9000 + Z.of_nat k)) d_zero simTime) /\
       clientApps st !! k =
         Some (mkOnOffApp (dm_srcId demand) destAddr (wrap16 (9000 + Z.of_nat k))
                 (dataRateMbps demand) (startTimeSec demand)
                 (d_add (startTimeSec demand) (durationSec demand)))) /\
  ((Z.of_nat (length (routeFile st)) <= 65536)%Z -> NoDup (map sink_port (sinkApps st))).
Proof.
  intros E. destruct (process_demands_flows _ _ _ _ _ _ E) as [Hs Hc Hp Ho He].
  split; [done|]. split; [done|]. split; [done|]. split; [done|]. split; [done|].
  intros Hmax. apply NoDup_alt. intros i j p Hi Hj.
  rewrite list_lookup_fmap in Hi, Hj.
  destruct (sinkApps st !! i) as [si|] eqn:Ei; [|done].
  destruct (sinkApps st !! j) as [sj|] eqn:Ej; [|done].
  pose proof (lookup_lt_Some _ _ _ Ei) as Hli. pose proof (lookup_lt_Some _ _ _ Ej) as Hlj.
  destruct (lookup_lt_is_Some_2 (routeFile st) i) as [ri Hri]; [lia|].
  destruct (lookup_lt_is_Some_2 (routeFile st) j) as [rj Hrj]; [lia|].
  destruct (He i ri Hri) as (? & ? & ? & ? & _ & _ & _ & _ & _ & _ & Hsi & _).
  destruct (He j rj Hrj) as (? & ? & ? & ? & _ & _ & _ & _ & _ & _ & Hsj & _).
  rewrite Ei in Hsi. rewrite Ej in Hsj. injection Hsi as ->. injection Hsj as ->.
  cbn in Hi, Hj. injection Hi as <-. injection Hj as Hj. unfold wrap16 in Hj.
  apply Nat2Z.inj. symmetry. apply (port_inj _ _); [lia|lia|done].
Qed.

End DemandLoopFlows.

Section LoadedHops.
Context {D : Type} `{Double D}.
Variable parse_link : string -> option (LinkParam D).
Variable bind_link : nat -> LinkBinding.

(** On the loaded topology every hop of a path has its interface. *)
Lemma loaded_path_hops (file : option (list string)) (ok : bool) (topo : Topology D)
    (fuel src dst : nat) (dijkstra : DijkstraResult D) (path : list nat) :
  LoadLinks parse_link file empty_topology = Some (ok, topo) ->
  Dijkstra fuel (g_adjList topo) src (g_numNodes topo) = Some dijkstra ->
  GetPath src dst dijkstra = Some path ->
  forall h, h ∈ hops path ->
    is_Some (g_linkInterface (setup_links bind_link 0 (g_links topo) no_interfaces) !! h).
Proof.
  intros EL ED EP.
  destruct (LoadLinks_topology _ _ _ _ EL) as (Hn & _ & _ & Hedge).
  destruct (Dijkstra_safe _ _ _ _ _ Hn ED) as (Hs & _ & _).
  pose proof (GetPath_steps _ _ _ _ _ Hs EP) as Hsteps.
  intros [a b] Hin. apply list_elem_of_lookup in Hin as [i Hi].
  unfold hops in Hi. apply lookup_zip_with_Some in Hi as (a' & b' & [= <- <-] & Ha & Hb).
  rewrite lookup_drop in Hb. cbn in Hb.
  destruct (Hsteps i a b Ha Hb) as (w & He & _).
  apply Hedge in He as (l & Hl & Hj & _). apply setup_links_interface. right. by exists l.
Qed.

Lemma hops_found_routes (ifs : Interfaces) (destAddr : Ipv4Address) (hs : list (nat * nat)) :
  (forall h, h ∈ hs -> is_Some (g_linkInterface ifs !! h)) ->
  filter (fun h => g_linkInterface ifs !! h = None) hs = [] /\
  length (omap (hop_route ifs destAddr) hs) = length hs.
Proof.
  induction hs as [|h hs IH]; intros Hh; [done|].
  destruct (Hh h) as [[ifIndex nextHop] Hx]; [by left|].
  destruct IH as [IH1 IH2]; [intros h' Hin; apply Hh; by right|].
  rewrite filter_cons, decide_False by congruence. split; [done|].
  change (omap ?f (h :: hs)) with
    (match f h with Some y => y :: omap f hs | None => omap f hs end).
  unfold hop_route at 1. rewrite Hx. cbn [length]. by rewrite IH2.
Qed.

Variable fuel : nat.
Variable simTime : D.

Lemma process_demands_no_warning (file : option (list string)) (ok : bool)
    (topo : Topology D) (demands : list (TrafficDemand D)) (st st' : Sim D) :
  LoadLinks parse_link file empty_topology = Some (ok, topo) ->
  process_demands fuel simTime topo
    (setup_links bind_link 0 (g_links topo) no_interfaces) demands st = Some st' ->
  warnings st = [] ->
  length (hostRoutes st) = sum_list_with rr_hopCount (routeFile st) ->
  warnings st' = [] /\
  length (hostRoutes st') = sum_list_with rr_hopCount (routeFile st').
Proof.
  intros EL. revert st. induction demands as [|demand demands IH]; intros st E Hw Hr.
  - by injection E as <-.
  - cbn [process_demands] in E. apply bind_Some in E as (st1 & E1 & E).
    apply (IH st1 E).
    + apply process_demand_cases in E1
        as [->|(destAddr & dijkstra & path & Ea & ED & EP & Hlen & ->)]; [done|].
      cbn [warnings]. rewrite Hw.
      by destruct (hops_found_routes _ destAddr (hops path)
                     (loaded_path_hops _ _ _ _ _ _ _ _ EL ED EP)) as [-> _].
    + apply process_demand_cases in E1
        as [->|(destAddr & dijkstra & path & Ea & ED & EP & Hlen & ->)]; [done|].
      cbn [hostRoutes routeFile]. rewrite length_app, sum_list_with_app, Hr.
      destruct (hops_found_routes _ destAddr (hops path)
                  (loaded_path_hops _ _ _ _ _ _ _ _ EL ED EP)) as [_ ->].
      rewrite hops_length. cbn. lia.
Qed.

Variable parse_demand : string -> option (TrafficDemand D).

(** A run of [main] that gets past the two loaders prints no warning
    about a missing interface and installs as many host routes as the
    hop counts of the route report add up to; it has loaded the accepted
    rows of both files, at least one of each.  This holds on any
    arithmetic, binary64 included. *)
Theorem main_no_warning (linkFile demandFile : option (list string))
    (topo : Topology D) (demands : list (TrafficDemand D)) (ifs : Interfaces) (st : Sim D) :
  main parse_link parse_demand bind_link fuel simTime linkFile demandFile
    = Some (Ran topo demands ifs st) ->
  g_links topo = map coerce_link (accepted_rows parse_link linkFile) /\
  g_links topo <> [] /\
  demands = accepted_rows parse_demand demandFile /\
  demands <> [] /\
  ifs = setup_links bind_link 0 (g_links topo) no_interfaces /\
  warnings st = [] /\
  length (hostRoutes st) = sum_list_with rr_hopCount (routeFile st).
Proof.
  unfold main. intros E.
  apply bind_Some in E as ([ok topo'] & EL & E).
  destruct (LoadLinks_links _ _ _ _ EL) as [Hl Hok].
  destruct ok; [|done]. cbn [negb] in E.
  rewrite LoadDemands_demands in E.
  destruct (bool_decide (accepted_rows parse_demand demandFile = [])) eqn:Ed; [done|].
  cbn [negb] in E. apply bind_Some in E as (st' & EP & [= <- <- <- <-]).
  apply bool_decide_eq_false in Ed.
  destruct (process_demands_no_warning _ _ _ _ _ _ EL EP) as [Hw Hr]; [done|done|].
  split; [done|]. split.
  { intros Hnil. rewrite Hl in Hnil. apply fmap_nil_inv in Hnil.
    symmetry in Hok. apply negb_true_iff, bool_decide_eq_false in Hok. done. }
  done.
Qed.

End LoadedHops.

(** ** Where [main] gets to *)

Section SourceRange.
Context {D : Type} `{Double D}.

(** A demand that reaches [Dijkstra] has its source among the nodes. *)
Lemma Dijkstra_source_range (fuel : nat) (adj : list (list (nat * D))) (src numNodes : nat) :
  is_Some (Dijkstra fuel adj src numNodes) -> src < numNodes.
Proof.
  intros [r E]. unfold Dijkstra in E. apply bind_Some in E as (s0 & E0 & _).
  unfold dijkstra_init in E0. apply bind_Some in E0 as (d & Ed & _).
  apply lookup_lt_Some in Ed. by rewrite length_replicate in Ed.
Qed.

Lemma process_demand_source_range (fuel : nat) (simTime : D) (topo : Topology D)
    (ifs : Interfaces) (demand : TrafficDemand D) (st : Sim D) :
  is_Some (process_demand fuel simTime topo ifs demand st) ->
  g_nodeFirstIp ifs !! dm_dstId demand = None \/ dm_srcId demand < g_numNodes topo.
Proof.
  intros [st' E]. unfold process_demand in E.
  destruct (g_nodeFirstIp ifs !! dm_dstId demand); [|by left]. right.
  apply bind_Some in E as (r & ED & _). eapply Dijkstra_source_range. by eexists.
Qed.

Lemma process_demands_source_range (fuel : nat) (simTime : D) (topo : Topology D)
    (ifs : Interfaces) (demands : list (TrafficDemand D)) (st : Sim D) :
  is_Some (process_demands fuel simTime topo ifs demands st) ->
  forall d, d ∈ demands ->
    g_nodeFirstIp ifs !! dm_dstId d = None \/ dm_srcId d < g_numNodes topo.
Proof.
  revert st. induction demands as [|demand demands IH]; intros st [st' E] d Hd.
  - by apply elem_of_nil in Hd.
  - cbn [process_demands] in E. apply bind_Some in E as (st1 & E1 & E).
    apply elem_of_cons in Hd as [->|Hd].
    + eapply process_demand_source_range. by eexists.
    + eapply (IH st1); [by eexists|done].
Qed.

(** The demand loop checks the destination of a demand but not its
    source: a demand whose destination has an address and whose source id
    is not below the node count makes [Dijkstra] write [dist[src]] outside
    the vector, whatever comes before it in a run that reaches it.  This
    holds on any arithmetic, binary64 included. *)
Theorem demand_source_unchecked (fuel : nat) (simTime : D) (topo : Topology D)
    (ifs : Interfaces) (before after : list (TrafficDemand D))
    (demand : TrafficDemand D) (st : Sim D) :
  is_Some (g_nodeFirstIp ifs !! dm_dstId demand) ->
  g_numNodes topo <= dm_srcId demand ->
  Dijkstra fuel (g_adjList topo) (dm_srcId demand) (g_numNodes topo) = None /\
  process_demand fuel simTime topo ifs demand st = None /\
  process_demands fuel simTime topo ifs (before ++ demand :: after) st = None.
Proof.
  intros Ha Hsrc.
  assert (forall st, process_demand fuel simTime topo ifs demand st = None) as Hnone.
  { intros st0. destruct (process_demand fuel simTime topo ifs demand st0) eqn:E; [|done].
    destruct (process_demand_source_range fuel simTime topo ifs demand st0) as [Hn|Hlt];
      [by eexists| |lia].
    rewrite Hn in Ha. by destruct Ha. }
  split; [|split; [done|]].
  - destruct (Dijkstra fuel _ _ _) eqn:E; [|done].
    pose proof (Dijkstra_source_range fuel (g_adjList topo) (dm_srcId demand)
                  (g_numNodes topo)) as Hr.
    rewrite E in Hr. assert (dm_srcId demand < g_numNodes topo) by (apply Hr; by eexists). lia.
  - rewrite process_demands_app.
    destruct (process_demands fuel simTime topo ifs before st) as [st1|]; [|done].
    cbn [mbind option_bind process_demands]. by rewrite Hnone.
Qed.

End SourceRange.

Section MainReturns.
Context {D : Type} `{DoubleLaws D}.
Variable parse_link : string -> option (LinkParam D).
Variable parse_demand : string -> option (TrafficDemand D).
Variable bind_link : nat -> LinkBinding.
Variable fuel : nat.
Variable simTime : D.

Lemma process_demand_returns (file : option (list string)) (ok : bool) (topo : Topology D)
    (demand : TrafficDemand D) (st : Sim D) :
  LoadLinks parse_link file empty_topology = Some (ok, topo) ->
  (Z.of_nat (g_numNodes topo) <= 2 ^ 31)%Z ->
  edge_count (g_adjList topo) + 2 <= fuel ->
  g_nodeFirstIp (setup_links bind_link 0 (g_links topo) no_interfaces) !! dm_dstId demand
    = None \/ dm_srcId demand < g_numNodes topo ->
  is_Some (process_demand fuel simTime topo
             (setup_links bind_link 0 (g_links topo) no_interfaces) demand st).
Proof.
  intros EL Hint Hfuel Hd. unfold process_demand.
  destruct (g_nodeFirstIp _ !! dm_dstId demand) as [destAddr|] eqn:Ea; [|by eexists].
  destruct Hd as [?|Hsrc]; [done|].
  destruct (loaded_adj_wf parse_link _ _ _ EL) as [Hwf Hpos].
  destruct (LoadLinks_topology _ _ _ _ EL) as (Hn & Hlen & Hends & _).
  assert (dm_dstId demand < g_numNodes topo) as Hdst.
  { assert (is_Some (g_nodeFirstIp (setup_links bind_link 0 (g_links topo) no_interfaces)
                       !! dm_dstId demand)) as Hs by (by eexists).
    apply setup_links_firstIp in Hs as [Hs|(l & Hl & Hx)].
    - cbn in Hs. rewrite lookup_empty in Hs. by destruct Hs.
    - destruct (Hends l Hl). destruct Hx as [-> | ->]; done. }
  destruct (Dijkstra_returns _ _ _ Hwf Hpos Hsrc fuel Hfuel) as (S & r & ED & Hinv).
  destruct (GetPath_returns _ _ _ Hsrc S r (dm_dstId demand) Hinv Hint Hdst) as [path EP].
  rewrite ED. cbn [mbind option_bind]. rewrite EP. cbn [mbind option_bind].
  destruct (_ || _); [by eexists|].
  rewrite install_routes_spec. cbn [mbind option_bind]. by eexists.
Qed.

Lemma process_demands_returns (file : option (list string)) (ok : bool) (topo : Topology D)
    (demands : list (TrafficDemand D)) (st : Sim D) :
  LoadLinks parse_link file empty_topology = Some (ok, topo) ->
  (Z.of_nat (g_numNodes topo) <= 2 ^ 31)%Z ->
  edge_count (g_adjList topo) + 2 <= fuel ->
  (forall d, d ∈ demands ->
     g_nodeFirstIp (setup_links bind_link 0 (g_links topo) no_interfaces) !! dm_dstId d
       = None \/ dm_srcId d < g_numNodes topo) ->
  is_Some (process_demands fuel simTime topo
             (setup_links bind_link 0 (g_links topo) no_interfaces) demands st).
Proof.
  intros EL Hint Hfuel. revert st. induction demands as [|d demands IH]; intros st Hd.
  - by eexists.
  - cbn [process_demands].
    destruct (process_demand_returns _ _ _ d st EL Hint Hfuel) as [st1 E1];
      [apply Hd; by left|].
    rewrite E1. cbn [mbind option_bind]. apply IH. intros d' Hd'. apply Hd. by right.
Qed.


End MainReturns.

(** ** Routes are simple paths *)

Section SimplePaths.
Context {D : Type} `{DoubleLaws D}.
Variable adj : list (list (nat * D)).
Variable src numNodes : nat.
Variables (S : list nat) (dist_ : list D) (prev_ : list Z).
Hypothesis Hinv : inv adj src numNodes S [] dist_ prev_ [].

(** Following the predecessors from a handled node goes through nodes
    that were handled before it, each one before the last. *)
Lemma final_walk_prev_sublist (fuel : nat) (S1 : list nat) (x : nat) (S2 : list nat)
    (p : list nat) :
  (Z.of_nat numNodes <= 2 ^ 31)%Z ->
  S = S1 ++ x :: S2 ->
  walk_prev fuel prev_ (to_int x) = Some p ->
  sublist p (x :: S2).
Proof.
  intros Hn. revert S1 x S2 p. induction fuel as [|fuel IH]; intros S1 x S2 p E Ep.
  - assert (x < numNodes) as Hx.
    { apply (inv_range _ _ _ _ _ _ _ _ Hinv). rewrite E. apply elem_of_app. right. by left. }
    rewrite (to_int_small x) in Ep by lia. cbn [walk_prev] in Ep.
    destruct (Z.eqb_spec (Z.of_nat x) (-1)); [lia|done].
  - assert (x < numNodes) as Hx.
    { apply (inv_range _ _ _ _ _ _ _ _ Hinv). rewrite E. apply elem_of_app. right. by left. }
    rewrite (to_int_small x) in Ep by lia. cbn [walk_prev] in Ep.
    destruct (Z.eqb_spec (Z.of_nat x) (-1)); [lia|].
    unfold to_index in Ep. destruct (Z.ltb_spec (Z.of_nat x) 0); [lia|].
    cbn [mbind option_bind] in Ep. rewrite Nat2Z.id in Ep.
    apply bind_Some in Ep as (next & Enext & Ep).
    apply bind_Some in Ep as (rest & Erest & [= <-]).
    constructor.
    destruct (inv_order _ _ _ _ _ _ _ _ Hinv S1 x S2 E) as [->|(u & Hu & Eu)].
    + destruct (inv_src _ _ _ _ _ _ _ _ Hinv) as [_ Hs]. rewrite Hs in Enext.
      injection Enext as <-. destruct fuel; cbn in Erest; injection Erest as <-;
        apply sublist_nil_l.
    + rewrite Eu in Enext. injection Enext as <-.
      apply list_elem_of_split in Hu as (S2a & S2b & ->).
      apply sublist_inserts_l.
      apply (IH (S1 ++ x :: S2a) u S2b rest); [|done].
      by rewrite E, <- app_assoc.
Qed.

End SimplePaths.

Section SimpleRoutes.
Context {D : Type} `{DoubleLaws D}.
Variable parse_link : string -> option (LinkParam D).


End SimpleRoutes.

(** ** Distances and the order of the rows *)

Lemma max_list_subseteq (l1 l2 : list nat) :
  (forall x, x ∈ l1 -> x ∈ l2) -> max_list l1 <= max_list l2.
Proof.
  induction l1 as [|x l1 IH]; intros Hsub.
  - cbn. apply Nat.le_0_l.
  - cbn [max_list_with]. unfold id at 1.
    pose proof (max_list_elem_of_le x l2 (Hsub x ltac:(by left))).
    assert (max_list l1 <= max_list l2) by (apply IH; intros y Hy; apply Hsub; by right).
    lia.
Qed.

Section RowOrder.
Context {D : Type} `{DoubleLaws D}.
Variable parse_link : string -> option (LinkParam D).

(** The node count is one more than the largest id of a stored link. *)
Lemma LoadLinks_numNodes_max (file : option (list string)) (ok : bool) (topo : Topology D) :
  LoadLinks parse_link file empty_topology = Some (ok, topo) ->
  g_numNodes topo = max_list (map (fun l => S (srcId l `max` dstId l)) (g_links topo)).
Proof.
  intros EL.
  destruct (LoadLinks_topology _ _ _ _ EL) as (Hn & _ & Hends & _).
  destruct (LoadLinks_links _ _ _ _ EL) as [Hl _].
  destruct file as [lines|]; cbn [LoadLinks accepted_rows] in *.
  - apply bind_Some in EL as (adj & _ & EL). injection EL as _ <-.
    cbn [g_numNodes g_links] in *. rewrite Hl, map_map. rewrite load_link_rows_fold.
    rewrite store_links_numNodes.
    + cbn [g_numNodes empty_topology coerce_link srcId dstId]. lia.
    + intros p Hp. destruct (Hends (coerce_link p)) as [Hs Hd].
      { rewrite Hl. apply list_elem_of_fmap. by exists p. }
      cbn [coerce_link srcId dstId] in Hs, Hd. lia.
  - by injection EL as _ <-.
Qed.

Lemma walk_transfer (adj1 adj2 : list (list (nat * D))) (src v : nat) (c : D) :
  (forall u v w, adj_edge adj1 u v w -> adj_edge adj2 u v w) ->
  walk adj1 src v c -> walk adj2 src v c.
Proof.
  intros Hsub Hw. induction Hw as [|u v w c Hw IH He]; [constructor|].
  econstructor; [exact IH|by apply Hsub].
Qed.


End RowOrder.

(** ** The per-link report counts packets *)

Lemma init_linkStats_go {D} (links : list (LinkParam D)) (n : nat) (stats : list LinkStats) :
  n <= length links -> length stats = length links ->
  (forall i st, stats !! i = Some st -> txPackets st = 0%Z /\ rxPackets st = 0%Z) ->
  exists stats',
    foldl (fun acc i =>
             stats ← acc;
             l ← links !! i;
             st ← stats !! i;
             Some (<[i := mkLinkStats (srcName l) (dstName l) (txPackets st) (rxPackets st)]>
                     stats))
          (Some stats) (seq 0 n) = Some stats' /\
    length stats' = length links /\
    (forall i l, i < n -> links !! i = Some l ->
       stats' !! i = Some (mkLinkStats (srcName l) (dstName l) 0 0)) /\
    (forall i, n <= i -> stats' !! i = stats !! i).
Proof.
  intros Hn Hlen H0. induction n as [|n IH].
  - exists stats. split; [done|]. split; [done|]. split; [intros; lia|done].
  - destruct IH as (s1 & E1 & Hl1 & Hlow & Hhigh); [lia|].
    rewrite seq_S, foldl_app, E1. cbn [foldl plus mbind option_bind].
    destruct (lookup_lt_is_Some_2 links n) as [l El]; [lia|].
    destruct (lookup_lt_is_Some_2 s1 n) as [st Est]; [lia|].
    rewrite El. cbn [mbind option_bind]. rewrite Est. cbn [mbind option_bind].
    eexists. split; [done|]. rewrite length_insert. split; [done|]. split.
    + intros i l' Hi Hl'. destruct (decide (i = n)) as [->|Hne].
      * rewrite list_lookup_insert_eq by lia.
        rewrite Hhigh in Est by lia. destruct (H0 n st Est) as [-> ->]. congruence.
      * rewrite list_lookup_insert_ne by done. apply Hlow; [lia|done].
    + intros i Hi. rewrite list_lookup_insert_ne by lia. apply Hhigh. lia.
Qed.

(** The counters before the simulation starts. *)
Lemma init_linkStats_spec {D} (links : list (LinkParam D)) :
  init_linkStats links =
    Some (map (fun l => mkLinkStats (srcName l) (dstName l) 0 0) links).
Proof.
  unfold init_linkStats.
  destruct (init_linkStats_go links (length links)
              (replicate (length links) (mkLinkStats "" "" 0 0)))
    as (stats & E & Hlen & Hlow & _); [done|by rewrite length_replicate| |].
  { intros i st Hi. apply lookup_replicate in Hi as [-> _]. done. }
  change (fun (acc : option (list LinkStats)) (i : nat) =>
            acc ≫= (fun stats0 => links !! i ≫= (fun l => stats0 !! i ≫= (fun st =>
              Some (<[i := mkLinkStats (srcName l) (dstName l) (txPackets st) (rxPackets st)]>
                      stats0))))) with
    (fun (acc : option (list LinkStats)) (i : nat) =>
            stats ← acc; l ← links !! i; st ← stats !! i;
              Some (<[i := mkLinkStats (srcName l) (dstName l) (txPackets st) (rxPackets st)]>
                      stats)) in E.
  rewrite E. f_equal. apply list_eq. intros i. rewrite list_lookup_fmap.
  destruct (links !! i) as [l|] eqn:El.
  - apply Hlow; [by eapply lookup_lt_Some|done].
  - apply lookup_ge_None. apply lookup_ge_None in El. lia.
Qed.

Lemma count_events_snoc (e e' : TraceEvent) (events : list TraceEvent) :
  count_events e (events ++ [e']) =
  count_events e events + (if decide (e' = e) then 1 else 0).
Proof.
  unfold count_events. rewrite filter_app, length_app, filter_cons, filter_nil.
  by destruct (decide (e' = e)).
Qed.

Lemma wrap64_succ (a : Z) (n : nat) :
  wrap64 (wrap64 (a + Z.of_nat n) + 1) = wrap64 (a + Z.of_nat (n + 1)).
Proof. unfold wrap64. rewrite Zplus_mod_idemp_l. f_equal. lia. Qed.

(** The counters of one link after a sequence of events. *)
Lemma link_trace_lookup (events : list TraceEvent) (stats : list LinkStats) (i : nat)
    (st : LinkStats) :
  stats !! i = Some st ->
  (0 <= txPackets st < 2 ^ 64)%Z -> (0 <= rxPackets st < 2 ^ 64)%Z ->
  link_trace events stats !! i =
    Some (mkLinkStats (ls_srcName st) (ls_dstName st)
            (wrap64 (txPackets st + Z.of_nat (count_events (MacTx i) events)))
            (wrap64 (rxPackets st + Z.of_nat (count_events (MacRx i) events)))).
Proof.
  intros Hi Htx Hrx. induction events as [|e events IH] using rev_ind.
  - cbn. rewrite Hi. unfold wrap64. rewrite !Z.add_0_r, !Z.mod_small by done.
    by destruct st.
  - unfold link_trace in *. rewrite foldl_app. cbn [foldl].
    set (cur := foldl _ stats events) in *.
    rewrite !count_events_snoc.
    destruct e as [j|j].
    + unfold LinkTxCallback. destruct (decide (j = i)) as [->|Hne].
      * rewrite IH. rewrite list_lookup_insert_eq by (by eapply lookup_lt_Some).
        cbn [ls_srcName ls_dstName txPackets rxPackets].
        rewrite decide_True by done. rewrite decide_False by done.
        rewrite wrap64_succ. by rewrite Nat.add_0_r.
      * rewrite decide_False by congruence. rewrite decide_False by done.
        rewrite !Nat.add_0_r. destruct (cur !! j); [|done].
        by rewrite list_lookup_insert_ne.
    + unfold LinkRxCallback. destruct (decide (j = i)) as [->|Hne].
      * rewrite IH. rewrite list_lookup_insert_eq by (by eapply lookup_lt_Some).
        cbn [ls_srcName ls_dstName txPackets rxPackets].
        rewrite decide_False by done. rewrite decide_True by done.
        rewrite wrap64_succ. by rewrite Nat.add_0_r.
      * rewrite decide_False by done. rewrite decide_False by congruence.
        rewrite !Nat.add_0_r. destruct (cur !! j); [|done].
        by rewrite list_lookup_insert_ne.
Qed.

Lemma link_trace_length (events : list TraceEvent) (stats : list LinkStats) :
  length (link_trace events stats) = length stats.
Proof.
  induction events as [|e events IH] using rev_ind; [done|].
  unfold link_trace in *. rewrite foldl_app. cbn [foldl].
  destruct e as [j|j]; unfold LinkTxCallback, LinkRxCallback;
    destruct (_ !! j); by rewrite ?length_insert.
Qed.

(** The per-link report counts the packets of each link: starting from
    the counters that [main] sets up, after any sequence of calls of the
    trace callbacks [SaveLinkStats] writes one row for each link, in the
    order of the links and with the names of the link, whose two counts
    are the numbers of calls bound to that link (modulo 2^64); calls bound
    to an index that is not a link change nothing. *)
Theorem link_report_counts {D} (links : list (LinkParam D)) (events : list TraceEvent) :
  exists stats rows,
    init_linkStats links = Some stats /\
    SaveLinkStats links (link_trace events stats) = Some rows /\
    length rows = length links /\
    forall i l, links !! i = Some l ->
      exists row, rows !! i = Some row /\
        lr_srcName row = srcName l /\ lr_dstName row = dstName l /\
        lr_txPackets row = wrap64 (Z.of_nat (count_events (MacTx i) events)) /\
        lr_rxPackets row = wrap64 (Z.of_nat (count_events (MacRx i) events)).
Proof.
  eexists. rewrite init_linkStats_spec.
  set (stats := map _ links).
  destruct (SaveLinkStats_returns links (link_trace events stats)) as [rows Erows].
  { rewrite link_trace_length. unfold stats. by rewrite length_map. }
  exists rows. split; [done|]. split; [done|].
  pose proof Erows as Hrows. unfold SaveLinkStats in Hrows. apply mapM_Some in Hrows.
  pose proof (Forall2_length _ _ _ Hrows) as Hlen. rewrite length_seq in Hlen.
  split; [done|]. intros i l Hl.
  pose proof (lookup_lt_Some _ _ _ Hl) as Hi.
  destruct (lookup_lt_is_Some_2 rows i) as [row Hrow]; [lia|].
  destruct (Forall2_lookup_r _ _ _ _ _ Hrows Hrow) as (k & Hk & Ek).
  apply lookup_seq in Hk as [-> _]. cbn [plus] in Ek.
  rewrite Hl in Ek. cbn [mbind option_bind] in Ek.
  rewrite (link_trace_lookup events stats i (mkLinkStats (srcName l) (dstName l) 0 0)) in Ek.
  - cbn [mbind option_bind txPackets rxPackets ls_srcName ls_dstName] in Ek.
    injection Ek as <-. eexists. split; [done|]. done.
  - unfold stats. by rewrite list_lookup_fmap, Hl.
  - cbn. lia.
  - cbn. lia.
Qed.

(** ** Subnets *)

Lemma pretty_N_char_no_dot (x : N) : pretty_N_char x <> "."%char.
Proof. unfold pretty_N_char. by repeat case_match. Qed.

Lemma pretty_N_go_no_dot (x : N) (s : string) :
  no_dot s -> no_dot (pretty_N_go x s).
Proof.
  revert s. induction (N.lt_wf_0 x) as [x _ IH]; intros s Hs.
  assert (x = 0 \/ 0 < x)%N as [->|Hx] by lia.
  - by rewrite pretty_N_go_0.
  - rewrite pretty_N_go_step by done. apply IH.
    + by apply N.div_lt.
    + constructor; [apply pretty_N_char_no_dot|done].
Qed.

Lemma pretty_N_no_dot (x : N) : no_dot (pretty x).
Proof.
  unfold pretty, pretty_N. destruct (decide (x = 0%N)).
  - by repeat constructor.
  - apply pretty_N_go_no_dot. constructor.
Qed.

(** Two texts without a dot that are followed by a dot. *)
Lemma no_dot_split (a a' r r' : string) :
  no_dot a -> no_dot a' ->
  a +:+ String "." r = a' +:+ String "." r' -> a = a' /\ r = r'.
Proof.
  revert a'. induction a as [|c a IH]; intros a' Ha Ha' E.
  - destruct a' as [|c' a']; cbn in E.
    + by injection E as ->.
    + injection E as <- _. by apply Forall_cons in Ha' as [? _].
  - destruct a' as [|c' a']; cbn in E.
    + injection E as -> _. by apply Forall_cons in Ha as [? _].
    + injection E as -> E. apply Forall_cons in Ha as [_ Ha].
      apply Forall_cons in Ha' as [_ Ha'].
      destruct (IH a' Ha Ha' E) as [-> ->]. done.
Qed.

(** The first 65536 links get 65536 different subnets, and from then on
    the subnets are used again: link number [i + 65536] is given the
    subnet of link number [i]. *)
Theorem subnet_base_reuse (i j : nat) :
  (Z.of_nat i < 65536)%Z -> (Z.of_nat j < 65536)%Z ->
  (subnet_base (sub_of_link i) = subnet_base (sub_of_link j) -> i = j) /\
  subnet_base (sub_of_link (i + Z.to_nat 65536)) = subnet_base (sub_of_link i).
Proof.
  intros Hi Hj. unfold sub_of_link.
  rewrite !N.mod_small by (change (2 ^ 32)%N with 4294967296%N; lia).
  split.
  - unfold subnet_base. intros E.
    apply (inj (String.append "10.")) in E.
    apply no_dot_split in E as [E1 E]; [|apply pretty_N_no_dot..].
    apply no_dot_split in E as [E2 _]; [|apply pretty_N_no_dot..].
    apply (inj pretty) in E1. apply (inj pretty) in E2.
    assert (N.of_nat i = N.of_nat j) as E3; [|lia].
    rewrite (N.div_mod (N.of_nat i) 256), (N.div_mod (N.of_nat j) 256) by done.
    rewrite E2. f_equal. f_equal.
    rewrite N.mod_small in E1, E1; [done| |].
    + apply N.Div0.div_lt_upper_bound. lia.
    + apply N.Div0.div_lt_upper_bound. lia.
  - unfold subnet_base.
    replace (N.of_nat (i + Z.to_nat 65536)) with (N.of_nat i + 256 * 256)%N by lia.
    rewrite N.div_add by done. rewrite N.Div0.mod_add.
    replace (N.of_nat i / 256 + 256)%N with (N.of_nat i / 256 + 1 * 256)%N by lia.
    by rewrite N.Div0.mod_add.
Qed.

(** ** [GetSatelliteName] *)

Section SatelliteNameFacts.
Context {D : Type}.

(** The text that the engine prints for an address ([oss << addr]). *)
Variable show_addr : Ipv4Address -> string.
Variable bind_link : nat -> LinkBinding.

Lemma name_links_snoc (i : nat) (links : list (LinkParam D)) (l : LinkParam D)
    (names : gmap string string) :
  name_links show_addr bind_link i (links ++ [l]) names =
  name_link show_addr bind_link (i + length links) l (name_links show_addr bind_link i links names).
Proof.
  revert i names. induction links as [|l' links IH]; intros i names.
  - cbn. by rewrite Nat.add_0_r.
  - cbn [app name_links length]. rewrite IH. f_equal. lia.
Qed.

Hypothesis show_addr_inj : Inj (=) (=) show_addr.
(** An address that no link has keeps its entry. *)
Lemma name_links_other (links : list (LinkParam D)) (names : gmap string string)
    (addr : Ipv4Address) :
  (forall i, i < length links ->
     addr <> address0 (bind_link i) /\ addr <> address1 (bind_link i)) ->
  name_links show_addr bind_link 0 links names !! show_addr addr = names !! show_addr addr.
Proof.
  induction links as [|l links IH] using rev_ind; intros Hn; [done|].
  rewrite name_links_snoc. cbn [plus]. unfold name_link.
  rewrite length_app in Hn. cbn [length] in Hn.
  destruct (Hn (length links)) as [H0 H1]; [lia|].
  rewrite !lookup_insert_ne.
  - apply IH. intros i Hi. apply Hn. lia.
  - intros E. by apply show_addr_inj in E.
  - intros E. by apply show_addr_inj in E.
Qed.

(** The entries of the two addresses of a link. *)
Lemma name_links_lookup (links : list (LinkParam D)) (names : gmap string string)
    (i : nat) (l : LinkParam D) :
  distinct_addresses bind_link (length links) ->
  links !! i = Some l ->
  name_links show_addr bind_link 0 links names !! show_addr (address0 (bind_link i)) = Some (srcName l) /\
  name_links show_addr bind_link 0 links names !! show_addr (address1 (bind_link i)) = Some (dstName l).
Proof.
  induction links as [|l' links IH] using rev_ind; intros Hd Hl; [done|].
  rewrite name_links_snoc. cbn [plus]. unfold name_link.
  rewrite length_app in Hd. cbn [length] in Hd.
  assert (distinct_addresses bind_link (length links)) as Hd'.
  { destruct Hd as [H1 H2]. split.
    - intros k Hk. apply H1. lia.
    - intros k j Hk Hj. apply H2; lia. }
  destruct Hd as [H1 H2].
  apply lookup_app_Some in Hl as [Hl|[Hge Hl]].
  - pose proof (lookup_lt_Some _ _ _ Hl) as Hi.
    destruct (H2 i (length links)) as (H00 & H01 & H11); [lia..|].
    destruct (H2 (length links) i) as (_ & H10 & _); [lia..|].
    rewrite !lookup_insert_ne.
    + by apply IH.
    + intros E. apply show_addr_inj in E. congruence.
    + intros E. apply show_addr_inj in E. congruence.
    + intros E. apply show_addr_inj in E. congruence.
    + intros E. apply show_addr_inj in E. congruence.
  - apply list_lookup_singleton_Some in Hl as [Hi <-].
    assert (i = length links) as -> by lia.
    specialize (H1 (length links)). split.
    + rewrite lookup_insert_ne; [by rewrite lookup_insert_eq|].
      intros E. apply show_addr_inj in E. symmetry in E. revert E. apply H1. lia.
    + by rewrite lookup_insert_eq.
Qed.

(** [GetSatelliteName] gives back the names of the link rows: when the
    engine prints different addresses differently and hands out no
    address twice, the name found for an address of a link is the name
    that the link row gives to that end, and the name found for the first
    address of a node is the name given to it by the first link row that
    mentions it (the route report shows the name of the last one); an
    address of no link is [Unknown]. *)
Theorem GetSatelliteName_links (links : list (LinkParam D)) :
  distinct_addresses bind_link (length links) ->
  let names := name_links show_addr bind_link 0 links ∅ in
  let ifs := setup_links bind_link 0 links no_interfaces in
  (forall i l, links !! i = Some l ->
     GetSatelliteName show_addr names (address0 (bind_link i)) = srcName l /\
     GetSatelliteName show_addr names (address1 (bind_link i)) = dstName l) /\
  (forall x addr, g_nodeFirstIp ifs !! x = Some addr ->
     exists i l, head (filter (fun il => link_end il.2 x) (numbered 0 links)) = Some (i, l) /\
       GetSatelliteName show_addr names addr = if decide (x = srcId l) then srcName l else dstName l) /\
  (forall addr,
     (forall i, i < length links ->
        addr <> address0 (bind_link i) /\ addr <> address1 (bind_link i)) ->
     GetSatelliteName show_addr names addr = "Unknown").
Proof.
  intros Hd names ifs. unfold GetSatelliteName. split; [|split].
  - intros i l Hl. destruct (name_links_lookup links ∅ i l Hd Hl) as [E0 E1].
    unfold names. by rewrite E0, E1.
  - intros x addr Hx. unfold ifs in Hx. rewrite setup_links_firstIp_value in Hx.
    cbn [g_nodeFirstIp no_interfaces] in Hx. rewrite lookup_empty in Hx.
    destruct (head (filter _ (numbered 0 links))) as [[i l]|] eqn:Eh; [|done].
    injection Hx as <-. exists i, l. split; [done|].
    assert ((i, l) ∈ numbered 0 links) as Hin.
    { apply head_Some_elem_of in Eh. by apply list_elem_of_filter in Eh as [_ ?]. }
    apply list_elem_of_lookup in Hin as [k Hk]. unfold numbered in Hk.
    apply lookup_zip_with_Some in Hk as (? & ? & [= <- <-] & Hs & Hl).
    apply lookup_seq in Hs as [-> _]. cbn [plus] in *.
    destruct (name_links_lookup links ∅ k l Hd Hl) as [E0 E1].
    unfold link_address, names. destruct (decide (x = srcId l)); by rewrite ?E0, ?E1.
  - intros addr Hn. unfold names. rewrite name_links_other by done.
    by rewrite lookup_empty.
Qed.

End SatelliteNameFacts.

(** ** The error model of a link on binary64 *)

(** Comparisons of binary64 numbers that are not NaN. *)
Lemma SFcompare_antisym (a b : spec_float) (c : comparison) :
  SFcompare a b = Some c -> SFcompare b a = Some (CompOpp c).
Proof.
  destruct a as [s1|s1| |s1 m1 e1], b as [s2|s2| |s2 m2 e2]; cbn;
    try destruct s1; try destruct s2; cbn; try (intros [= <-]; reflexivity); try done.
  - intros [= <-]. f_equal. rewrite (Z.compare_antisym e1 e2).
    destruct (e1 ?= e2)%Z; cbn; [|done|done].
    rewrite CompOpp_involutive. f_equal. apply Pos.compare_cont_antisym.
  - intros [= <-]. f_equal. rewrite (Z.compare_antisym e1 e2).
    destruct (e1 ?= e2)%Z; cbn; [|done|done].
    symmetry. apply (Pos.compare_cont_antisym m1 m2 Eq).
Qed.

Lemma SFcompare_nan (a b : spec_float) :
  SFcompare a b = None <-> a = S754_nan \/ b = S754_nan.
Proof.
  destruct a as [s1|s1| |s1 m1 e1], b as [s2|s2| |s2 m2 e2]; cbn; split;
    try done; try tauto; intros [?|?]; done.
Qed.

Lemma float_is_nan_spec (x : float) :
  PrimFloat.is_nan x = true <-> Prim2SF x = S754_nan.
Proof.
  unfold PrimFloat.is_nan. rewrite FloatAxioms.eqb_spec. unfold SFeqb.
  destruct (Prim2SF x) as [s|s| |s m e]; cbn; try destruct s; cbn;
    rewrite ?Z.compare_refl, ?Pos.compare_cont_refl; cbn; split; done.
Qed.

Lemma float_ltb_leb (a b : float) :
  PrimFloat.is_nan a = false -> PrimFloat.is_nan b = false ->
  PrimFloat.ltb a b = negb (PrimFloat.leb b a).
Proof.
  intros Ha Hb. rewrite FloatAxioms.ltb_spec, FloatAxioms.leb_spec. unfold SFltb, SFleb.
  destruct (SFcompare (Prim2SF a) (Prim2SF b)) as [c|] eqn:E.
  - rewrite (SFcompare_antisym _ _ _ E). by destruct c.
  - apply SFcompare_nan in E as [E|E]; apply float_is_nan_spec in E; congruence.
Qed.

Lemma float_nan_ltb (a b : float) :
  PrimFloat.is_nan a = true \/ PrimFloat.is_nan b = true -> PrimFloat.ltb a b = false.
Proof.
  intros Hn. rewrite FloatAxioms.ltb_spec. unfold SFltb.
  assert (SFcompare (Prim2SF a) (Prim2SF b) = None) as ->; [|done].
  apply SFcompare_nan. destruct Hn as [Hn|Hn]; apply float_is_nan_spec in Hn; tauto.
Qed.

(** On binary64 a link gets its error model exactly when its loss rate
    is a number strictly between 0 and 1: a rate that is a NaN, that is 0
    or less, or that is 1 or more (every packet lost) leaves the link
    without loss. *)
Theorem link_error_rate_binary64 (l : LinkParam float) :
  link_error_rate l =
    if PrimFloat.is_nan (packetLossRate l)
       || PrimFloat.leb (packetLossRate l) 0%float
       || PrimFloat.leb 1%float (packetLossRate l)
    then None else Some (packetLossRate l).
Proof.
  unfold link_error_rate, d_gtb. cbn [d_ltb d_zero d_one float_double].
  destruct (PrimFloat.is_nan (packetLossRate l)) eqn:En.
  - rewrite (float_nan_ltb 0%float) by tauto. done.
  - change PrimFloat.zero with 0%float. change PrimFloat.one with 1%float.
    rewrite (float_ltb_leb 0%float), (float_ltb_leb _ 1%float) by done.
    cbn [orb]. by destruct (PrimFloat.leb _ 0%float), (PrimFloat.leb 1%float _).
Qed.

(** ** The main loop of [Dijkstra] ends on binary64 *)

Section Termination.
Context {D : Type} `{Double D}.
Variable rank : D -> nat.
Hypothesis rank_lt : forall a b : D, d_ltb a b = true -> rank a < rank b.
Variable adj : list (list (nat * D)).
Variable numNodes : nat.
Hypothesis adj_ok : adj_wf adj numNodes.

Lemma sum_list_with_insert (l : list D) (v : nat) (dv d' : D) :
  l !! v = Some dv ->
  sum_list_with rank (<[v := d']> l) + rank dv = sum_list_with rank l + rank d'.
Proof.
  revert v. induction l as [|x l IH]; intros v Hv; [done|].
  destruct v as [|v].
  - injection Hv as ->. cbn [insert list_insert sum_list_with]. clear IH. lia.
  - specialize (IH v Hv). cbn [insert list_insert sum_list_with].
    rewrite <- !Nat.add_assoc. f_equal. exact IH.
Qed.

Lemma relax_edge_measure (u : nat) (e : nat * D) (s : DState) :
  state_wf numNodes s -> u < numNodes -> e.1 < numNodes ->
  exists s', relax_edge u e s = Some s' /\ state_wf numNodes s' /\
             loop_measure rank s' <= loop_measure rank s.
Proof.
  intros (Hd & Hp & Hq) Hu Hv. destruct e as [v w]. cbn [fst] in Hv.
  unfold relax_edge.
  destruct (lookup_lt_is_Some_2 (ds_dist s) u) as [du Edu]; [lia|].
  destruct (lookup_lt_is_Some_2 (ds_dist s) v) as [dv Edv]; [lia|].
  destruct (lookup_lt_is_Some_2 (ds_prev s) v) as [pv Epv]; [lia|].
  rewrite Edu. cbn [mbind option_bind]. rewrite Edv. cbn [mbind option_bind].
  destruct (d_ltb (d_add du w) dv) eqn:Elt.
  - rewrite Epv. cbn [mbind option_bind]. eexists. split; [done|]. split.
    + split; [|split]; cbn [ds_dist ds_prev ds_pq].
      * by rewrite length_insert.
      * by rewrite length_insert.
      * intros d x Hx. apply elem_of_cons in Hx as [[= -> ->]|Hx]; [done|by eapply Hq].
    + unfold loop_measure. cbn [ds_dist ds_pq length].
      pose proof (sum_list_with_insert (ds_dist s) v dv (d_add du w) Edv).
      pose proof (rank_lt _ _ Elt). lia.
  - exists s. done.
Qed.

Lemma relax_all_measure (u : nat) (es : list (nat * D)) (s : DState) :
  state_wf numNodes s -> u < numNodes -> (forall e, e ∈ es -> e.1 < numNodes) ->
  exists s', relax_all u es s = Some s' /\ state_wf numNodes s' /\
             loop_measure rank s' <= loop_measure rank s.
Proof.
  revert s. induction es as [|e es IH]; intros s Hs Hu Hes.
  - exists s. done.
  - destruct (relax_edge_measure u e s Hs Hu) as (s1 & E1 & Hs1 & Hm1); [apply Hes; by left|].
    destruct (IH s1 Hs1 Hu) as (s2 & E2 & Hs2 & Hm2); [intros e' He'; apply Hes; by right|].
    exists s2. cbn [relax_all]. rewrite E1. cbn [mbind option_bind].
    split; [done|]. split; [done|lia].
Qed.

(** The main loop ends within as many turns as its measure allows. *)
Lemma dijkstra_loop_terminates (fuel : nat) (s : DState) :
  state_wf numNodes s -> loop_measure rank s < fuel ->
  exists s', dijkstra_loop fuel adj s = Some s'.
Proof.
  revert s. induction fuel as [|fuel IH]; intros s Hs Hm; [lia|].
  cbn [dijkstra_loop]. destruct (pq_pop_min (ds_pq s)) as [[[d u] pq']|] eqn:Epop;
    [|by eexists].
  pose proof (pq_pop_min_length _ _ _ Epop) as Hlen.
  pose proof (pq_pop_min_perm _ _ _ Epop) as Hperm.
  destruct Hs as (Hd & Hp & Hq).
  assert (u < numNodes) as Hu.
  { apply (Hq d). rewrite Hperm. by left. }
  assert (state_wf numNodes (mkDState (ds_dist s) (ds_prev s) pq')) as Hs1.
  { split; [done|]. split; [done|]. intros d' x Hx. apply (Hq d'). rewrite Hperm. by right. }
  assert (loop_measure rank (mkDState (ds_dist s) (ds_prev s) pq') < fuel) as Hm1.
  { unfold loop_measure in *. cbn [ds_dist ds_pq]. lia. }
  unfold dijkstra_body. cbn [ds_dist].
  destruct (lookup_lt_is_Some_2 (ds_dist s) u) as [du Edu]; [lia|].
  rewrite Edu. cbn [mbind option_bind].
  destruct (d_gtb d du).
  - cbn [mbind option_bind]. by apply IH.
  - destruct adj_ok as [Hadj Hedge].
    destruct (lookup_lt_is_Some_2 adj u) as [es Ees]; [lia|].
    rewrite Ees. cbn [mbind option_bind].
    destruct (relax_all_measure u es _ Hs1 Hu) as (s2 & E2 & Hs2 & Hm2).
    { intros [v w] He. cbn [fst]. apply (Hedge u v w). by exists es. }
    rewrite E2. cbn [mbind option_bind]. apply IH; [done|lia].
Qed.

(** [Dijkstra] returns for every source among the nodes. *)
Lemma Dijkstra_terminates (src : nat) :
  src < numNodes -> exists fuel r, Dijkstra fuel adj src numNodes = Some r.
Proof.
  intros Hsrc. unfold Dijkstra, dijkstra_init.
  rewrite (proj2 (lookup_replicate _ _ _ _) (conj eq_refl Hsrc)).
  cbn [mbind option_bind].
  set (s0 := mkDState _ _ _).
  destruct (dijkstra_loop_terminates (S (loop_measure rank s0)) s0) as [s E]; [|lia|].
  - unfold s0. split; [|split]; cbn [ds_dist ds_prev ds_pq].
    + by rewrite length_insert, length_replicate.
    + by rewrite length_replicate.
    + intros d x Hx. apply list_elem_of_singleton in Hx as [= -> ->]. done.
  - exists (S (loop_measure rank s0)). eexists. rewrite E. done.
Qed.

End Termination.

Lemma digits2_pos_bound (m : positive) : (Z.pos m < 2 ^ Z.pos (digits2_pos m))%Z.
Proof.
  induction m as [m IH|m IH|]; cbn [digits2_pos].
  - rewrite Pos2Z.inj_succ, Z.pow_succ_r by lia. lia.
  - rewrite Pos2Z.inj_succ, Z.pow_succ_r by lia. lia.
  - done.
Qed.

(** The exponent and the mantissa of a binary64 number. *)
Lemma valid_finite_bounds (s : bool) (m : positive) (e : Z) :
  SpecFloat.valid_binary prec emax (S754_finite s m e) = true ->
  (-1074 <= e <= 971)%Z /\ (Z.pos m < 2 ^ 53)%Z.
Proof.
  unfold SpecFloat.valid_binary, bounded, canonical_mantissa, fexp, emin.
  change prec with 53%Z. change emax with 1024%Z.
  intros Hv. apply andb_true_iff in Hv as [Hc He].
  apply Z.eqb_eq in Hc. apply Z.leb_le in He.
  pose proof (digits2_pos_bound m) as Hm.
  assert (Z.pos (digits2_pos m) <= 53)%Z as Hdig by lia.
  split; [lia|].
  eapply Z.lt_le_trans; [exact Hm|]. apply Z.pow_le_mono_r; lia.
Qed.

Lemma sf_key_lt (a b : spec_float) :
  SpecFloat.valid_binary prec emax a = true -> SpecFloat.valid_binary prec emax b = true ->
  SFltb a b = true -> (sf_key a < sf_key b)%Z.
Proof.
  intros Ha Hb. unfold SFltb.
  assert (forall s m e, SpecFloat.valid_binary prec emax (S754_finite s m e) = true ->
            (0 < (e + 2000) * 2 ^ 53 + Z.pos m < 2 ^ 80)%Z) as Hfin.
  { intros s m e Hv. apply valid_finite_bounds in Hv as [He Hm].
    change (2 ^ 80)%Z with (2 ^ 27 * 2 ^ 53)%Z. nia. }
  destruct a as [s1|s1| |s1 m1 e1], b as [s2|s2| |s2 m2 e2]; cbn [SFcompare sf_key];
    try destruct s1; try destruct s2; try done;
    try (pose proof (Hfin _ _ _ Ha)); try (pose proof (Hfin _ _ _ Hb)); try lia.
  - apply valid_finite_bounds in Ha as [He1 Hm1].
    apply valid_finite_bounds in Hb as [He2 Hm2].
    destruct (Z.compare_spec e1 e2) as [->|Hlt|Hgt].
    + rewrite Pos.compare_cont_antisym. cbn [CompOpp].
      destruct (Pos.compare_cont Eq m2 m1) eqn:Ec; try done.
      change (Pos.compare_cont Eq m2 m1 = Lt) with (m2 < m1)%positive in Ec.
      intros _. lia.
    + done.
    + intros _. nia.
  - apply valid_finite_bounds in Ha as [He1 Hm1].
    apply valid_finite_bounds in Hb as [He2 Hm2].
    destruct (Z.compare_spec e1 e2) as [->|Hlt|Hgt].
    + destruct (Pos.compare_cont Eq m1 m2) eqn:Ec; try done.
      change (Pos.compare_cont Eq m1 m2 = Lt) with (m1 < m2)%positive in Ec.
      intros _. lia.
    + intros _. nia.
    + done.
Qed.

(** [<] on binary64 goes up in rank. *)
Lemma float_rank_lt (a b : float) :
  d_ltb a b = true -> float_rank a < float_rank b.
Proof.
  cbn [d_ltb float_double]. rewrite FloatAxioms.ltb_spec. intros Hlt.
  pose proof (sf_key_lt _ _ (Prim2SF_valid a) (Prim2SF_valid b) Hlt) as Hk.
  unfold float_rank.
  assert (forall x, SpecFloat.valid_binary prec emax x = true -> (- 2 ^ 80 <= sf_key x)%Z) as Hlow.
  { intros [s|s| |s m e] Hx; cbn [sf_key]; try destruct s; try lia.
    - apply valid_finite_bounds in Hx as [He Hm].
      change (2 ^ 80)%Z with (2 ^ 27 * 2 ^ 53)%Z. nia.
    - apply valid_finite_bounds in Hx as [He Hm]. nia. }
  pose proof (Hlow _ (Prim2SF_valid a)). lia.
Qed.

Section LoadedAny.
Context {D : Type} `{Double D}.
Variable parse_link : string -> option (LinkParam D).

(** The adjacency lists that [LoadLinks] leaves fit its node count, on
    any arithmetic. *)
Lemma loaded_adj_fits (file : option (list string)) (ok : bool) (topo : Topology D) :
  LoadLinks parse_link file empty_topology = Some (ok, topo) ->
  adj_wf (g_adjList topo) (g_numNodes topo).
Proof.
  intros EL. destruct (LoadLinks_topology _ _ _ _ EL) as (_ & Hlen & Hends & Hedge).
  split; [done|]. intros u v w He. apply Hedge in He as (l & Hl & Hj & _).
  destruct (Hends l Hl) as [Hs Hd]. destruct Hj as [[_ ->]|[_ ->]]; done.
Qed.

End LoadedAny.

(** The loop of [Dijkstra] ends on binary64: for every topology that
    [LoadLinks] leaves and every source among its nodes, whatever the
    delays of the links are, [Dijkstra] returns, with the same result for
    any larger fuel, and its two vectors have one entry for each node. *)
Theorem Dijkstra_terminates_binary64 (parse_link : string -> option (LinkParam float))
    (file : option (list string)) (ok : bool) (topo : Topology float) (src : nat) :
  LoadLinks parse_link file empty_topology = Some (ok, topo) ->
  src < g_numNodes topo ->
  exists fuel r,
    (forall fuel', fuel <= fuel' ->
       Dijkstra fuel' (g_adjList topo) src (g_numNodes topo) = Some r) /\
    length (dist r) = g_numNodes topo /\ length (prev r) = g_numNodes topo.
Proof.
  intros EL Hsrc.
  destruct (Dijkstra_terminates float_rank float_rank_lt (g_adjList topo) (g_numNodes topo)
              (loaded_adj_fits parse_link _ _ _ EL) src Hsrc) as (fuel & r & ED).
  exists fuel, r. split.
  - intros fuel' Hle. by apply (Dijkstra_fuel _ _ _ fuel).
  - destruct (LoadLinks_topology _ _ _ _ EL) as (Hn & _).
    destruct (Dijkstra_safe _ _ _ _ _ Hn ED) as (Hs & Hlen & _).
    split; [done|]. by rewrite (safe_length _ _ _ _ _ Hs).
Qed.

(** ** [MonitorQueues] *)

Section MonitorFacts.
Context {D : Type}.
Variable device_of : nat -> nat -> option nat.
Variable GetNPackets : nat -> option Z.

Lemma MonitorQueues_app (now : D) (es1 es2 : list MonitorEntry) :
  MonitorQueues GetNPackets now (es1 ++ es2) =
  MonitorQueues GetNPackets now es1 ++ MonitorQueues GetNPackets now es2.
Proof.
  induction es1 as [|e es1 IH]; [done|]. cbn [app MonitorQueues].
  destruct (me_device e); [|done]. by rewrite IH.
Qed.

Lemma monitor_links_app (i : nat) (links : list (LinkParam D)) (g : list MonitorEntry) :
  monitor_links device_of i links g = g ++ monitor_links device_of i links [].
Proof.
  revert i g. induction links as [|l links IH]; intros i g; [by rewrite app_nil_r|].
  cbn [monitor_links]. rewrite (IH _ (monitor_link _ _ _ g)), (IH _ (monitor_link _ _ _ [])).
  unfold monitor_link. by rewrite !app_nil_l, <- !app_assoc.
Qed.

(** One call of [MonitorQueues] after the link loop writes the rows of
    the links in their order, for each link the row of the device at its
    source end and then, with the two names exchanged, the row of the
    device at its destination end, all with the same time; a device that
    is null has no row, and a device without a queue has 0 packets.  So
    there are never more than two rows for a link, and no row once
    [g_monitoredLinks] is cleared. *)
Theorem MonitorQueues_rows (now : D) (links : list (LinkParam D)) :
  MonitorQueues GetNPackets now (monitor_links device_of 0 links []) =
    flat_map (fun il => monitor_row GetNPackets now (srcName il.2) (dstName il.2)
                          (device_of il.1 0)
                        ++ monitor_row GetNPackets now (dstName il.2) (srcName il.2)
                             (device_of il.1 1))
             (numbered 0 links) /\
  length (MonitorQueues GetNPackets now (monitor_links device_of 0 links []))
    <= 2 * length links /\
  ((forall i k, i < length links -> is_Some (device_of i k)) ->
   length (MonitorQueues GetNPackets now (monitor_links device_of 0 links []))
     = 2 * length links) /\
  MonitorQueues GetNPackets now [] = [].
Proof.
  assert (forall i, MonitorQueues GetNPackets now (monitor_links device_of i links []) =
            flat_map (fun il => monitor_row GetNPackets now (srcName il.2) (dstName il.2)
                                  (device_of il.1 0)
                                ++ monitor_row GetNPackets now (dstName il.2) (srcName il.2)
                                     (device_of il.1 1))
                     (numbered i links)) as Hrows.
  { induction links as [|l links IH]; intros i; [done|].
    cbn [monitor_links]. rewrite monitor_links_app, MonitorQueues_app, IH.
    unfold numbered. cbn [length seq zip zip_with flat_map fst snd]. f_equal.
    unfold monitor_link, monitor_row. cbn [app MonitorQueues me_device me_srcName me_dstName].
    destruct (device_of i 0) as [d0|], (device_of i 1) as [d1|];
      cbn [MonitorQueues me_device me_srcName me_dstName app];
      try destruct (GetNPackets d0); try destruct (GetNPackets d1); done. }
  split; [apply Hrows|]. rewrite Hrows.
  assert (forall i (ls : list (LinkParam D)),
            length (flat_map (fun il => monitor_row GetNPackets now (srcName il.2)
                                          (dstName il.2) (device_of il.1 0)
                                        ++ monitor_row GetNPackets now (dstName il.2)
                                             (srcName il.2) (device_of il.1 1))
                             (numbered i ls)) <= 2 * length ls /\
            ((forall j k, i <= j < i + length ls -> is_Some (device_of j k)) ->
             length (flat_map (fun il => monitor_row GetNPackets now (srcName il.2)
                                           (dstName il.2) (device_of il.1 0)
                                         ++ monitor_row GetNPackets now (dstName il.2)
                                              (srcName il.2) (device_of il.1 1))
                              (numbered i ls)) = 2 * length ls)) as Hlen.
  { intros i ls. revert i. induction ls as [|l ls IH]; intros i; [done|].
    unfold numbered. cbn [length seq zip zip_with flat_map fst snd].
    fold (numbered (S i) ls). rewrite !length_app.
    destruct (IH (S i)) as [IH1 IH2].
    set (n := length (flat_map _ (numbered (S i) ls))) in *. split.
    - unfold monitor_row. destruct (device_of i 0), (device_of i 1); cbn [length]; lia.
    - intros Hdev. rewrite IH2 by (intros j k Hj; apply Hdev; lia).
      destruct (Hdev i 0) as [d0 ->]; [lia|]. destruct (Hdev i 1) as [d1 ->]; [lia|].
      cbn [monitor_row length]. lia. }
  destruct (Hlen 0 links) as [H1 H2]. split; [done|]. split; [|done].
  intros Hdev. apply H2. intros j k Hj. apply Hdev. lia.
Qed.

End MonitorFacts.

(** ** The properties above on the line A-B-C-D *)

Lemma sample_accepted_links :
  accepted_rows (sample_parse_link (D := float)) sample_link_file =
  [sample_link 0 1 "A" "B"; sample_link 1 2 "B" "C"; sample_link 2 3 "C" "D";
   sample_link 4 5 "E" "F"].
Proof. reflexivity. Qed.

Lemma sample_topology_loaded {D} `{Double D} :
  LoadLinks (sample_parse_link (D := D)) sample_link_file empty_topology
    = Some (true, sample_topology).
Proof. reflexivity. Qed.

(** The line A-B-C-D and the pair E-F have six nodes. *)
Lemma LoadLinks_returns_witness :
  is_Some (LoadLinks (sample_parse_link (D := float)) sample_link_file empty_topology) /\
  g_numNodes (sample_topology (D := float)) = 6.
Proof.
  destruct (LoadLinks_returns (sample_parse_link (D := float)) sample_link_file)
    as [Hiff Hnum].
  - intros p Hp. rewrite sample_accepted_links in Hp.
    repeat (apply elem_of_cons in Hp as [->|Hp]); [cbn; lia..|by apply elem_of_nil in Hp].
  - split.
    + apply Hiff. intros p Hp. rewrite sample_accepted_links in Hp.
      repeat (apply elem_of_cons in Hp as [->|Hp]); [cbn; lia..|by apply elem_of_nil in Hp].
    + rewrite (Hnum true sample_topology sample_topology_loaded). reflexivity.
Defined.

Lemma LoadLinks_names_witness :
  GetNodeName (g_nodeIdToName (sample_topology (D := float))) 2 = "C" /\
  GetNodeName (g_nodeIdToName (sample_topology (D := float))) 7 = "Node_7".
Proof.
  split.
  - rewrite (LoadLinks_names (sample_parse_link (D := float)) sample_link_file true
               sample_topology 2 sample_topology_loaded). reflexivity.
  - rewrite (LoadLinks_names (sample_parse_link (D := float)) sample_link_file true
               sample_topology 7 sample_topology_loaded). reflexivity.
Defined.

Lemma sample_route :
  exists r, Dijkstra (D := float) 10 (g_adjList sample_topology) 0 (g_numNodes sample_topology)
              = Some r /\
            GetPath 0 3 r = Some [0; 1; 2; 3].
Proof. eexists. split; vm_compute; reflexivity. Qed.

Lemma route_report_names_witness :
  exists l, l ∈ g_links (sample_topology (D := float)) /\ link_end l 2 /\
    GetNodeName (g_nodeIdToName (sample_topology (D := float))) 2 = link_name l 2.
Proof.
  destruct sample_route as (r & ED & EP).
  apply (route_report_names (sample_parse_link (D := float)) sample_link_file true
           sample_topology 10 0 3 r [0; 1; 2; 3] sample_topology_loaded ED EP).
  - cbn. lia.
  - rewrite !elem_of_cons. tauto.
Defined.

Lemma demand_loop_flows_witness :
  exists st,
    process_demands (D := float) 10 10%float sample_topology sample_interfaces
      [sample_demand 3 "A" "Z" 0 9; sample_demand 0 "A" "D" 0 3] initial_sim = Some st /\
    port st = wrap16 (9000 + Z.of_nat (length (routeFile st))) /\
    length (sinkApps st) = length (routeFile st).
Proof.
  destruct (process_demands (D := float) 10 10%float sample_topology sample_interfaces
              [sample_demand 3 "A" "Z" 0 9; sample_demand 0 "A" "D" 0 3] initial_sim)
    as [st|] eqn:E.
  - exists st. split; [reflexivity|].
    destruct (demand_loop_flows 10 10%float sample_topology sample_interfaces _ st E)
      as (Hs & _ & Hp & _).
    split; [exact Hp|exact Hs].
  - vm_compute in E. discriminate E.
Defined.

Lemma main_no_warning_witness :
  exists topo demands ifs st,
    main (D := float) sample_parse_link sample_parse_demand sample_bind_link 10 10%float
      sample_link_file sample_demand_file = Some (Ran topo demands ifs st) /\
    warnings st = [] /\
    length (hostRoutes st) = sum_list_with rr_hopCount (routeFile st).
Proof.
  destruct (main (D := float) sample_parse_link sample_parse_demand sample_bind_link 10
              10%float sample_link_file sample_demand_file) as [[code|topo demands ifs st]|]
    eqn:E.
  - vm_compute in E. discriminate E.
  - exists topo, demands, ifs, st. split; [reflexivity|].
    destruct (main_no_warning sample_parse_link sample_bind_link 10 10%float
                sample_parse_demand sample_link_file sample_demand_file topo demands ifs st E)
      as (_ & _ & _ & _ & _ & Hw & Hr).
    split; [exact Hw|exact Hr].
  - vm_compute in E. discriminate E.
Defined.

(** A demand from node 7 of a topology of six nodes to node D. *)
Lemma demand_source_unchecked_witness :
  process_demand (D := float) 10 10%float sample_topology sample_interfaces
    (sample_demand 5 "X" "D" 7 3) initial_sim = None.
Proof.
  apply (demand_source_unchecked (D := float) 10 10%float sample_topology sample_interfaces
           [] [] (sample_demand 5 "X" "D" 7 3) initial_sim).
  - vm_compute. eexists. reflexivity.
  - vm_compute. lia.
Defined.


Lemma subnet_base_reuse_witness :
  subnet_base (sub_of_link (3 + Z.to_nat 65536)) = subnet_base (sub_of_link 3).
Proof. apply (subnet_base_reuse 3 3); lia. Defined.

Lemma sample_distinct_addresses : distinct_addresses sample_bind_link 4.
Proof.
  split.
  - intros i Hi. unfold sample_bind_link. cbn. lia.
  - intros i j Hi Hj Hne. unfold sample_bind_link. cbn. lia.
Qed.

Lemma GetSatelliteName_links_witness :
  GetSatelliteName pretty
    (name_links pretty sample_bind_link 0 (g_links (sample_topology (D := float))) ∅)
    (address1 (sample_bind_link 2)) = "D".
Proof.
  destruct (GetSatelliteName_links pretty sample_bind_link _
              (g_links (sample_topology (D := float))) sample_distinct_addresses)
    as (Hl & _ & _).
  by destruct (Hl 2 (sample_link 2 3 "C" "D") eq_refl) as [_ ->].
Defined.

Lemma GetPath_int_overflow_witness :
  GetPath (D := float) 0 (Z.to_nat (2 ^ 31))
    (mkDijkstraResult (replicate (Z.to_nat (2 ^ 31) + 1) 0%float) []) = None.
Proof.
  apply (GetPath_int_overflow (D := float) 0 (Z.to_nat (2 ^ 31)) _ 0%float).
  - cbn [dist]. apply lookup_replicate_2. lia.
  - reflexivity.
  - lia.
Defined.



Lemma Dijkstra_terminates_binary64_witness :
  exists fuel r,
    (forall fuel', fuel <= fuel' ->
       Dijkstra (D := float) fuel' (g_adjList sample_topology) 0 (g_numNodes sample_topology)
         = Some r) /\
    length (dist r) = g_numNodes (sample_topology (D := float)) /\
    length (prev r) = g_numNodes (sample_topology (D := float)).
Proof.
  apply (Dijkstra_terminates_binary64 sample_parse_link sample_link_file true
           sample_topology 0).
  - reflexivity.
  - vm_compute. lia.
Defined.

Lemma MonitorQueues_rows_witness :
  length (MonitorQueues (D := float) (fun _ => Some 3%Z) 1%float
            (monitor_links (fun i k => Some (2 * i + k)) 0
               [sample_link 0 1 "A" "B"; sample_link 1 2 "B" "C"] [])) = 4.
Proof.
  destruct (MonitorQueues_rows (D := float) (fun i k => Some (2 * i + k))
              (fun _ => Some 3%Z) 1%float
              [sample_link 0 1 "A" "B"; sample_link 1 2 "B" "C"]) as (_ & _ & Hall & _).
  apply Hall. intros i k _. by eexists.
Defined.

(** ** The end-to-end scenario of the specification *)

(** The line A-B-C-D with one demand from A to D, among demands that are
    skipped, on binary64: one row with three hops and the path
    A->B->C->D, routes at A, B and C, one receiver at D and one sender at
    A. *)
Example linear_topology_scenario :
  exists topo demands ifs st,
    main (D := float) sample_parse_link sample_parse_demand sample_bind_link 10 10%float
         sample_link_file sample_demand_file = Some (Ran topo demands ifs st) /\
    routeFile st = [mkRouteRow 1 "A" "D" 3 "A->B->C->D"] /\
    map hr_node (hostRoutes st) = [0; 1; 2] /\
    map sink_node (sinkApps st) = [3] /\
    map onoff_node (clientApps st) = [0] /\
    warnings st = [] /\ port st = 9001%Z.
Proof.
  eexists _, _, _, _. split; [vm_compute; reflexivity|]. repeat split.
Qed.
